(** * MnM: the two-party watch-room synchronisation protocol

    A shallow embedding of the synchronisation core of the MnM repository:

    - [SyncEngine]   : src/lib/syncEngine.ts (event taxonomy, channel
                       lifecycle, self-echo filter, dispatch, emit functions);
    - [VideoPlayer]  : src/components/VideoPlayer.tsx (the imperative handle
                       with its echo-suppression flag and the media listeners);
    - [WatchRoom]    : the WatchRoom component (reconciliation handlers and
                       the session orchestrator), which the source tree holds
                       in src/components/IdentitySelector.tsx from line 101
                       on, followed there by the AppProvider context;
    - [LocalFileSelector] : src/components/LocalFileSelector.tsx (room key
                       derivation of local mode).

    JavaScript numbers that hold playback positions are IEEE-754 binary64
    values, modelled by Rocq's primitive [float]; the [time] of a received
    event is the number its payload converts to, which is NaN for a missing
    field and can be an infinity.  Millisecond clock readings ([Date.now()],
    [setTimeout] delays) are integers, modelled by [Z]. *)

From Stdlib Require Import String Ascii List Bool ZArith NArith Lia Floats.
Import ListNotations.

Local Open Scope string_scope.
Local Open Scope list_scope.
Local Open Scope Z_scope.

(** ** JavaScript truthiness of the values the code tests with [!x] *)

Definition truthyString (s : string) : bool :=
  match s with
  | EmptyString => false
  | String _ _ => true
  end.

(** [Identity = 'Aditya' | 'Manika' | null]; the protocol treats the value
    as an opaque string, so the model keeps [option string]. *)
Definition Identity : Type := option string.

Definition truthyIdentity (i : Identity) : bool :=
  match i with
  | Some s => truthyString s
  | None => false
  end.

(** ** Numbers the browser accepts as a playback position

    [HTMLMediaElement.currentTime] is a Web IDL [double]: a binary64 value
    that is neither NaN nor an infinity.  Reading the attribute gives such
    a value; assigning any other number throws a [TypeError]. *)

Record Finite : Type := {
  num :> float;
  num_finite : PrimFloat.is_finite num = true
}.

(** The conversion the setter makes: [None] is the [TypeError]. *)
Definition finite (x : float) : option Finite :=
  match Bool.bool_dec (PrimFloat.is_finite x) true with
  | left H => Some {| num := x; num_finite := H |}
  | right _ => None
  end.

(** How a call completes: normally, or by throwing the [TypeError]. *)
Inductive Completion : Type := normal | typeError.

(* ================================================================== *)
(** ** src/lib/syncEngine.ts *)
(* ================================================================== *)

Module SyncEngine.

Inductive PlaybackTransition : Type := playing | paused | seeked.

Inductive HeartbeatState : Type := hb_playing | hb_paused.

Record PlaybackStateEvent : Type := {
  ps_state : PlaybackTransition;
  ps_time : float;
  ps_sender : string;
  ps_timestamp : Z
}.

Record BufferStateEvent : Type := {
  bs_isBuffering : bool;
  bs_sender : string;
  bs_timestamp : Z
}.

Record TimeSyncEvent : Type := {
  ts_time : float;
  ts_state : HeartbeatState;
  ts_sender : string;
  ts_timestamp : Z
}.

Record ChatMessageEvent : Type := {
  cm_text : string;
  cm_sender : string;
  cm_timestamp : Z
}.

Record ChatUiStateEvent : Type := {
  cu_isOpen : bool;
  cu_sender : string
}.

Record RequestStateEvent : Type := {
  rs_sender : string
}.

Record FileHashEvent : Type := {
  fh_hash : string;
  fh_fileName : string;
  fh_sender : string
}.

Record PresenceState : Type := {
  pr_identity : string;
  pr_online : bool
}.

(** The discriminated union [SyncEvent]; the constructor is the [type] tag. *)
Inductive SyncEvent : Type :=
| playback_state (e : PlaybackStateEvent)
| buffer_state (e : BufferStateEvent)
| time_sync (e : TimeSyncEvent)
| chat_message (e : ChatMessageEvent)
| chat_ui_state (e : ChatUiStateEvent)
| request_state (e : RequestStateEvent)
| file_hash (e : FileHashEvent).



(** [data.sender] *)
Definition sender (data : SyncEvent) : string :=
  match data with
  | playback_state e => ps_sender e
  | buffer_state e => bs_sender e
  | time_sync e => ts_sender e
  | chat_message e => cm_sender e
  | chat_ui_state e => cu_sender e
  | request_state e => rs_sender e
  | file_hash e => fh_sender e
  end.

Definition DRIFT_TOLERANCE_MS : Z := 500.
Definition TIME_SYNC_INTERVAL_MS : Z := 3000.

(** *** The transport, as far as the engine drives it

    The Supabase realtime client is an external collaborator.  The model
    records, in order, every call the engine makes on it. *)

Inductive TransportCall : Type :=
| t_channel (channelName presenceKey : string)
| t_subscribe (channelName : string)
| t_track (channelName identity : string)
| t_send (channelName : string) (payload : SyncEvent)
| t_unsubscribe (channelName : string).

Record RealtimeChannel : Type := {
  channelName : string;
  presenceKey : string
}.

(** The hook's own state: [channelRef.current], the [connected] state
    variable, and the trace of transport calls made so far. *)
Record Engine : Type := {
  channelRef : option RealtimeChannel;
  connected : bool;
  wire : list TransportCall
}.

Definition initial : Engine :=
  {| channelRef := None; connected := false; wire := [] |}.

(** [`watchroom-${videoId}`], line 114. *)
Definition channelNameFor (videoId : string) : string :=
  ("watchroom-" ++ videoId)%string.

Definition transportCall (c : TransportCall) (s : Engine) : Engine :=
  {| channelRef := channelRef s; connected := connected s;
     wire := wire s ++ [c] |}.

(** Body of the subscription effect, lines 111-171: the guard
    [if (!videoId || !identity) return], then channel creation, handler
    registration and [subscribe]. *)
Definition subscriptionEffect (videoId : string) (identity : Identity)
    (s : Engine) : Engine :=
  match identity with
  | Some id =>
      if negb (truthyString videoId) || negb (truthyString id) then s
      else
        let name := channelNameFor videoId in
        {| channelRef := Some {| channelName := name; presenceKey := id |};
           connected := connected s;
           wire := wire s ++ [t_channel name id; t_subscribe name] |}
  | None => s
  end.

(** The cleanup the effect returns, lines 173-177.  It exists only when the
    effect got past its guard, which is when [channelRef] holds a channel. *)
Definition subscriptionCleanup (s : Engine) : Engine :=
  match channelRef s with
  | Some ch =>
      {| channelRef := None; connected := false;
         wire := wire s ++ [t_unsubscribe (channelName ch)] |}
  | None => s
  end.

(** The callback given to [channel.subscribe], lines 164-169.  It closes
    over the [channel] and the [identity] of its own effect run and does not
    read [channelRef]: called after the cleanup, it still sets [connected]
    and tracks presence on the channel that was unsubscribed. *)
Definition onSubscribeStatus (channel : RealtimeChannel) (status : string)
    (s : Engine) : Engine :=
  if String.eqb status "SUBSCRIBED" then
    {| channelRef := channelRef s; connected := true;
       wire := wire s
               ++ [t_track (channelName channel) (presenceKey channel)] |}
  else s.

(** The channels whose status callback the transport holds: those the
    effect created and subscribed, live or not. *)
Definition isChannel (channel : RealtimeChannel) (c : TransportCall) : bool :=
  match c with
  | t_channel name key =>
      String.eqb name (channelName channel)
      && String.eqb key (presenceKey channel)
  | _ => false
  end.

Definition registered (channel : RealtimeChannel)
    (calls : list TransportCall) : bool :=
  existsb (isChannel channel) calls.

(** The channel of the most recent effect run that got past its guard. *)
Definition lastChannel (calls : list TransportCall)
  : option RealtimeChannel :=
  fold_left (fun acc c =>
               match c with
               | t_channel name key =>
                   Some {| channelName := name; presenceKey := key |}
               | _ => acc
               end) calls None.

(** [broadcast], lines 180-190. *)
Definition broadcast (event : SyncEvent) (s : Engine) : Engine :=
  match channelRef s with
  | None => s
  | Some ch => transportCall (t_send (channelName ch) event) s
  end.

(** The convenience emitters, lines 192-277.  Each starts with
    [if (!identity) return]; [now] is the reading of [Date.now()]. *)
Section Emitters.
Variable identity : Identity.
Variable now : Z.

Definition withIdentity (k : string -> Engine -> Engine) (s : Engine)
  : Engine :=
  match identity with
  | Some id => if truthyString id then k id s else s
  | None => s
  end.

Definition emitPlaybackState (state : PlaybackTransition) (time : float)
  : Engine -> Engine :=
  withIdentity (fun id =>
    broadcast (playback_state
      {| ps_state := state; ps_time := time; ps_sender := id;
         ps_timestamp := now |})).

Definition emitBufferState (isBuffering : bool) : Engine -> Engine :=
  withIdentity (fun id =>
    broadcast (buffer_state
      {| bs_isBuffering := isBuffering; bs_sender := id;
         bs_timestamp := now |})).

Definition emitTimeSync (time : float) (state : HeartbeatState)
  : Engine -> Engine :=
  withIdentity (fun id =>
    broadcast (time_sync
      {| ts_time := time; ts_state := state; ts_sender := id;
         ts_timestamp := now |})).

Definition emitChatMessage (text : string) : Engine -> Engine :=
  withIdentity (fun id =>
    broadcast (chat_message
      {| cm_text := text; cm_sender := id; cm_timestamp := now |})).

Definition emitChatUiState (isOpen : bool) : Engine -> Engine :=
  withIdentity (fun id =>
    broadcast (chat_ui_state {| cu_isOpen := isOpen; cu_sender := id |})).

Definition requestCurrentState : Engine -> Engine :=
  withIdentity (fun id =>
    broadcast (request_state {| rs_sender := id |})).

Definition emitFileHash (hash fileName : string) : Engine -> Engine :=
  withIdentity (fun id =>
    broadcast (file_hash
      {| fh_hash := hash; fh_fileName := fileName; fh_sender := id |})).
End Emitters.

(** Every way the hook's caller can emit: the seven convenience emitters
    with their arguments. *)
Inductive EmitCall : Type :=
| call_emitPlaybackState (state : PlaybackTransition) (time : float)
| call_emitBufferState (isBuffering : bool)
| call_emitTimeSync (time : float) (state : HeartbeatState)
| call_emitChatMessage (text : string)
| call_emitChatUiState (isOpen : bool)
| call_requestCurrentState
| call_emitFileHash (hash fileName : string).

Definition emit (identity : Identity) (now : Z) (c : EmitCall)
  : Engine -> Engine :=
  match c with
  | call_emitPlaybackState state time =>
      emitPlaybackState identity now state time
  | call_emitBufferState b => emitBufferState identity now b
  | call_emitTimeSync time state => emitTimeSync identity now time state
  | call_emitChatMessage text => emitChatMessage identity now text
  | call_emitChatUiState b => emitChatUiState identity b
  | call_requestCurrentState => requestCurrentState identity
  | call_emitFileHash hash fileName => emitFileHash identity hash fileName
  end.

(** What can happen to the hook: a render whose [videoId] or [identity]
    changed (React runs the previous cleanup, then the effect), the
    transport calling the status callback of one of the channels it was
    given (the live one or an earlier one), or an emit by the caller. *)
Inductive HookAction : Type :=
| hook_effect (videoId : string) (identity : Identity)
| hook_status (channel : RealtimeChannel) (status : string)
| hook_broadcast (event : SyncEvent)
| hook_emit (identity : Identity) (now : Z) (c : EmitCall).

(** A status callback exists once its channel was subscribed; a call for a
    channel the hook never made is not a call on this hook. *)
Definition hookStep (a : HookAction) (s : Engine) : Engine :=
  match a with
  | hook_effect videoId identity =>
      subscriptionEffect videoId identity (subscriptionCleanup s)
  | hook_status channel status =>
      if registered channel (wire s)
      then onSubscribeStatus channel status s
      else s
  | hook_broadcast event => broadcast event s
  | hook_emit identity now c => emit identity now c s
  end.

Definition hookRun (acts : list HookAction) (s : Engine) : Engine :=
  fold_left (fun s a => hookStep a s) acts s.

(** The subscription attempts among some transport calls. *)
Definition subscribeCalls (calls : list TransportCall) : list string :=
  flat_map (fun c => match c with
                     | t_subscribe name => [name]
                     | _ => []
                     end) calls.

(** An action that is not a render with both a room key and an identity. *)
Definition keyless (a : HookAction) : bool :=
  match a with
  | hook_effect videoId identity =>
      negb (truthyString videoId && truthyIdentity identity)
  | _ => true
  end.

(** An action that is not the transport reporting SUBSCRIBED. *)
Definition unannounced (a : HookAction) : bool :=
  match a with
  | hook_status _ status => negb (String.eqb status "SUBSCRIBED")
  | _ => true
  end.

(** *** Receiving

    [callbackRefs.current]: the optional handlers of
    [UseSyncEngineOptions], acting on the caller's state [W]. *)
Record Callbacks (W : Type) : Type := {
  onPlaybackState : option (PlaybackStateEvent -> W -> W);
  onBufferState : option (BufferStateEvent -> W -> W);
  onTimeSync : option (TimeSyncEvent -> W -> W);
  onChatMessage : option (ChatMessageEvent -> W -> W);
  onChatUiState : option (ChatUiStateEvent -> W -> W);
  onRequestState : option (RequestStateEvent -> W -> W);
  onFileHash : option (FileHashEvent -> W -> W);
  onPresenceChange : option (PresenceState -> W -> W)
}.

Arguments onPlaybackState {W} _.
Arguments onBufferState {W} _.
Arguments onTimeSync {W} _.
Arguments onChatMessage {W} _.
Arguments onChatUiState {W} _.
Arguments onRequestState {W} _.
Arguments onFileHash {W} _.
Arguments onPresenceChange {W} _.

(** Optional call [handler?.(data)]. *)
Definition callOpt {E W : Type} (h : option (E -> W -> W)) (data : E) (w : W)
  : W :=
  match h with
  | Some f => f data w
  | None => w
  end.

(** The [switch (data.type)] of lines 127-149. *)
Definition dispatch {W : Type} (cb : Callbacks W) (data : SyncEvent) (w : W)
  : W :=
  match data with
  | playback_state e => callOpt (onPlaybackState cb) e w
  | buffer_state e => callOpt (onBufferState cb) e w
  | time_sync e => callOpt (onTimeSync cb) e w
  | chat_message e => callOpt (onChatMessage cb) e w
  | chat_ui_state e => callOpt (onChatUiState cb) e w
  | request_state e => callOpt (onRequestState cb) e w
  | file_hash e => callOpt (onFileHash cb) e w
  end.

(** The broadcast listener, lines 123-150.  [identity] is the non-null
    identity the effect closed over; [payload] is [None] for a missing
    payload ([!data]). *)
Definition onBroadcast {W : Type} (identity : string) (cb : Callbacks W)
    (payload : option SyncEvent) (w : W) : W :=
  match payload with
  | None => w
  | Some data =>
      if String.eqb (sender data) identity then w
      else dispatch cb data w
  end.

(** The presence listeners, lines 152-162. *)
Definition onPresence {W : Type} (identity : string) (cb : Callbacks W)
    (online : bool) (key : string) (w : W) : W :=
  if negb (String.eqb key identity) then
    callOpt (onPresenceChange cb)
      {| pr_identity := key; pr_online := online |} w
  else w.

(** A spying set of callbacks: every handler only records that it was
    invoked, and with which event. *)
Definition spy : Callbacks (list SyncEvent) :=
  {| onPlaybackState := Some (fun e log => log ++ [playback_state e]);
     onBufferState := Some (fun e log => log ++ [buffer_state e]);
     onTimeSync := Some (fun e log => log ++ [time_sync e]);
     onChatMessage := Some (fun e log => log ++ [chat_message e]);
     onChatUiState := Some (fun e log => log ++ [chat_ui_state e]);
     onRequestState := Some (fun e log => log ++ [request_state e]);
     onFileHash := Some (fun e log => log ++ [file_hash e]);
     onPresenceChange := None |}.

End SyncEngine.

(* ================================================================== *)
(** ** The timer queue of the page's event loop

    [setTimeout(f, d)] at clock reading [now] queues [f] with deadline
    [now + d].  The timeouts the core sets are the two resets below; the
    heartbeat interval is an action of its own ([WatchRoom.Heartbeat]).
    The queue is kept in deadline order, first queued first among equals,
    and a timer runs when the clock has reached its deadline. *)
(* ================================================================== *)

Module EventLoop.

Inductive Task : Type :=
| resetSuppressEvents      (* () => { suppressEventsRef.current = false } *)
| resetNotification.       (* () => setNotification('') *)

Record Timer : Type := { due : Z; task : Task }.

Fixpoint enqueue (t : Timer) (q : list Timer) : list Timer :=
  match q with
  | [] => [t]
  | u :: q' => if due t <? due u then t :: q else u :: enqueue t q'
  end.

Definition setTimeout (now delay : Z) (k : Task) (q : list Timer)
  : list Timer :=
  enqueue {| due := now + delay; task := k |} q.

End EventLoop.

(* ================================================================== *)
(** ** src/components/VideoPlayer.tsx *)
(* ================================================================== *)

Module VideoPlayer.
Import EventLoop.

(** The part of the browser's [HTMLVideoElement] the core reads and writes.
    The element is an external collaborator; the model takes the position
    written to [currentTime] to be the position read back, and [play()] and
    [pause()] to flip [paused] at once and to leave the position alone.
    The position is a finite number at all times. *)
Record HTMLVideoElement : Type := {
  currentTime : Finite;
  paused : bool
}.

Definition video_play (v : HTMLVideoElement) : HTMLVideoElement :=
  {| currentTime := currentTime v; paused := false |}.

Definition video_pause (v : HTMLVideoElement) : HTMLVideoElement :=
  {| currentTime := currentTime v; paused := true |}.

Definition video_setCurrentTime (time : Finite) (v : HTMLVideoElement)
  : HTMLVideoElement :=
  {| currentTime := time; paused := paused v |}.

(** A call made on the [VideoPlayerHandle]. *)
Inductive PlayerCall : Type :=
| call_play
| call_pause
| call_seekTo (time : float).

(** The DOM events the component listens to on the element. *)
Inductive MediaEvent : Type :=
| ev_play | ev_pause | ev_seeked | ev_waiting | ev_playing.

(** The mounted component: [videoRef.current], [suppressEventsRef.current],
    and the trace of the calls made on its handle so far. *)
Record Player : Type := {
  videoRef : option HTMLVideoElement;
  suppressEventsRef : bool;
  calls : list PlayerCall
}.

(** [x || 0] on a number: NaN and both zeros are falsy. *)
Definition orZero (x : float) : float :=
  if PrimFloat.is_nan x || PrimFloat.is_zero x then PrimFloat.zero else x.

(** The imperative handle, lines 65-85.  [play] and [pause] are optional
    calls on the element and complete normally with or without it. *)
Definition play (now : Z) (q : list Timer) (p : Player)
  : list Timer * Player :=
  (setTimeout now 200 resetSuppressEvents q,
   {| videoRef := option_map video_play (videoRef p);
      suppressEventsRef := true;
      calls := calls p ++ [call_play] |}).

Definition pause (now : Z) (q : list Timer) (p : Player)
  : list Timer * Player :=
  (setTimeout now 200 resetSuppressEvents q,
   {| videoRef := option_map video_pause (videoRef p);
      suppressEventsRef := true;
      calls := calls p ++ [call_pause] |}).

(** [seekTo], lines 76-82: with an element, the flag is set, then the
    position is assigned, then the reset is queued.  The assignment throws
    for a [time] that is not finite: the flag is set by then, the position
    stays, no reset is queued, and the exception leaves [seekTo] and goes
    on to the caller. *)
Definition seekTo (time : float) (now : Z) (q : list Timer) (p : Player)
  : Completion * (list Timer * Player) :=
  match videoRef p with
  | Some v =>
      match finite time with
      | Some t =>
          (normal,
           (setTimeout now 300 resetSuppressEvents q,
            {| videoRef := Some (video_setCurrentTime t v);
               suppressEventsRef := true;
               calls := calls p ++ [call_seekTo time] |}))
      | None =>
          (typeError,
           (q, {| videoRef := Some v;
                  suppressEventsRef := true;
                  calls := calls p ++ [call_seekTo time] |}))
      end
  | None =>
      (normal,
       (q, {| videoRef := None;
              suppressEventsRef := suppressEventsRef p;
              calls := calls p ++ [call_seekTo time] |}))
  end.

Definition getCurrentTime (p : Player) : float :=
  match videoRef p with
  | Some v => orZero (currentTime v)
  | None => PrimFloat.zero
  end.

(** [!videoRef.current?.paused]: with no element the operand is
    [undefined], whose negation is [true]. *)
Definition isPlaying (p : Player) : bool :=
  match videoRef p with
  | Some v => negb (paused v)
  | None => true
  end.

(** The timer callback of the handle. *)
Definition resetSuppress (p : Player) : Player :=
  {| videoRef := videoRef p; suppressEventsRef := false; calls := calls p |}.

(** The optional callback props the core uses. *)
Record Props (W : Type) : Type := {
  onPlay : option (float -> W -> W);
  onPause : option (float -> W -> W);
  onSeeked : option (float -> W -> W);
  onBufferingStart : option (W -> W);
  onBufferingEnd : option (W -> W)
}.

Arguments onPlay {W} _.
Arguments onPause {W} _.
Arguments onSeeked {W} _.
Arguments onBufferingStart {W} _.
Arguments onBufferingEnd {W} _.

Definition callOpt0 {W : Type} (h : option (W -> W)) (w : W) : W :=
  match h with
  | Some f => f w
  | None => w
  end.

(** The listeners of lines 193-224, for an element [video] of a player
    whose flag reads [suppress].  ([setIsPlaying] and [setIsBuffering] only
    drive the component's own controls and are left out.) *)
Definition listener {W : Type} (props : Props W) (suppress : bool)
    (video : HTMLVideoElement) (ev : MediaEvent) (w : W) : W :=
  match ev with
  | ev_play =>
      if negb suppress
      then SyncEngine.callOpt (onPlay props) (currentTime video) w else w
  | ev_pause =>
      if negb suppress
      then SyncEngine.callOpt (onPause props) (currentTime video) w else w
  | ev_seeked =>
      if negb suppress
      then SyncEngine.callOpt (onSeeked props) (currentTime video) w else w
  | ev_waiting => callOpt0 (onBufferingStart props) w
  | ev_playing => callOpt0 (onBufferingEnd props) w
  end.

End VideoPlayer.

(* ================================================================== *)
(** ** The WatchRoom component: reconciliation logic and orchestrator *)
(* ================================================================== *)

Module WatchRoom.
Import EventLoop.
Import SyncEngine.

Inductive PlaybackMode : Type := cloud | local.

Record LocalFile : Type := {
  lf_name : string;
  lf_size : Z;
  lf_objectUrl : string;
  lf_hash : string
}.

Record VideoFile : Type := {
  vf_id : string;
  vf_name : string
}.

(** What the component takes from [useApp()]. *)
Record AppContext : Type := {
  identity : Identity;
  mode : option PlaybackMode;
  localFile : option LocalFile;
  selectedVideo : option VideoFile;
  roomId : option string
}.

Record ChatMessage : Type := {
  text : string;
  msg_sender : string;
  timestamp : Z
}.

(** The component's state variables and refs: the local reconciliation
    state. *)
Record Room : Type := {
  peerOnline : bool;
  peerName : string;
  peerBuffering : bool;
  bufferNotice : string;
  chatOpen : bool;
  peerChatOpen : option bool;
  messages : list ChatMessage;
  notification : string;
  hashWarning : string;
  localBufferingRef : bool;
  peerBufferingRef : bool
}.

Definition initialRoom : Room :=
  {| peerOnline := false; peerName := ""; peerBuffering := false;
     bufferNotice := ""; chatOpen := false; peerChatOpen := None;
     messages := []; notification := ""; hashWarning := "";
     localBufferingRef := false; peerBufferingRef := false |}.

(** The whole page as the handlers see it. *)
Record World : Type := {
  now : Z;
  timers : list Timer;
  ctx : AppContext;
  engine : Engine;
  playerRef : option VideoPlayer.Player;
  room : Room
}.

(** *** Field updates *)

Definition withTimers (q : list Timer) (w : World) : World :=
  {| now := now w; timers := q; ctx := ctx w; engine := engine w;
     playerRef := playerRef w; room := room w |}.

Definition withNow (t : Z) (w : World) : World :=
  {| now := t; timers := timers w; ctx := ctx w; engine := engine w;
     playerRef := playerRef w; room := room w |}.

Definition withEngine (e : Engine) (w : World) : World :=
  {| now := now w; timers := timers w; ctx := ctx w; engine := e;
     playerRef := playerRef w; room := room w |}.

Definition withPlayer (p : option VideoPlayer.Player) (w : World) : World :=
  {| now := now w; timers := timers w; ctx := ctx w; engine := engine w;
     playerRef := p; room := room w |}.

Definition withRoom (r : Room) (w : World) : World :=
  {| now := now w; timers := timers w; ctx := ctx w; engine := engine w;
     playerRef := playerRef w; room := r |}.

Definition setPeerOnline (b : bool) (r : Room) : Room :=
  {| peerOnline := b; peerName := peerName r;
     peerBuffering := peerBuffering r; bufferNotice := bufferNotice r;
     chatOpen := chatOpen r; peerChatOpen := peerChatOpen r;
     messages := messages r; notification := notification r;
     hashWarning := hashWarning r;
     localBufferingRef := localBufferingRef r;
     peerBufferingRef := peerBufferingRef r |}.

Definition setPeerName (s : string) (r : Room) : Room :=
  {| peerOnline := peerOnline r; peerName := s;
     peerBuffering := peerBuffering r; bufferNotice := bufferNotice r;
     chatOpen := chatOpen r; peerChatOpen := peerChatOpen r;
     messages := messages r; notification := notification r;
     hashWarning := hashWarning r;
     localBufferingRef := localBufferingRef r;
     peerBufferingRef := peerBufferingRef r |}.

Definition setPeerBuffering (b : bool) (r : Room) : Room :=
  {| peerOnline := peerOnline r; peerName := peerName r;
     peerBuffering := b; bufferNotice := bufferNotice r;
     chatOpen := chatOpen r; peerChatOpen := peerChatOpen r;
     messages := messages r; notification := notification r;
     hashWarning := hashWarning r;
     localBufferingRef := localBufferingRef r;
     peerBufferingRef := peerBufferingRef r |}.

Definition setBufferNotice (s : string) (r : Room) : Room :=
  {| peerOnline := peerOnline r; peerName := peerName r;
     peerBuffering := peerBuffering r; bufferNotice := s;
     chatOpen := chatOpen r; peerChatOpen := peerChatOpen r;
     messages := messages r; notification := notification r;
     hashWarning := hashWarning r;
     localBufferingRef := localBufferingRef r;
     peerBufferingRef := peerBufferingRef r |}.

Definition setChatOpen (b : bool) (r : Room) : Room :=
  {| peerOnline := peerOnline r; peerName := peerName r;
     peerBuffering := peerBuffering r; bufferNotice := bufferNotice r;
     chatOpen := b; peerChatOpen := peerChatOpen r;
     messages := messages r; notification := notification r;
     hashWarning := hashWarning r;
     localBufferingRef := localBufferingRef r;
     peerBufferingRef := peerBufferingRef r |}.

Definition setPeerChatOpen (b : option bool) (r : Room) : Room :=
  {| peerOnline := peerOnline r; peerName := peerName r;
     peerBuffering := peerBuffering r; bufferNotice := bufferNotice r;
     chatOpen := chatOpen r; peerChatOpen := b;
     messages := messages r; notification := notification r;
     hashWarning := hashWarning r;
     localBufferingRef := localBufferingRef r;
     peerBufferingRef := peerBufferingRef r |}.

Definition setMessages (f : list ChatMessage -> list ChatMessage) (r : Room)
  : Room :=
  {| peerOnline := peerOnline r; peerName := peerName r;
     peerBuffering := peerBuffering r; bufferNotice := bufferNotice r;
     chatOpen := chatOpen r; peerChatOpen := peerChatOpen r;
     messages := f (messages r); notification := notification r;
     hashWarning := hashWarning r;
     localBufferingRef := localBufferingRef r;
     peerBufferingRef := peerBufferingRef r |}.

Definition setNotification (s : string) (r : Room) : Room :=
  {| peerOnline := peerOnline r; peerName := peerName r;
     peerBuffering := peerBuffering r; bufferNotice := bufferNotice r;
     chatOpen := chatOpen r; peerChatOpen := peerChatOpen r;
     messages := messages r; notification := s;
     hashWarning := hashWarning r;
     localBufferingRef := localBufferingRef r;
     peerBufferingRef := peerBufferingRef r |}.

Definition setHashWarning (s : string) (r : Room) : Room :=
  {| peerOnline := peerOnline r; peerName := peerName r;
     peerBuffering := peerBuffering r; bufferNotice := bufferNotice r;
     chatOpen := chatOpen r; peerChatOpen := peerChatOpen r;
     messages := messages r; notification := notification r;
     hashWarning := s;
     localBufferingRef := localBufferingRef r;
     peerBufferingRef := peerBufferingRef r |}.

Definition setLocalBufferingRef (b : bool) (r : Room) : Room :=
  {| peerOnline := peerOnline r; peerName := peerName r;
     peerBuffering := peerBuffering r; bufferNotice := bufferNotice r;
     chatOpen := chatOpen r; peerChatOpen := peerChatOpen r;
     messages := messages r; notification := notification r;
     hashWarning := hashWarning r;
     localBufferingRef := b;
     peerBufferingRef := peerBufferingRef r |}.

Definition setPeerBufferingRef (b : bool) (r : Room) : Room :=
  {| peerOnline := peerOnline r; peerName := peerName r;
     peerBuffering := peerBuffering r; bufferNotice := bufferNotice r;
     chatOpen := chatOpen r; peerChatOpen := peerChatOpen r;
     messages := messages r; notification := notification r;
     hashWarning := hashWarning r;
     localBufferingRef := localBufferingRef r;
     peerBufferingRef := b |}.

Definition inRoom (f : Room -> Room) (w : World) : World :=
  withRoom (f (room w)) w.

Definition inEngine (f : Engine -> Engine) (w : World) : World :=
  withEngine (f (engine w)) w.

(** A call [player.m(...)] on the mounted handle; with
    [playerRef.current == null] the optional call does nothing. *)
Definition onPlayer
    (m : Z -> list Timer -> VideoPlayer.Player
         -> list Timer * VideoPlayer.Player)
    (w : World) : World :=
  match playerRef w with
  | Some p =>
      let '(q, p') := m (now w) (timers w) p in
      withPlayer (Some p') (withTimers q w)
  | None => w
  end.

(** The call [player.seekTo(time)] on the mounted handle, with the way it
    completes. *)
Definition seekPlayer (time : float) (w : World) : Completion * World :=
  match playerRef w with
  | Some p =>
      let '(c, (q, p')) := VideoPlayer.seekTo time (now w) (timers w) p in
      (c, withPlayer (Some p') (withTimers q w))
  | None => (normal, w)
  end.

(** The statements after a call in a handler: they run when the call
    completed normally; an exception ends the handler where it was thrown
    (no handler has a [try]). *)
Definition andThen (r : Completion * World) (k : World -> World) : World :=
  match r with
  | (normal, w) => k w
  | (typeError, w) => w
  end.

(** [roomId || selectedVideo?.id || 'default'] *)
Definition orElse (a : option string) (b : string) : string :=
  match a with
  | Some s => if truthyString s then s else b
  | None => b
  end.

Definition effectiveRoomId (c : AppContext) : string :=
  orElse (roomId c) (orElse (option_map vf_id (selectedVideo c)) "default").

(** [mode === 'local' && localFile?.hash]: the local file when the guard
    holds. *)
Definition localHashed (c : AppContext) : option LocalFile :=
  match mode c, localFile c with
  | Some local, Some f => if truthyString (lf_hash f) then Some f else None
  | _, _ => None
  end.

Definition dquote : string := String (Ascii.ascii_of_nat 34) EmptyString.

(** [showNotification], lines 145-148. *)
Definition showNotification (msg : string) (w : World) : World :=
  withTimers (setTimeout (now w) 4000 resetNotification (timers w))
    (inRoom (setNotification msg) w).

(** *** Sync engine callbacks, lines 152-246 *)

Definition handlePlaybackState (event : PlaybackStateEvent) (w : World)
  : World :=
  match playerRef w with
  | None => w
  | Some _ =>
      match ps_state event with
      | playing =>
          andThen (seekPlayer (ps_time event) w)
            (onPlayer VideoPlayer.play)
      | paused =>
          snd (seekPlayer (ps_time event) (onPlayer VideoPlayer.pause w))
      | seeked => snd (seekPlayer (ps_time event) w)
      end
  end.

Definition handleBufferState (event : BufferStateEvent) (w : World)
  : World :=
  let w1 := inRoom (setPeerBufferingRef (bs_isBuffering event)) w in
  let w2 := inRoom (setPeerBuffering (bs_isBuffering event)) w1 in
  if bs_isBuffering event then
    let w3 :=
      inRoom (setBufferNotice
                ("Waiting for " ++ bs_sender event ++ "…")%string) w2 in
    onPlayer VideoPlayer.pause w3
  else
    let w3 := inRoom (setBufferNotice "") w2 in
    if negb (localBufferingRef (room w3))
    then onPlayer VideoPlayer.play w3
    else w3.

(** [Math.abs(localTime - event.time) * 1000] *)
Definition driftMs (localTime remoteTime : float) : float :=
  PrimFloat.mul (PrimFloat.abs (PrimFloat.sub localTime remoteTime)) 1000.

(** Reads on the handle; the handlers make them after their null check. *)
Definition playerTime (w : World) : float :=
  match playerRef w with
  | Some p => VideoPlayer.getCurrentTime p
  | None => PrimFloat.zero
  end.

Definition playerIsPlaying (w : World) : bool :=
  match playerRef w with
  | Some p => VideoPlayer.isPlaying p
  | None => false
  end.

(** Lines 193-198 of [handleTimeSync]: what follows the drift
    correction. *)
Definition matchPeerState (event : TimeSyncEvent) (w1 : World) : World :=
  let localPlaying := playerIsPlaying w1 in
  match ts_state event with
  | hb_playing =>
      if negb localPlaying && negb (peerBufferingRef (room w1))
         && negb (localBufferingRef (room w1))
      then onPlayer VideoPlayer.play w1
      else w1
  | hb_paused =>
      if localPlaying then onPlayer VideoPlayer.pause w1 else w1
  end.

Definition handleTimeSync (event : TimeSyncEvent) (w : World) : World :=
  match playerRef w with
  | None => w
  | Some _ =>
      let localTime := playerTime w in
      let drift := driftMs localTime (ts_time event) in
      andThen
        (if PrimFloat.ltb 500 drift
         then seekPlayer (ts_time event) w
         else (normal, w))
        (matchPeerState event)
  end.

Definition handleChatMessage (event : ChatMessageEvent) (w : World)
  : World :=
  inRoom (setMessages (fun prev =>
    prev ++ [{| text := cm_text event; msg_sender := cm_sender event;
                timestamp := cm_timestamp event |}])) w.

Definition handleChatUiState (event : ChatUiStateEvent) (w : World)
  : World :=
  inRoom (setPeerChatOpen (Some (cu_isOpen event))) w.

Definition handleRequestState (_event : RequestStateEvent) (w : World)
  : World :=
  match playerRef w with
  | None => w
  | Some _ =>
      let time := playerTime w in
      let playing_ := playerIsPlaying w in
      let w1 :=
        inEngine (emitPlaybackState (identity (ctx w)) (now w)
                    (if playing_ then playing else paused) time) w in
      match localHashed (ctx w1) with
      | Some f =>
          inEngine (emitFileHash (identity (ctx w1))
                      (lf_hash f) (lf_name f)) w1
      | None => w1
      end
  end.

Definition mismatchWarning (event : FileHashEvent) : string :=
  ("⚠️ File mismatch! " ++ fh_sender event ++ " has " ++ dquote
     ++ fh_fileName event ++ dquote
     ++ " but your file hash differs. "
     ++ "You may be watching different versions.")%string.

Definition verifiedNotice (event : FileHashEvent) : string :=
  ("✅ File verified — same file as " ++ fh_sender event)%string.

Definition handleFileHash (event : FileHashEvent) (w : World) : World :=
  match localHashed (ctx w) with
  | Some f =>
      if negb (String.eqb (fh_hash event) (lf_hash f)) then
        inRoom (setHashWarning (mismatchWarning event)) w
      else
        showNotification (verifiedNotice event)
          (inRoom (setHashWarning "") w)
  | None => w
  end.

Definition handlePresenceChange (state : PresenceState) (w : World)
  : World :=
  let w1 := inRoom (setPeerOnline (pr_online state)) w in
  let w2 := inRoom (setPeerName (pr_identity state)) w1 in
  if pr_online state
  then showNotification (pr_identity state ++ " joined the room")%string w2
  else showNotification (pr_identity state ++ " left the room")%string w2.

(** The options object passed to [useSyncEngine], lines 249-260. *)
Definition callbacks : Callbacks World :=
  {| onPlaybackState := Some handlePlaybackState;
     onBufferState := Some handleBufferState;
     onTimeSync := Some handleTimeSync;
     onChatMessage := Some handleChatMessage;
     onChatUiState := Some handleChatUiState;
     onRequestState := Some handleRequestState;
     onFileHash := Some handleFileHash;
     onPresenceChange := Some handlePresenceChange |}.

(** *** Player event handlers, lines 315-338 *)

Definition handlePlay (time : float) (w : World) : World :=
  inEngine (emitPlaybackState (identity (ctx w)) (now w) playing time) w.

Definition handlePause (time : float) (w : World) : World :=
  inEngine (emitPlaybackState (identity (ctx w)) (now w) paused time) w.

Definition handleSeeked (time : float) (w : World) : World :=
  inEngine (emitPlaybackState (identity (ctx w)) (now w) seeked time) w.

Definition handleBufferingStart (w : World) : World :=
  let w1 := inRoom (setLocalBufferingRef true) w in
  inEngine (emitBufferState (identity (ctx w1)) (now w1) true) w1.

Definition handleBufferingEnd (w : World) : World :=
  let w1 := inRoom (setLocalBufferingRef false) w in
  inEngine (emitBufferState (identity (ctx w1)) (now w1) false) w1.

(** The props given to [<VideoPlayer>], lines 427-435. *)
Definition props : VideoPlayer.Props World :=
  {| VideoPlayer.onPlay := Some handlePlay;
     VideoPlayer.onPause := Some handlePause;
     VideoPlayer.onSeeked := Some handleSeeked;
     VideoPlayer.onBufferingStart := Some handleBufferingStart;
     VideoPlayer.onBufferingEnd := Some handleBufferingEnd |}.

(** *** Chat handlers, lines 342-357 *)

(** [handleSendMessage], lines 342-351.  The clock is read twice: by
    [emitChatMessage] for the event's [timestamp], and again for the local
    entry once [channel.send] has returned; [elapsed] is how far the clock
    has moved in between (0 when both readings fall in the same
    millisecond). *)
Definition handleSendMessage (txt : string) (elapsed : Z) (w : World)
  : World :=
  let w1 := inEngine (emitChatMessage (identity (ctx w)) (now w) txt) w in
  let w2 := withNow (now w1 + Z.max 0 elapsed) w1 in
  inRoom (setMessages (fun prev =>
    prev ++ [{| text := txt;
                msg_sender := match identity (ctx w2) with
                              | Some id => id
                              | None => ""
                              end;
                timestamp := now w2 |}])) w2.

Definition handleChatToggle (w : World) : World :=
  let newState := negb (chatOpen (room w)) in
  let w1 := inRoom (setChatOpen newState) w in
  inEngine (emitChatUiState (identity (ctx w1)) newState) w1.

(** *** Effects *)

(** The engine's subscription effect, run for this room. *)
Definition subscribe (w : World) : World :=
  inEngine (subscriptionEffect (effectiveRoomId (ctx w)) (identity (ctx w)))
    w.

(** Lines 289-296, run when [syncEngine.connected] changes. *)
Definition connectedEffect (w : World) : World :=
  if connected (engine w) then
    match localHashed (ctx w) with
    | Some f =>
        inEngine (requestCurrentState (identity (ctx w)))
          (inEngine (emitFileHash (identity (ctx w)) (lf_hash f) (lf_name f))
             w)
    | None =>
        match mode (ctx w) with
        | Some cloud => inEngine (requestCurrentState (identity (ctx w))) w
        | _ => w
        end
    end
  else w.

(** One tick of the heartbeat interval, lines 300-308. *)
Definition heartbeat (w : World) : World :=
  match playerRef w with
  | None => w
  | Some _ =>
      let time := playerTime w in
      if playerIsPlaying w
      then inEngine (emitTimeSync (identity (ctx w)) (now w) time hb_playing)
             w
      else w
  end.

(** *** The page as a transition system *)

(** What the broadcast listener does for this component.  The listener
    exists while the channel does. *)
Definition receive (payload : option SyncEvent) (w : World) : World :=
  match channelRef (engine w), identity (ctx w) with
  | Some _, Some id => onBroadcast id callbacks payload w
  | _, _ => w
  end.

Definition presence (online : bool) (key : string) (w : World) : World :=
  match channelRef (engine w), identity (ctx w) with
  | Some _, Some id => onPresence id callbacks online key w
  | _, _ => w
  end.

(** The transport calls the status callback of the room's subscription:
    the one passed to the most recent [channel.subscribe].  The effect of
    lines 289-296 follows when [connected] has changed to [true]. *)
Definition subscribeStatus (status : string) (w : World) : World :=
  match lastChannel (wire (engine w)) with
  | Some channel =>
      let w1 := inEngine (onSubscribeStatus channel status) w in
      if negb (connected (engine w)) && connected (engine w1)
      then connectedEffect w1
      else w1
  | None => w
  end.

(** A DOM event of the video element reaches the component's listeners. *)
Definition mediaEvent (ev : VideoPlayer.MediaEvent) (w : World) : World :=
  match playerRef w with
  | Some p =>
      match VideoPlayer.videoRef p with
      | Some video =>
          VideoPlayer.listener props (VideoPlayer.suppressEventsRef p) video
            ev w
      | None => w
      end
  | None => w
  end.

Definition runTask (k : Task) (w : World) : World :=
  match k with
  | resetSuppressEvents =>
      withPlayer (option_map VideoPlayer.resetSuppress (playerRef w)) w
  | resetNotification => inRoom (setNotification "") w
  end.

(** Run, in queue order, the timers whose deadline is not after [t]. *)
Fixpoint fire (t : Z) (q : list Timer) (w : World) : World :=
  match q with
  | [] => withTimers [] w
  | tm :: q' =>
      if due tm <=? t then fire t q' (runTask (task tm) w)
      else withTimers q w
  end.

(** The clock moves on by [dt] milliseconds. *)
Definition advance (dt : Z) (w : World) : World :=
  let t := now w + Z.max 0 dt in
  fire t (timers w) (withNow t w).

(** The Dismiss button of the mismatch banner, line 401. *)
Definition dismissHashWarning (w : World) : World :=
  inRoom (setHashWarning "") w.

(** The element's playback position moves (playback progress, or the
    user dragging the seek bar of the player's own controls). *)
Definition videoTime (time : Finite) (w : World) : World :=
  match playerRef w with
  | Some p =>
      withPlayer
        (Some {| VideoPlayer.videoRef :=
                   option_map (VideoPlayer.video_setCurrentTime time)
                     (VideoPlayer.videoRef p);
                 VideoPlayer.suppressEventsRef :=
                   VideoPlayer.suppressEventsRef p;
                 VideoPlayer.calls := VideoPlayer.calls p |}) w
  | None => w
  end.

Inductive Action : Type :=
| Subscribe
| SubscribeStatus (status : string)
| Receive (payload : option SyncEvent)
| Presence (online : bool) (key : string)
| Advance (dt : Z)
| Media (ev : VideoPlayer.MediaEvent)
| VideoTime (time : Finite)
| Heartbeat
| SendMessage (txt : string) (elapsed : Z)
| ChatToggle
| DismissHashWarning.

Definition step (a : Action) (w : World) : World :=
  match a with
  | Subscribe => subscribe w
  | SubscribeStatus status => subscribeStatus status w
  | Receive payload => receive payload w
  | Presence online key => presence online key w
  | Advance dt => advance dt w
  | Media ev => mediaEvent ev w
  | VideoTime time => videoTime time w
  | Heartbeat => heartbeat w
  | SendMessage txt elapsed => handleSendMessage txt elapsed w
  | ChatToggle => handleChatToggle w
  | DismissHashWarning => dismissHashWarning w
  end.

Definition run (acts : list Action) (w : World) : World :=
  fold_left (fun w a => step a w) acts w.

(** *** Observations *)

(** The calls made so far on the player handle. *)
Definition playerCalls (w : World) : list VideoPlayer.PlayerCall :=
  match playerRef w with
  | Some p => VideoPlayer.calls p
  | None => []
  end.

(** The calls a transition from [w] to [w'] added. *)
Definition issued (w w' : World) : list VideoPlayer.PlayerCall :=
  skipn (length (playerCalls w)) (playerCalls w').

(** The events a transition from [w] to [w'] put on the wire. *)
Definition sentOf (c : TransportCall) : list SyncEvent :=
  match c with
  | t_send _ payload => [payload]
  | _ => []
  end.

Definition emitted (w w' : World) : list SyncEvent :=
  flat_map sentOf (skipn (length (wire (engine w))) (wire (engine w'))).

(** What decides whether the room hears the channel: the channel reference
    and the context. *)
Definition guards (w : World) : option RealtimeChannel * AppContext :=
  (channelRef (engine w), ctx w).

(** The element as it stands, when there is one. *)
Definition videoState (w : World) : option VideoPlayer.HTMLVideoElement :=
  match playerRef w with
  | Some p => VideoPlayer.videoRef p
  | None => None
  end.

(** Whether [player.seekTo(time)] throws: there is an element, and [time]
    is not a finite number. *)
Definition seekThrows (time : float) (w : World) : bool :=
  match videoState w with
  | Some _ => negb (PrimFloat.is_finite time)
  | None => false
  end.

(** The element's playback position, when there is an element. *)
Definition videoPosition (w : World) : option float :=
  match playerRef w with
  | Some p =>
      option_map (fun v => num (VideoPlayer.currentTime v))
        (VideoPlayer.videoRef p)
  | None => None
  end.

End WatchRoom.

(* ================================================================== *)
(** ** src/components/LocalFileSelector.tsx: the room key of local mode *)
(* ================================================================== *)

Module LocalFileSelector.

(** A JavaScript string is a sequence of UTF-16 code units. *)
Definition JSString : Type := list N.

Local Open Scope N_scope.

Definition between (lo hi c : N) : bool := (lo <=? c) && (c <=? hi).

(** The code units [String.prototype.trim] strips: ECMAScript's WhiteSpace
    and LineTerminator. *)
Definition isWhiteSpace (c : N) : bool :=
  between 9 13 c || (c =? 32) || (c =? 160) || (c =? 0x1680)
  || between 0x2000 0x200A c || (c =? 0x2028) || (c =? 0x2029)
  || (c =? 0x202F) || (c =? 0x205F) || (c =? 0x3000) || (c =? 0xFEFF).

Fixpoint trimStart (s : JSString) : JSString :=
  match s with
  | [] => []
  | c :: s' => if isWhiteSpace c then trimStart s' else s
  end.

Fixpoint trimEnd (s : JSString) : JSString :=
  match s with
  | [] => []
  | c :: s' =>
      match trimEnd s' with
      | [] => if isWhiteSpace c then [] else [c]
      | t => c :: t
      end
  end.

Definition trim (s : JSString) : JSString := trimEnd (trimStart s).

(** The upper-case letters of Latin-1: A-Z, and U+00C0-U+00DE without the
    multiplication sign U+00D7. *)
Definition isUpperLatin1 (c : N) : bool :=
  between 65 90 c || (between 192 222 c && negb (c =? 215)).

(** [String.prototype.toLowerCase] follows the Unicode case tables.  Every
    character whose lower-case form lies within Latin-1 is mapped as those
    tables map it (the Latin-1 capitals, and U+0178, U+1E9E, U+212A and
    U+212B from outside Latin-1).  A character whose lower-case form has a
    code unit above 255 is left as it is here: [btoa] rejects it in either
    form, so [roomId] below does not depend on the rest of the table. *)
Definition lowerUnit (c : N) : N :=
  if isUpperLatin1 c then c + 32
  else if c =? 0x178 then 0xFF
  else if c =? 0x1E9E then 0xDF
  else if c =? 0x212A then 0x6B
  else if c =? 0x212B then 0xE5
  else c.

Definition toLowerCase (s : JSString) : JSString := map lowerUnit s.

(** *** [btoa]

    The browser's [btoa]: it throws ([None]) when a code unit is above 255,
    and otherwise returns the padded base64 text of the code units taken as
    bytes. *)
Definition b64char (n : N) : ascii :=
  if n <? 26 then ascii_of_N (65 + n)
  else if n <? 52 then ascii_of_N (97 + (n - 26))
  else if n <? 62 then ascii_of_N (48 + (n - 52))
  else if n =? 62 then "+"%char
  else "/"%char.

Definition sextet1 (a : N) : N := N.shiftr a 2.
Definition sextet2 (a b : N) : N :=
  N.lor (N.shiftl (N.land a 3) 4) (N.shiftr b 4).
Definition sextet3 (b c : N) : N :=
  N.lor (N.shiftl (N.land b 15) 2) (N.shiftr c 6).
Definition sextet4 (c : N) : N := N.land c 63.

Fixpoint base64 (bytes : list N) : string :=
  match bytes with
  | [] => EmptyString
  | [a] =>
      String (b64char (sextet1 a))
        (String (b64char (sextet2 a 0)) "==")
  | [a; b] =>
      String (b64char (sextet1 a))
        (String (b64char (sextet2 a b))
           (String (b64char (sextet3 b 0)) "="))
  | a :: b :: c :: rest =>
      String (b64char (sextet1 a))
        (String (b64char (sextet2 a b))
           (String (b64char (sextet3 b c))
              (String (b64char (sextet4 c)) (base64 rest))))
  end.

Definition btoa (s : JSString) : option string :=
  if forallb (fun c => c <=? 255) s then Some (base64 s) else None.

(** [.replace(/[^a-zA-Z0-9]/g, '')] *)
Definition isAlnum (c : ascii) : bool :=
  let n := N_of_ascii c in
  between 97 122 n || between 65 90 n || between 48 57 n.

Fixpoint stripNonAlnum (s : string) : string :=
  match s with
  | EmptyString => EmptyString
  | String c s' =>
      if isAlnum c then String c (stripNonAlnum s') else stripNonAlnum s'
  end.

(** Line 69:
    [btoa(roomName.trim().toLowerCase()).replace(/[^a-zA-Z0-9]/g, '')];
    [None] when [btoa] throws. *)
Definition roomId (roomName : JSString) : option string :=
  option_map stripNonAlnum (btoa (toLowerCase (trim roomName))).

(** The file the user picked.  [digest] is what [computeFileHash] resolves
    to ([None] when it rejects) and [objectUrl] what
    [URL.createObjectURL] returns; both are the platform's. *)
Record PickedFile : Type := {
  pf_name : string;
  pf_size : Z;
  pf_objectUrl : string;
  pf_digest : option string
}.

Inductive Outcome : Type :=
| setError (msg : string)
| setLocalFile (file : WatchRoom.LocalFile) (rid : string).

(** [handleStartWatching], lines 52-85. *)
Definition handleStartWatching (fileRef : option PickedFile)
    (roomName : JSString) : Outcome :=
  match fileRef with
  | None => setError "Please select a video file first."
  | Some file =>
      match trim roomName with
      | [] =>
          setError
            "Please enter a room name so your partner can join the same room."
      | _ :: _ =>
          match pf_digest file, roomId roomName with
          | Some hash, Some rid =>
              setLocalFile
                {| WatchRoom.lf_name := pf_name file;
                   WatchRoom.lf_size := pf_size file;
                   WatchRoom.lf_objectUrl := pf_objectUrl file;
                   WatchRoom.lf_hash := hash |}
                rid
          | _, _ => setError "Failed to process the file."
          end
      end
  end.

(** The context the watch room runs in after [setLocalFile(file, rid)] of
    the app provider: local mode, no cloud video selected. *)
Definition roomContext (identity : Identity) (file : WatchRoom.LocalFile)
    (rid : string) : WatchRoom.AppContext :=
  {| WatchRoom.identity := identity;
     WatchRoom.mode := Some WatchRoom.local;
     WatchRoom.localFile := Some file;
     WatchRoom.selectedVideo := None;
     WatchRoom.roomId := Some rid |}.

(** The channel the watch room of that context subscribes to. *)
Definition channelOf (c : WatchRoom.AppContext) : string :=
  SyncEngine.channelNameFor (WatchRoom.effectiveRoomId c).

(** *** Names that differ only in case or in padding *)

(** Two code units that are equal or are the two cases of one Latin-1
    letter. *)
Definition sameLetter (a b : N) : bool :=
  (a =? b) || (isUpperLatin1 a && (b =? a + 32))
  || (isUpperLatin1 b && (a =? b + 32)).

Definition allWhiteSpace (s : JSString) : Prop :=
  Forall (fun c => isWhiteSpace c = true) s.

(** [n2] is [n1] with some letters in the other case and with other white
    space around it. *)
Definition sameUpToCaseAndPadding (n1 n2 : JSString) : Prop :=
  exists l1 c1 r1 l2 c2 r2,
    n1 = l1 ++ c1 ++ r1 /\ n2 = l2 ++ c2 ++ r2 /\
    allWhiteSpace l1 /\ allWhiteSpace r1 /\
    allWhiteSpace l2 /\ allWhiteSpace r2 /\
    Forall2 (fun a b => sameLetter a b = true) c1 c2.

(** A string literal as code units (ASCII text only). *)
Definition units (s : string) : JSString :=
  map N_of_ascii (list_ascii_of_string s).

End LocalFileSelector.

(* ================================================================== *)
(** ** Scenarios: concrete rooms, built by running the code *)
(* ================================================================== *)

Module Scenario.
Import SyncEngine VideoPlayer WatchRoom.

(** Positions of the element used below. *)
Definition t10 : Finite := {| num := 10; num_finite := eq_refl |}.
Definition t12 : Finite := {| num := 12; num_finite := eq_refl |}.
Definition t40 : Finite := {| num := 40; num_finite := eq_refl |}.

(** A mounted player, paused at 40 s. *)
Definition pausedAt40 : Player :=
  {| videoRef := Some {| currentTime := t40; paused := true |};
     suppressEventsRef := false;
     calls := [] |}.

Definition cloudContext : AppContext :=
  {| identity := Some "Manika";
     mode := Some cloud;
     localFile := None;
     selectedVideo := Some {| vf_id := "v1"; vf_name := "movie.mp4" |};
     roomId := Some "v1" |}.

Definition localContext : AppContext :=
  {| identity := Some "Manika";
     mode := Some local;
     localFile :=
       Some {| lf_name := "movie.mp4"; lf_size := 1024;
               lf_objectUrl := "blob:1"; lf_hash := "def456" |};
     selectedVideo := None;
     roomId := Some "bW92aWU" |}.

Definition fresh (c : AppContext) (p : option Player) : World :=
  {| now := 0; timers := []; ctx := c; engine := SyncEngine.initial;
     playerRef := p; room := initialRoom |}.

(** Manika's room once the channel reports SUBSCRIBED. *)
Definition joined (c : AppContext) (p : option Player) : World :=
  run [Subscribe; SubscribeStatus "SUBSCRIBED"] (fresh c p).

Definition cloudRoom : World := joined cloudContext (Some pausedAt40).
Definition localRoom : World := joined localContext (Some pausedAt40).

(** Events from the peer. *)
Definition peerPlayingAt10 : PlaybackStateEvent :=
  {| ps_state := playing; ps_time := 10; ps_sender := "Aditya";
     ps_timestamp := 1000 |}.

(** A payload whose [time] is the string "1e999": the number it converts
    to is the infinity. *)
Definition peerPlayingAtInfinity : PlaybackStateEvent :=
  {| ps_state := playing; ps_time := infinity; ps_sender := "Aditya";
     ps_timestamp := 1000 |}.

Definition peerSeekedTo42 : PlaybackStateEvent :=
  {| ps_state := seeked; ps_time := 42; ps_sender := "Aditya";
     ps_timestamp := 1150 |}.

Definition peerStalls : BufferStateEvent :=
  {| bs_isBuffering := true; bs_sender := "Aditya"; bs_timestamp := 1000 |}.

Definition peerResumes : BufferStateEvent :=
  {| bs_isBuffering := false; bs_sender := "Aditya"; bs_timestamp := 2000 |}.

(** 42.3 is not a binary64 value; this is the double JavaScript reads it
    as. *)
Definition t42_3 : float := 0x1.5266666666666p+5%float.

Definition peerHeartbeat : TimeSyncEvent :=
  {| ts_time := t42_3; ts_state := hb_playing; ts_sender := "Aditya";
     ts_timestamp := 3000 |}.


Definition peerSaysHi : ChatMessageEvent :=
  {| cm_text := "hi"; cm_sender := "Aditya"; cm_timestamp := 1000 |}.

Definition peerAsks : RequestStateEvent := {| rs_sender := "Aditya" |}.

Definition peerHash (h : string) : FileHashEvent :=
  {| fh_hash := h; fh_fileName := "movie.mp4"; fh_sender := "Aditya" |}.

End Scenario.

(* ================================================================== *)
(** ** The protocol in the specification's words

    Definitions that follow the specification, to be compared with what the
    code above does. *)
(* ================================================================== *)

Module Protocol.
Import SyncEngine WatchRoom.

(** Section 4.2: playing, seek then play; paused, pause then seek; seeked,
    seek only. *)
Definition playbackCommands (event : PlaybackStateEvent)
  : list VideoPlayer.PlayerCall :=
  match ps_state event with
  | playing => [VideoPlayer.call_seekTo (ps_time event); VideoPlayer.call_play]
  | paused => [VideoPlayer.call_pause; VideoPlayer.call_seekTo (ps_time event)]
  | seeked => [VideoPlayer.call_seekTo (ps_time event)]
  end.

(** The times of the seeks among some calls. *)
Definition seeks (cs : list VideoPlayer.PlayerCall) : list float :=
  flat_map (fun c => match c with
                     | VideoPlayer.call_seekTo t => [t]
                     | _ => []
                     end) cs.

Definition isPlayCall (c : VideoPlayer.PlayerCall) : bool :=
  match c with
  | VideoPlayer.call_play => true
  | _ => false
  end.



(** Section 5: the window for which a programmatic command is to keep the
    player's echo callbacks quiet, as the handle sets it. *)
Definition suppressionWindow (c : VideoPlayer.PlayerCall) : Z :=
  match c with
  | VideoPlayer.call_play => 200
  | VideoPlayer.call_pause => 200
  | VideoPlayer.call_seekTo _ => 300
  end.

(** The handle method a call stands for. *)
Definition perform (c : VideoPlayer.PlayerCall) (w : World) : World :=
  match c with
  | VideoPlayer.call_play => onPlayer VideoPlayer.play w
  | VideoPlayer.call_pause => onPlayer VideoPlayer.pause w
  | VideoPlayer.call_seekTo t => snd (seekPlayer t w)
  end.

(** The three DOM events whose callbacks the flag guards. *)
Definition isEcho (ev : VideoPlayer.MediaEvent) : bool :=
  match ev with
  | VideoPlayer.ev_play | VideoPlayer.ev_pause | VideoPlayer.ev_seeked => true
  | _ => false
  end.

(** No reset of the flag is pending before clock reading [t]. *)
Definition noResetBefore (t : Z) (q : list EventLoop.Timer) : Prop :=
  Forall (fun tm => EventLoop.task tm = EventLoop.resetSuppressEvents ->
                    t <= EventLoop.due tm) q.

(** The two actions that may change the mismatch banner: its Dismiss button,
    and a further [file_hash] event. *)
Definition touchesHashWarning (a : Action) : bool :=
  match a with
  | DismissHashWarning => true
  | Receive (Some (file_hash _)) => true
  | _ => false
  end.

End Protocol.

(* ================================================================== *)
(** ** Reading the trace of transport calls *)
(* ================================================================== *)

Module Wire.
Import SyncEngine.

(** The channel that is subscribed and not yet unsubscribed after some
    calls, starting from [cur]. *)
Definition liveAfter (cur : option string) (calls : list TransportCall)
  : option string :=
  fold_left (fun cur c =>
               match c with
               | t_subscribe name => Some name
               | t_unsubscribe _ => None
               | _ => cur
               end) calls cur.

Definition isLive (cur : option string) (name : string) : bool :=
  match cur with
  | Some n => String.eqb n name
  | None => false
  end.

Definition noneLive (cur : option string) : bool :=
  match cur with
  | Some _ => false
  | None => true
  end.

(** A trace is orderly when a channel is created and subscribed only while
    none is live, and when every send and unsubscribe names the channel
    that is live at that point.  (A track is made by a status callback,
    which can come late: see [known].) *)
Fixpoint orderly (cur : option string) (calls : list TransportCall) : bool :=
  match calls with
  | [] => true
  | c :: rest =>
      match c with
      | t_channel _ _ => noneLive cur && orderly cur rest
      | t_subscribe name => noneLive cur && orderly (Some name) rest
      | t_track _ _ => orderly cur rest
      | t_send name _ => isLive cur name && orderly cur rest
      | t_unsubscribe name => isLive cur name && orderly None rest
      end
  end.

(** Every track names a channel that was created, with that presence key,
    earlier in the trace; [before] are the calls made before [calls]. *)
Fixpoint known (before calls : list TransportCall) : bool :=
  match calls with
  | [] => true
  | c :: rest =>
      match c with
      | t_track name key =>
          registered {| channelName := name; presenceKey := key |} before
      | _ => true
      end && known (before ++ [c]) rest
  end.

(** The three facts the hook keeps about its trace. *)
Definition tidy (s : Engine) : Prop :=
  orderly None (wire s) = true /\
  liveAfter None (wire s) = option_map channelName (channelRef s) /\
  known [] (wire s) = true.

(** An event that is no heartbeat, or a heartbeat that says playing. *)
Definition playingBeat (ev : SyncEvent) : Prop :=
  match ev with
  | time_sync e => ts_state e = hb_playing
  | _ => True
  end.

(** What an emitter call sends is no paused heartbeat. *)
Definition playingCall (c : EmitCall) : Prop :=
  match c with
  | call_emitTimeSync _ state => state = hb_playing
  | _ => True
  end.

(** A transport call that is no send, or the send of an event that carries
    the identity [i], which is then not empty, and is no paused heartbeat. *)
Definition signedBy (i : Identity) (c : TransportCall) : Prop :=
  match c with
  | t_send _ ev =>
      i = Some (sender ev) /\ sender ev <> "" /\ playingBeat ev
  | _ => True
  end.

End Wire.

(* ================================================================== *)
(** ** Two rooms on one channel *)
(* ================================================================== *)

Module Session.
Import SyncEngine WatchRoom.

(** The player's own controls act on the element directly and leave the
    suppression flag alone. *)
Definition onVideo
    (f : VideoPlayer.HTMLVideoElement -> VideoPlayer.HTMLVideoElement)
    (w : World) : World :=
  match playerRef w with
  | Some p =>
      withPlayer
        (Some {| VideoPlayer.videoRef := option_map f (VideoPlayer.videoRef p);
                 VideoPlayer.suppressEventsRef :=
                   VideoPlayer.suppressEventsRef p;
                 VideoPlayer.calls := VideoPlayer.calls p |}) w
  | None => w
  end.

(** [togglePlay], VideoPlayer.tsx lines 275-283. *)
Definition togglePlay (w : World) : World :=
  onVideo (fun video =>
             if VideoPlayer.paused video
             then VideoPlayer.video_play video
             else VideoPlayer.video_pause video) w.

(** [handleSeek], VideoPlayer.tsx lines 285-289; [value] is what
    [parseFloat(e.target.value)] gave.  The target is the seek bar of
    lines 367-375, a range input, whose value is the decimal form of a
    number between its bounds: a finite number. *)
Definition handleSeek (value : Finite) (w : World) : World :=
  onVideo (VideoPlayer.video_setCurrentTime value) w.

(** The transition a guarded DOM event is reported as, lines 315-328 of the
    watch room. *)
Definition transitionOf (ev : VideoPlayer.MediaEvent) : PlaybackTransition :=
  match ev with
  | VideoPlayer.ev_play => playing
  | VideoPlayer.ev_pause => paused
  | _ => seeked
  end.

(** The transport hands the events one room sent to the listener of the
    other, in order. *)
Definition deliver (events : list SyncEvent) (w : World) : World :=
  fold_left (fun w e => receive (Some e) w) events w.

(** The shortest suppression window among the commands of a
    [playback_state] event. *)
Definition echoWindow (state : PlaybackTransition) : Z :=
  match state with
  | seeked => 300
  | _ => 200
  end.

(** What [handleTimeSync] does about play and pause, lines 193-198. *)
Definition heartbeatPlayPause (state : HeartbeatState) (localPlaying : bool)
    (peerBuffering localBuffering : bool) : list VideoPlayer.PlayerCall :=
  match state with
  | hb_playing =>
      if negb localPlaying && negb peerBuffering && negb localBuffering
      then [VideoPlayer.call_play] else []
  | hb_paused =>
      if localPlaying then [VideoPlayer.call_pause] else []
  end.

(** From [w] to [w'] the context stayed and the trace of transport calls
    only grew, by calls signed with the room's identity. *)
Definition addsSigned (w w' : World) : Prop :=
  ctx w' = ctx w /\
  exists l, wire (engine w') = wire (engine w) ++ l /\
            Forall (Wire.signedBy (identity (ctx w))) l.

(** The event an emitter call builds for the identity [id] at time [now],
    lines 192-277 of the engine. *)
Definition eventOf (id : string) (now : Z) (c : EmitCall) : SyncEvent :=
  match c with
  | call_emitPlaybackState state time =>
      playback_state {| ps_state := state; ps_time := time; ps_sender := id;
                        ps_timestamp := now |}
  | call_emitBufferState b =>
      buffer_state {| bs_isBuffering := b; bs_sender := id;
                      bs_timestamp := now |}
  | call_emitTimeSync time state =>
      time_sync {| ts_time := time; ts_state := state; ts_sender := id;
                   ts_timestamp := now |}
  | call_emitChatMessage text =>
      chat_message {| cm_text := text; cm_sender := id;
                      cm_timestamp := now |}
  | call_emitChatUiState b =>
      chat_ui_state {| cu_isOpen := b; cu_sender := id |}
  | call_requestCurrentState => request_state {| rs_sender := id |}
  | call_emitFileHash hash fileName =>
      file_hash {| fh_hash := hash; fh_fileName := fileName;
                   fh_sender := id |}
  end.

(** What a room says when its channel reports SUBSCRIBED, lines 289-296 of
    the watch room. *)
Definition handshake (c : AppContext) (id : string) : list SyncEvent :=
  match localHashed c with
  | Some f =>
      [file_hash {| fh_hash := lf_hash f; fh_fileName := lf_name f;
                    fh_sender := id |};
       request_state {| rs_sender := id |}]
  | None =>
      match mode c with
      | Some cloud => [request_state {| rs_sender := id |}]
      | _ => []
      end
  end.

(** The [waiting] event, the one that reports a stall. *)
Definition stalls (ev : VideoPlayer.MediaEvent) : bool :=
  match ev with
  | VideoPlayer.ev_waiting => true
  | _ => false
  end.


(** The timer [tm] is queued behind timers that are due no later than it
    is. *)
Definition queuedInTurn (tm : EventLoop.Timer) (q : list EventLoop.Timer)
  : Prop :=
  exists pre post,
    q = pre ++ tm :: post /\
    Forall (fun u => EventLoop.due u <= EventLoop.due tm) pre.

(** Whether the player's suppression flag is set. *)
Definition flagSet (w : World) : bool :=
  match playerRef w with
  | Some p => VideoPlayer.suppressEventsRef p
  | None => false
  end.

Definition isReset (tm : EventLoop.Timer) : bool :=
  match EventLoop.task tm with
  | EventLoop.resetSuppressEvents => true
  | EventLoop.resetNotification => false
  end.

(** A queue whose timers stand in the order of their deadlines. *)
Fixpoint inOrder (q : list EventLoop.Timer) : Prop :=
  match q with
  | [] => True
  | tm :: q' =>
      Forall (fun u => EventLoop.due tm <= EventLoop.due u) q' /\ inOrder q'
  end.

(** The queue is in order, every pending reset of the flag is due within
    300 ms, and while the flag is set a reset is pending. *)
Definition settles (w : World) : Prop :=
  inOrder (timers w) /\
  Forall (fun tm => isReset tm = true -> EventLoop.due tm <= now w + 300)
    (timers w) /\
  (flagSet w = true -> existsb isReset (timers w) = true).

(** An action that is not the arrival of a [playback_state] or [time_sync]
    event whose time is not finite. *)
Definition finiteTimes (a : Action) : bool :=
  match a with
  | Receive (Some (playback_state e)) => PrimFloat.is_finite (ps_time e)
  | Receive (Some (time_sync e)) => PrimFloat.is_finite (ts_time e)
  | _ => true
  end.



Definition entry (sender : string) (now : Z) (txt : string) : ChatMessage :=
  {| text := txt; msg_sender := sender; timestamp := now |}.





End Session.

(* ================================================================== *)
(** ** A second room for the scenarios *)
(* ================================================================== *)

Module Pair.
Import SyncEngine VideoPlayer WatchRoom.

Definition adityaContext : AppContext :=
  {| identity := Some "Aditya";
     mode := Some cloud;
     localFile := None;
     selectedVideo := Some {| vf_id := "v1"; vf_name := "movie.mp4" |};
     roomId := Some "v1" |}.

(** A mounted player, playing at 12 s. *)
Definition playingAt12 : Player :=
  {| videoRef := Some {| currentTime := Scenario.t12; paused := false |};
     suppressEventsRef := false;
     calls := [] |}.

(** The heartbeat of that player at time 0. *)
Definition beatAt12 : TimeSyncEvent :=
  {| ts_time := 12; ts_state := hb_playing; ts_sender := "Aditya";
     ts_timestamp := 0 |}.

Definition adityaLocalContext : AppContext :=
  {| identity := Some "Aditya";
     mode := Some local;
     localFile :=
       Some {| lf_name := "film.mp4"; lf_size := 2048;
               lf_objectUrl := "blob:2"; lf_hash := "abc123" |};
     selectedVideo := None;
     roomId := Some "bW92aWU" |}.

Definition adityaRoom : World :=
  Scenario.joined adityaContext (Some playingAt12).

Definition adityaChannel : RealtimeChannel :=
  {| channelName := "watchroom-v1"; presenceKey := "Aditya" |}.

Definition manikaChannel : RealtimeChannel :=
  {| channelName := "watchroom-v1"; presenceKey := "Manika" |}.

End Pair.

(* ================================================================== *)
(** ** src/components/AppProvider.tsx and the views of src/app/page.tsx *)
(* ================================================================== *)

Module AppProvider.

Inductive AppView : Type :=
| v_password | v_identity | v_modeselect | v_dashboard | v_localfile
| v_watchroom.

(** The two keys the provider keeps in [localStorage]. *)
Record Storage : Type := {
  mnm_password : option string;
  mnm_identity : option string
}.

(** The provider's state: the view, the password, the five values the
    watch room reads, the browser's [localStorage], and the object URLs
    handed to [URL.revokeObjectURL] so far. *)
Record App : Type := {
  view : AppView;
  password : option string;
  context : WatchRoom.AppContext;
  storage : Storage;
  revoked : list string
}.

Definition noContext : WatchRoom.AppContext :=
  {| WatchRoom.identity := None; WatchRoom.mode := None;
     WatchRoom.localFile := None; WatchRoom.selectedVideo := None;
     WatchRoom.roomId := None |}.

(** The initial values of the [useState] calls, lines 585-591. *)
Definition initial (st : Storage) : App :=
  {| view := v_password; password := None; context := noContext;
     storage := st; revoked := [] |}.

Definition withIdentity (id : Identity) (c : WatchRoom.AppContext)
  : WatchRoom.AppContext :=
  {| WatchRoom.identity := id; WatchRoom.mode := WatchRoom.mode c;
     WatchRoom.localFile := WatchRoom.localFile c;
     WatchRoom.selectedVideo := WatchRoom.selectedVideo c;
     WatchRoom.roomId := WatchRoom.roomId c |}.

Definition withMode (m : option WatchRoom.PlaybackMode)
    (c : WatchRoom.AppContext) : WatchRoom.AppContext :=
  {| WatchRoom.identity := WatchRoom.identity c; WatchRoom.mode := m;
     WatchRoom.localFile := WatchRoom.localFile c;
     WatchRoom.selectedVideo := WatchRoom.selectedVideo c;
     WatchRoom.roomId := WatchRoom.roomId c |}.

(** The restore effect, lines 594-607, run on the initial state. *)
Definition mount (st : Storage) : App :=
  match mnm_password st with
  | Some savedPassword =>
      if truthyString savedPassword then
        if truthyIdentity (mnm_identity st) then
          {| view := v_modeselect; password := Some savedPassword;
             context := withIdentity (mnm_identity st) noContext;
             storage := st; revoked := [] |}
        else
          {| view := v_identity; password := Some savedPassword;
             context := noContext; storage := st; revoked := [] |}
      else initial st
  | None => initial st
  end.

(** [setPassword], lines 609-613. *)
Definition setPassword (pw : string) (s : App) : App :=
  {| view := v_identity; password := Some pw; context := context s;
     storage := {| mnm_password := Some pw;
                   mnm_identity := mnm_identity (storage s) |};
     revoked := revoked s |}.

(** [setIdentity], lines 615-619. *)
Definition setIdentity (id : Identity) (s : App) : App :=
  {| view := v_modeselect; password := password s;
     context := withIdentity id (context s);
     storage := if truthyIdentity id
                then {| mnm_password := mnm_password (storage s);
                        mnm_identity := id |}
                else storage s;
     revoked := revoked s |}.

(** [setMode], lines 621-628. *)
Definition setMode (m : option WatchRoom.PlaybackMode) (s : App) : App :=
  {| view := match m with
             | Some WatchRoom.cloud => v_dashboard
             | Some WatchRoom.local => v_localfile
             | None => view s
             end;
     password := password s; context := withMode m (context s);
     storage := storage s; revoked := revoked s |}.

(** [selectVideo], lines 630-634. *)
Definition selectVideo (video : WatchRoom.VideoFile) (s : App) : App :=
  {| view := v_watchroom; password := password s;
     context :=
       {| WatchRoom.identity := WatchRoom.identity (context s);
          WatchRoom.mode := WatchRoom.mode (context s);
          WatchRoom.localFile := WatchRoom.localFile (context s);
          WatchRoom.selectedVideo := Some video;
          WatchRoom.roomId := Some (WatchRoom.vf_id video) |};
     storage := storage s; revoked := revoked s |}.

(** [setLocalFile], lines 636-640. *)
Definition setLocalFile (file : WatchRoom.LocalFile) (rid : string) (s : App)
  : App :=
  {| view := v_watchroom; password := password s;
     context :=
       {| WatchRoom.identity := WatchRoom.identity (context s);
          WatchRoom.mode := WatchRoom.mode (context s);
          WatchRoom.localFile := Some file;
          WatchRoom.selectedVideo := WatchRoom.selectedVideo (context s);
          WatchRoom.roomId := Some rid |};
     storage := storage s; revoked := revoked s |}.

(** [if (localFile?.objectUrl) URL.revokeObjectURL(localFile.objectUrl)] *)
Definition revokeLocalFile (s : App) : list string :=
  match WatchRoom.localFile (context s) with
  | Some f =>
      if truthyString (WatchRoom.lf_objectUrl f)
      then revoked s ++ [WatchRoom.lf_objectUrl f]
      else revoked s
  | None => revoked s
  end.

(** [backToDashboard], lines 642-651. *)
Definition backToDashboard (s : App) : App :=
  {| view := v_modeselect; password := password s;
     context :=
       {| WatchRoom.identity := WatchRoom.identity (context s);
          WatchRoom.mode := WatchRoom.mode (context s);
          WatchRoom.localFile := None;
          WatchRoom.selectedVideo := None;
          WatchRoom.roomId := None |};
     storage := storage s; revoked := revokeLocalFile s |}.

(** [logout], lines 653-666. *)
Definition logout (s : App) : App :=
  {| view := v_password; password := None; context := noContext;
     storage := {| mnm_password := None; mnm_identity := None |};
     revoked := revokeLocalFile s |}.

(** *** What each view lets the user do

    [AppContent] of page.tsx renders one component per view; these are the
    provider callbacks each of them wires to its controls.  Two handlers
    are [async]: [handleSubmit] of the password gate calls [setPassword]
    after the server has answered, and [handleStartWatching] of the local
    file selector calls [setLocalFile] after the hash has been computed.
    While a handler waits, the button that started it is disabled; the rest
    of the page is not, and the provider call is made when the wait ends,
    in whatever view is shown by then. *)

Inductive Who : Type := Aditya | Manika.

Definition nameOf (who : Who) : string :=
  match who with
  | Aditya => "Aditya"
  | Manika => "Manika"
  end.

(** A handler that is waiting, as what it does when the wait ends. *)
Inductive Pending : Type :=
| p_setPassword (pw : string)
| p_start (outcome : LocalFileSelector.Outcome).

(** The end of the wait.  [setError] and the [finally] blocks touch the
    component's own state only. *)
Definition settle (k : Pending) (s : App) : App :=
  match k with
  | p_setPassword pw => setPassword pw s
  | p_start (LocalFileSelector.setLocalFile file rid) => setLocalFile file rid s
  | p_start (LocalFileSelector.setError _) => s
  end.

(** The page: the provider's state, the waiting handler of the component
    that is mounted (its [loading] or [hashing] is set), and the waiting
    handlers of components that were unmounted in the meantime. *)
Record Page : Type := {
  app : App;
  busy : option Pending;
  detached : list Pending
}.

(** A page load: the provider mounts, and nothing waits. *)
Definition load (st : Storage) : Page :=
  {| app := mount st; busy := None; detached := [] |}.

Definition sameView (a b : AppView) : bool :=
  match a, b with
  | v_password, v_password | v_identity, v_identity
  | v_modeselect, v_modeselect | v_dashboard, v_dashboard
  | v_localfile, v_localfile | v_watchroom, v_watchroom => true
  | _, _ => false
  end.

Definition waiting (pg : Page) : list Pending :=
  match busy pg with
  | Some k => [k]
  | None => []
  end.

(** The provider's state becomes [s']: when the view changes, the
    component of the old view is unmounted, and its handler, if one is
    waiting, goes on without it. *)
Definition render (s' : App) (pg : Page) : Page :=
  if sameView (view s') (view (app pg))
  then {| app := s'; busy := busy pg; detached := detached pg |}
  else {| app := s'; busy := None; detached := detached pg ++ waiting pg |}.

(** An [async] handler of the mounted component starts to wait; its button
    is disabled while another one waits. *)
Definition await (k : Pending) (pg : Page) : Page :=
  match busy pg with
  | Some _ => pg
  | None => {| app := app pg; busy := Some k; detached := detached pg |}
  end.

(** Lines 54-61 of the selector: the checks made before the hash is
    asked for. *)
Definition startsHashing (fileRef : option LocalFileSelector.PickedFile)
    (roomName : LocalFileSelector.JSString) : bool :=
  match fileRef, LocalFileSelector.trim roomName with
  | Some _, _ :: _ => true
  | _, _ => false
  end.

Fixpoint without {A : Type} (n : nat) (l : list A) : list A :=
  match n, l with
  | _, [] => []
  | O, _ :: l' => l'
  | S n', x :: l' => x :: without n' l'
  end.

Inductive Click : Type :=
| Unlock (pw : string)
| Pick (who : Who)
| ChooseMode (m : WatchRoom.PlaybackMode)
| LogOut
| Back
| PlayVideo (video : WatchRoom.VideoFile)
| StartWatching (fileRef : option LocalFileSelector.PickedFile)
    (roomName : LocalFileSelector.JSString)
| Settled
| SettledLate (n : nat)
| Reload.

(** [Unlock pw]: the password gate's form is submitted with an input that
    trims to [pw], which the server will accept; the gate drops an input
    that trims to nothing.  [Settled]: the wait of the mounted component's
    handler ends.  [SettledLate n]: the wait of the [n]-th handler of an
    unmounted component ends.  [Reload]: the page is loaded again, with the
    storage as it is. *)
Definition click (c : Click) (pg : Page) : Page :=
  let s := app pg in
  match c with
  | Reload => load (storage s)
  | Unlock pw =>
      match view s with
      | v_password =>
          if truthyString pw then await (p_setPassword pw) pg else pg
      | _ => pg
      end
  | Pick who =>
      match view s with
      | v_identity => render (setIdentity (Some (nameOf who)) s) pg
      | _ => pg
      end
  | ChooseMode m =>
      match view s with
      | v_modeselect => render (setMode (Some m) s) pg
      | _ => pg
      end
  | LogOut =>
      match view s with
      | v_modeselect | v_dashboard => render (logout s) pg
      | _ => pg
      end
  | Back =>
      match view s with
      | v_dashboard | v_localfile | v_watchroom =>
          render (backToDashboard s) pg
      | _ => pg
      end
  | PlayVideo video =>
      match view s with
      | v_dashboard => render (selectVideo video s) pg
      | _ => pg
      end
  | StartWatching fileRef roomName =>
      match view s with
      | v_localfile =>
          if startsHashing fileRef roomName
          then await
                 (p_start
                    (LocalFileSelector.handleStartWatching fileRef roomName))
                 pg
          else pg
      | _ => pg
      end
  | Settled =>
      match busy pg with
      | Some k =>
          render (settle k s)
            {| app := s; busy := None; detached := detached pg |}
      | None => pg
      end
  | SettledLate n =>
      match nth_error (detached pg) n with
      | Some k =>
          render (settle k s)
            {| app := s; busy := busy pg;
               detached := without n (detached pg) |}
      | None => pg
      end
  end.

Definition run (clicks : list Click) (pg : Page) : Page :=
  fold_left (fun pg c => click c pg) clicks pg.

(** A click that is not the late end of a wait. *)
Definition timely (c : Click) : bool :=
  match c with
  | SettledLate _ => false
  | _ => true
  end.

(** The views behind the password gate and the identity selector. *)
Definition signedIn (v : AppView) : bool :=
  match v with
  | v_password | v_identity => false
  | _ => true
  end.

(** What holds of the provider's state in every view, as long as no wait
    has ended late. *)
Definition wellFormed (s : App) : Prop :=
  let c := context s in
  (view s <> v_password ->
   password s = mnm_password (storage s) /\
   exists pw, password s = Some pw /\ pw <> "") /\
  (signedIn (view s) = true ->
   truthyIdentity (WatchRoom.identity c) = true /\
   WatchRoom.identity c = mnm_identity (storage s)) /\
  match view s with
  | v_watchroom =>
      (WatchRoom.mode c = Some WatchRoom.cloud /\
       WatchRoom.localFile c = None /\
       exists video, WatchRoom.selectedVideo c = Some video /\
                     WatchRoom.roomId c = Some (WatchRoom.vf_id video)) \/
      (WatchRoom.mode c = Some WatchRoom.local /\
       WatchRoom.selectedVideo c = None /\
       exists file rid, WatchRoom.localFile c = Some file /\
                        WatchRoom.roomId c = Some rid)
  | v_dashboard =>
      WatchRoom.mode c = Some WatchRoom.cloud /\
      WatchRoom.localFile c = None /\ WatchRoom.selectedVideo c = None /\
      WatchRoom.roomId c = None
  | v_localfile =>
      WatchRoom.mode c = Some WatchRoom.local /\
      WatchRoom.localFile c = None /\ WatchRoom.selectedVideo c = None /\
      WatchRoom.roomId c = None
  | _ =>
      WatchRoom.localFile c = None /\ WatchRoom.selectedVideo c = None /\
      WatchRoom.roomId c = None
  end.

(** The handler that waits belongs to the view that is shown. *)
Definition busyFits (pg : Page) : Prop :=
  match busy pg with
  | Some (p_setPassword pw) => view (app pg) = v_password /\ pw <> ""
  | Some (p_start _) => view (app pg) = v_localfile
  | None => True
  end.

(** What holds of the provider's state whenever the waits end: where the
    identity selector is shown or an identity is held, the password is the
    stored one and not empty; an identity that is held is the stored one
    and not empty. *)
Definition stored (s : App) : Prop :=
  (view s = v_identity \/ WatchRoom.identity (context s) <> None ->
   password s = mnm_password (storage s) /\
   exists pw, password s = Some pw /\ pw <> "") /\
  (forall id, WatchRoom.identity (context s) = Some id ->
              id <> "" /\ mnm_identity (storage s) = Some id).

(** A password that is still to be set is not empty. *)
Definition pendingOk (pg : Page) : Prop :=
  forall pw, In (p_setPassword pw) (waiting pg ++ detached pg) -> pw <> "".

Definition consistent (pg : Page) : Prop :=
  pendingOk pg /\ stored (app pg).

(** What holds of the page as long as no wait has ended late. *)
Definition sound (pg : Page) : Prop :=
  wellFormed (app pg) /\ busyFits pg.

(** An empty [localStorage], and a session that opens a cloud video. *)
Definition emptyStorage : Storage :=
  {| mnm_password := None; mnm_identity := None |}.

Definition cloudSession : list Click :=
  [Unlock "sesame"; Settled; Pick Manika; ChooseMode WatchRoom.cloud;
   PlayVideo {| WatchRoom.vf_id := "v1"; WatchRoom.vf_name := "movie" |}].

(** A picked file whose hash takes its time, and a session in which the
    user starts the room, goes back and logs out before the hash is
    there. *)
Definition slowFile : LocalFileSelector.PickedFile :=
  {| LocalFileSelector.pf_name := "movie.mp4";
     LocalFileSelector.pf_size := 1024;
     LocalFileSelector.pf_objectUrl := "blob:1";
     LocalFileSelector.pf_digest := Some "def456" |}.

Definition lateStart : list Click :=
  [Unlock "sesame"; Settled; Pick Manika; ChooseMode WatchRoom.local;
   StartWatching (Some slowFile) (LocalFileSelector.units "movie");
   Back; LogOut; SettledLate 0].

(** The state a page load gives a signed-in user. *)
Definition afterReload (s : App) : App :=
  {| view := v_modeselect; password := password s;
     context := withIdentity (WatchRoom.identity (context s)) noContext;
     storage := storage s; revoked := [] |}.

End AppProvider.

(* ================================================================== *)
(** ** src/components/LocalFileSelector.tsx: picking and hashing the file *)
(* ================================================================== *)

Module LocalFileForm.
Import LocalFileSelector.
Local Open Scope N_scope.

(** The [File] the input element hands over, as far as the form reads it. *)
Record File : Type := {
  name : JSString;
  size : Z
}.

(** The component's state, lines 21-27. *)
Record Form : Type := {
  fileRef : option File;
  selectedFileName : JSString;
  fileSize : Z;
  roomName : JSString;
  error : string
}.

Definition initialForm : Form :=
  {| fileRef := None; selectedFileName := []; fileSize := 0; roomName := [];
     error := "" |}.

(** Strict equality of two strings. *)
Fixpoint sameUnits (a b : JSString) : bool :=
  match a, b with
  | [], [] => true
  | x :: a', y :: b' => (x =? y) && sameUnits a' b'
  | _, _ => false
  end.

Definition includes (l : list JSString) (s : JSString) : bool :=
  existsb (sameUnits s) l.

(** [s.split('.').pop()]: what follows the last full stop, or all of [s]
    when it has none. *)
Definition lastSegment (s : JSString) : JSString :=
  fold_left (fun acc c => if c =? 46 then [] else acc ++ [c]) s [].

Definition validExtensions : list JSString :=
  [units ".mp4"; units ".mkv"; units ".webm"; units ".avi"; units ".mov"].

(** ['.' + file.name.split('.').pop()?.toLowerCase()].  The extension is
    only compared with ASCII text, and [toLowerCase] above gives an ASCII
    code unit exactly where JavaScript's does, so the comparison comes out
    as in the browser. *)
Definition extensionOf (fileName : JSString) : JSString :=
  46 :: toLowerCase (lastSegment fileName).

Definition accepted (fileName : JSString) : bool :=
  includes validExtensions (extensionOf fileName).

Definition isEmpty (s : JSString) : bool :=
  match s with
  | [] => true
  | _ :: _ => false
  end.

(** [s.replace(/\.[^/.]+$/, '')]: the match starts at the first full stop
    that is followed, up to the end, by one or more code units none of
    which is a full stop or a slash. *)
Fixpoint stripExtension (s : JSString) : JSString :=
  match s with
  | [] => []
  | c :: s' =>
      if (c =? 46) && negb (isEmpty s')
         && forallb (fun d => negb ((d =? 47) || (d =? 46))) s'
      then []
      else c :: stripExtension s'
  end.

Definition withError (msg : string) (f : Form) : Form :=
  {| fileRef := fileRef f; selectedFileName := selectedFileName f;
     fileSize := fileSize f; roomName := roomName f; error := msg |}.

(** [handleFileChange], lines 29-50; [picked] is [e.target.files?.[0]]. *)
Definition handleFileChange (picked : option File) (f : Form) : Form :=
  match picked with
  | None => f
  | Some file =>
      if negb (accepted (name file)) then
        withError "Please select a video file (MP4, MKV, WebM, AVI, MOV)" f
      else
        {| fileRef := Some file;
           selectedFileName := name file;
           fileSize := size file;
           roomName := if isEmpty (roomName f)
                       then stripExtension (name file) else roomName f;
           error := "" |}
  end.

(** A code unit that is neither a full stop nor a slash. *)
Definition plain (c : N) : Prop := c <> 46 /\ c <> 47.

End LocalFileForm.

Module FileHash.
Local Open Scope N_scope.

(** [2 * 1024 * 1024] *)
Definition CHUNK_SIZE : N := 2 * 1024 * 1024.

(** [file.slice(0, CHUNK_SIZE)] on the file's bytes. *)
Definition slice (file : list N) : list N :=
  firstn (N.to_nat CHUNK_SIZE) file.

Definition hexDigit (n : N) : ascii :=
  if n <? 10 then ascii_of_N (48 + n) else ascii_of_N (87 + n).

(** [b.toString(16)] for an element of a [Uint8Array]. *)
Definition toString16 (b : N) : string :=
  if b <? 16 then String (hexDigit b) EmptyString
  else String (hexDigit (b / 16)) (String (hexDigit (b mod 16)) EmptyString).

(** [s.padStart(2, '0')] *)
Definition padStart2 (s : string) : string :=
  match s with
  | EmptyString => "00"
  | String c EmptyString => String "0"%char s
  | _ => s
  end.

Definition hexByte (b : N) : string := padStart2 (toString16 b).

Section Digest.
(** [crypto.subtle.digest('SHA-256', buffer)], the platform's. *)
Variable sha256 : list N -> list N.

(** [computeFileHash], lines 10-17. *)
Definition computeFileHash (file : list N) : string :=
  String.concat "" (map hexByte (sha256 (slice file))).
End Digest.

End FileHash.

(* ================================================================== *)
(** ** src/components/ChatPanel.tsx *)
(* ================================================================== *)

Module ChatPanel.
Import LocalFileSelector.

(** [handleSubmit]: the new value of the input box, and what became of the
    page. *)
Definition handleSubmit {W : Type} (onSend : JSString -> W -> W)
    (input : JSString) (w : W) : JSString * W :=
  match trim input with
  | [] => (input, w)
  | c :: t => ([], onSend (c :: t) w)
  end.

End ChatPanel.

(* ================================================================== *)
(** ** src/components/VideoPlayer.tsx: the source kind and the rate button *)
(* ================================================================== *)

Module PlayerControls.
Import LocalFileSelector.
Local Open Scope N_scope.

(** [s.split('?')[0]] *)
Fixpoint beforeQuery (s : JSString) : JSString :=
  match s with
  | [] => []
  | c :: s' => if c =? 63 then [] else c :: beforeQuery s'
  end.

Fixpoint startsWith (s prefix : JSString) : bool :=
  match prefix, s with
  | [], _ => true
  | p :: prefix', c :: s' => (c =? p) && startsWith s' prefix'
  | _ :: _, [] => false
  end.

(** [s.endsWith(suffix)] *)
Definition endsWith (s suffix : JSString) : bool :=
  startsWith (rev s) (rev suffix).

(** [isHlsSource], lines 35-37.  The suffix is ASCII text, for which
    [toLowerCase] above agrees with JavaScript's. *)
Definition isHlsSource (src : JSString) : bool :=
  endsWith (toLowerCase (beforeQuery src)) (units ".m3u8").

Definition rates : list float :=
  [0.5; 0.75; 1; 1.25; 1.5; 2]%float.

(** [rates.indexOf(x)], by strict equality; [-1] when absent. *)
Fixpoint indexFrom (i : Z) (l : list float) (x : float) : Z :=
  match l with
  | [] => -1
  | y :: l' => if PrimFloat.eqb y x then i else indexFrom (i + 1) l' x
  end.

Definition indexOf (l : list float) (x : float) : Z := indexFrom 0 l x.

(** [changePlaybackRate], lines 319-325: the rate it sets.  The index plus
    one is never negative, so [%] is [Z.modulo]. *)
Definition changePlaybackRate (playbackRate : float) : float :=
  let currentIdx := indexOf rates playbackRate in
  nth (Z.to_nat ((currentIdx + 1) mod Z.of_nat (length rates))) rates
    PrimFloat.nan.

End PlayerControls.

(* ================================================================== *)
(** * Properties *)
(* ================================================================== *)

(** ** General facts *)

Lemma truthyString_false (s : string) : truthyString s = false <-> s = "".
Proof. destruct s; simpl; split; congruence. Qed.

Lemma truthyString_true (s : string) : truthyString s = true <-> s <> "".
Proof. destruct s; simpl; split; congruence. Qed.

(** Two finite numbers with the same value are the same. *)
Lemma Finite_eq (a b : Finite) : num a = num b -> a = b.
Proof.
  destruct a as [x Hx], b as [y Hy]. simpl. intros ->.
  f_equal. apply Eqdep_dec.UIP_dec. apply Bool.bool_dec.
Qed.

Lemma finite_Some (x : float) :
  PrimFloat.is_finite x = true -> exists t, finite x = Some t /\ num t = x.
Proof.
  intros H. unfold finite.
  destruct (Bool.bool_dec (PrimFloat.is_finite x) true) as [H'|H'];
    [|contradiction].
  eexists. split; reflexivity.
Qed.

Lemma finite_None (x : float) :
  PrimFloat.is_finite x = false -> finite x = None.
Proof.
  intros H. unfold finite.
  destruct (Bool.bool_dec (PrimFloat.is_finite x) true) as [H'|H'];
    [congruence|reflexivity].
Qed.

Lemma finite_Some_inv (x : float) (t : Finite) :
  finite x = Some t -> PrimFloat.is_finite x = true /\ num t = x.
Proof.
  unfold finite.
  destruct (Bool.bool_dec (PrimFloat.is_finite x) true) as [H'|H'];
    [|discriminate].
  intros [= <-]. split; [exact H'|reflexivity].
Qed.

Lemma finite_None_inv (x : float) :
  finite x = None -> PrimFloat.is_finite x = false.
Proof.
  unfold finite.
  destruct (Bool.bool_dec (PrimFloat.is_finite x) true) as [H'|H'];
    [discriminate|].
  intros _. now destruct (PrimFloat.is_finite x).
Qed.

Lemma finite_num (t : Finite) : finite (num t) = Some t.
Proof.
  destruct (finite_Some (num t) (num_finite t)) as (t' & Ht & Hn).
  rewrite Ht. f_equal. now apply Finite_eq.
Qed.

Lemma skipn_length_app {A : Type} (l l' : list A) :
  skipn (length l) (l ++ l') = l'.
Proof. induction l as [|x l IH]; simpl; auto. Qed.

Lemma skipn_length_self {A : Type} (l : list A) : skipn (length l) l = [].
Proof. induction l as [|x l IH]; simpl; auto. Qed.

(** ** The synchronisation engine *)

Section EngineFacts.
Import SyncEngine.

Lemma dispatch_spy (data : SyncEvent) (log : list SyncEvent) :
  dispatch spy data log = log ++ [data].
Proof. destruct data; reflexivity. Qed.

(** An event of another sender reaches exactly the handler of its kind. *)
Lemma onBroadcast_peer {W : Type} (identity : string) (cb : Callbacks W)
    (data : SyncEvent) (w : W) :
  sender data <> identity ->
  onBroadcast identity cb (Some data) w = dispatch cb data w.
Proof.
  intros Hne. unfold onBroadcast.
  destruct (String.eqb_spec (sender data) identity); [contradiction|].
  reflexivity.
Qed.

Lemma withIdentity_falsy (identity : Identity) k s :
  truthyIdentity identity = false -> withIdentity identity k s = s.
Proof.
  unfold withIdentity, truthyIdentity.
  destruct identity as [id|]; [intros ->|]; reflexivity.
Qed.

Lemma broadcast_closed (event : SyncEvent) (s : Engine) :
  channelRef s = None -> broadcast event s = s.
Proof. unfold broadcast. intros ->. reflexivity. Qed.

Lemma withIdentity_closed (identity : Identity) (mk : string -> SyncEvent)
    (s : Engine) :
  channelRef s = None ->
  withIdentity identity (fun id => broadcast (mk id)) s = s.
Proof.
  intros Hc. unfold withIdentity.
  destruct identity as [id|]; [|reflexivity].
  destruct (truthyString id); [|reflexivity].
  now apply broadcast_closed.
Qed.

Lemma emit_closed (identity : Identity) (now : Z) (c : EmitCall)
    (s : Engine) :
  channelRef s = None -> emit identity now c s = s.
Proof.
  intros Hc.
  destruct c; simpl;
    unfold emitPlaybackState, emitBufferState, emitTimeSync,
      emitChatMessage, emitChatUiState, requestCurrentState, emitFileHash;
    now apply withIdentity_closed.
Qed.

Lemma subscriptionEffect_keyless (videoId : string) (identity : Identity)
    (s : Engine) :
  truthyString videoId && truthyIdentity identity = false ->
  subscriptionEffect videoId identity s = s.
Proof.
  unfold subscriptionEffect, truthyIdentity.
  destruct identity as [id|]; [|reflexivity].
  destruct (truthyString videoId), (truthyString id); simpl;
    congruence.
Qed.

(** From the hook's initial state a keyless action changes nothing: the
    transport holds no status callback yet. *)
Lemma hookStep_keyless_initial (a : HookAction) :
  keyless a = true -> hookStep a initial = initial.
Proof.
  intros Hk. destruct a as [v i|ch st|ev|i n c]; simpl in *.
  - apply subscriptionEffect_keyless. now apply negb_true_iff in Hk.
  - reflexivity.
  - now apply broadcast_closed.
  - now apply emit_closed.
Qed.

Lemma hookRun_keyless_initial (acts : list HookAction) :
  forallb keyless acts = true -> hookRun acts initial = initial.
Proof.
  induction acts as [|a acts IH]; intros Hall; simpl in *.
  - reflexivity.
  - apply andb_true_iff in Hall as [Ha Hall].
    unfold hookRun in *. simpl.
    rewrite (hookStep_keyless_initial a Ha). now apply IH.
Qed.

Lemma subscribeCalls_track (calls : list TransportCall) (name key : string) :
  subscribeCalls (calls ++ [t_track name key]) = subscribeCalls calls.
Proof.
  unfold subscribeCalls. rewrite flat_map_app. simpl. apply app_nil_r.
Qed.

(** With no channel held, a keyless action leaves [channelRef] null and
    attempts no subscription; unless it is the transport reporting
    SUBSCRIBED, it leaves [connected] as it is, too. *)
Lemma hookStep_keyless (a : HookAction) (s : Engine) :
  keyless a = true -> channelRef s = None ->
  channelRef (hookStep a s) = None /\
  subscribeCalls (wire (hookStep a s)) = subscribeCalls (wire s) /\
  (unannounced a = true -> connected (hookStep a s) = connected s).
Proof.
  intros Hk Hc. destruct a as [v i|ch st|ev|i n c]; simpl in *.
  - unfold subscriptionCleanup. rewrite Hc.
    rewrite subscriptionEffect_keyless by now apply negb_true_iff in Hk.
    auto.
  - destruct (registered ch (wire s)); [|auto].
    unfold onSubscribeStatus.
    destruct (String.eqb st "SUBSCRIBED"); simpl; [|auto].
    split; [exact Hc|]. split; [apply subscribeCalls_track|discriminate].
  - rewrite broadcast_closed by exact Hc. auto.
  - rewrite emit_closed by exact Hc. auto.
Qed.

Lemma hookRun_keyless (acts : list HookAction) (s : Engine) :
  forallb keyless acts = true -> channelRef s = None ->
  channelRef (hookRun acts s) = None /\
  subscribeCalls (wire (hookRun acts s)) = subscribeCalls (wire s) /\
  (forallb unannounced acts = true ->
   connected (hookRun acts s) = connected s).
Proof.
  revert s. induction acts as [|a acts IH]; intros s Hall Hc; simpl in *.
  - auto.
  - apply andb_true_iff in Hall as [Ha Hall].
    destruct (hookStep_keyless a s Ha Hc) as (Hc1 & Hw1 & Hn1).
    destruct (IH (hookStep a s) Hall Hc1) as (Hc2 & Hw2 & Hn2).
    unfold hookRun in *. simpl. split; [exact Hc2|].
    split; [congruence|].
    intros Hq. apply andb_true_iff in Hq as [Hqa Hq].
    rewrite (Hn2 Hq). now apply Hn1.
Qed.

(** A render without a room key or without an identity only runs the
    previous cleanup: it closes the channel if one was held and attempts no
    subscription. *)
Lemma hook_effect_keyless (videoId : string) (identity : Identity)
    (s : Engine) :
  truthyString videoId && truthyIdentity identity = false ->
  let s' := hookStep (hook_effect videoId identity) s in
  channelRef s' = None /\
  subscribeCalls (wire s') = subscribeCalls (wire s) /\
  ((channelRef s = None -> connected s = false) -> connected s' = false).
Proof.
  intros Hkey. simpl.
  rewrite subscriptionEffect_keyless by exact Hkey.
  unfold subscriptionCleanup.
  destruct (channelRef s) as [ch|] eqn:Hch; simpl.
  - repeat split. unfold subscribeCalls. rewrite flat_map_app. simpl.
    now rewrite app_nil_r.
  - auto.
Qed.

End EngineFacts.

(** *** Self-echo suppression *)

(** C3.  An event whose [sender] is the local identity invokes no handler,
    whatever its kind: for arbitrary handlers over an arbitrary state the
    listener returns the state it was given, the spying handlers record no
    invocation, and the watch room (whose listener exists while its channel
    does) is left as it was. *)
Theorem C3_self_echo_invokes_no_handler :
  forall (identity : string) (data : SyncEngine.SyncEvent),
    SyncEngine.sender data = identity ->
    (forall (W : Type) (cb : SyncEngine.Callbacks W) (w : W),
        SyncEngine.onBroadcast identity cb (Some data) w = w) /\
    (forall log : list SyncEngine.SyncEvent,
        SyncEngine.onBroadcast identity SyncEngine.spy (Some data) log = log) /\
    (forall w : WatchRoom.World,
        WatchRoom.identity (WatchRoom.ctx w) = Some identity ->
        WatchRoom.receive (Some data) w = w).
Proof.
  intros identity data Hself.
  assert (Hdrop : forall (W : Type) (cb : SyncEngine.Callbacks W) (w : W),
             SyncEngine.onBroadcast identity cb (Some data) w = w).
  { intros W cb w. unfold SyncEngine.onBroadcast.
    rewrite Hself, String.eqb_refl. reflexivity. }
  split; [exact Hdrop|]. split; [intros log; apply Hdrop|].
  intros w Hid. unfold WatchRoom.receive. rewrite Hid.
  destruct (SyncEngine.channelRef (WatchRoom.engine w));
    [apply Hdrop|reflexivity].
Qed.

(** The filter is not vacuous: the same listener hands an event of the peer
    to the handler of its kind, once. *)
Lemma peer_event_invokes_its_handler :
  forall (identity : string) (data : SyncEngine.SyncEvent)
         (log : list SyncEngine.SyncEvent),
    SyncEngine.sender data <> identity ->
    SyncEngine.onBroadcast identity SyncEngine.spy (Some data) log
    = log ++ [data].
Proof.
  intros identity data log Hne.
  rewrite onBroadcast_peer by assumption. apply dispatch_spy.
Qed.

Lemma C3_witness :
  SyncEngine.onBroadcast "Manika" SyncEngine.spy
    (Some (SyncEngine.chat_message
             {| SyncEngine.cm_text := "hi"; SyncEngine.cm_sender := "Manika";
                SyncEngine.cm_timestamp := 7 |})) [] = [].
Proof.
  apply (C3_self_echo_invokes_no_handler "Manika"
           (SyncEngine.chat_message
              {| SyncEngine.cm_text := "hi"; SyncEngine.cm_sender := "Manika";
                 SyncEngine.cm_timestamp := 7 |})).
  reflexivity.
Defined.

(** *** Channel lifecycle and emit *)

(** C7.  With an empty room key or an empty or absent identity the
    subscription effect returns at its guard.  From the hook's initial
    state, and through any later renders with such inputs, status callbacks
    and emits, no transport call is ever made, no channel is held and
    [connected] is false.  In mid-session, whatever state the hook is in:
    once a render comes with such inputs the channel is closed and no
    further subscription is attempted for as long as the inputs stay so;
    [connected] is false from then on if it was true only with a channel
    held and the transport does not report SUBSCRIBED for a channel of the
    past.  And while no channel is held, [broadcast] and every emitter
    return the state unchanged: the event is not sent and is kept nowhere,
    so whatever happens afterwards happens as if the emit had not been
    made. *)
Theorem C7_no_subscription_no_emit :
  (forall (videoId : string) (identity : Identity)
          (acts : list SyncEngine.HookAction),
      truthyString videoId && truthyIdentity identity = false ->
      forallb SyncEngine.keyless acts = true ->
      let s :=
        SyncEngine.hookRun
          (SyncEngine.hook_effect videoId identity :: acts)
          SyncEngine.initial in
      SyncEngine.wire s = [] /\
      SyncEngine.channelRef s = None /\
      SyncEngine.connected s = false) /\
  (forall (videoId : string) (identity : Identity)
          (s0 : SyncEngine.Engine) (acts : list SyncEngine.HookAction),
      truthyString videoId && truthyIdentity identity = false ->
      forallb SyncEngine.keyless acts = true ->
      let s :=
        SyncEngine.hookRun
          (SyncEngine.hook_effect videoId identity :: acts) s0 in
      SyncEngine.channelRef s = None /\
      SyncEngine.subscribeCalls (SyncEngine.wire s)
      = SyncEngine.subscribeCalls (SyncEngine.wire s0) /\
      ((SyncEngine.channelRef s0 = None ->
        SyncEngine.connected s0 = false) ->
       forallb SyncEngine.unannounced acts = true ->
       SyncEngine.connected s = false)) /\
  (forall (s : SyncEngine.Engine),
      SyncEngine.channelRef s = None ->
      (forall event, SyncEngine.broadcast event s = s) /\
      (forall identity now c, SyncEngine.emit identity now c s = s) /\
      (forall identity now c later,
          SyncEngine.hookRun later (SyncEngine.emit identity now c s)
          = SyncEngine.hookRun later s)).
Proof.
  split; [|split].
  - intros videoId identity acts Hkey Hacts s.
    assert (Hs : s = SyncEngine.initial).
    { subst s. apply hookRun_keyless_initial.
      simpl. rewrite Hkey. exact Hacts. }
    rewrite Hs. repeat split; reflexivity.
  - intros videoId identity s0 acts Hkey Hacts s.
    destruct (hook_effect_keyless videoId identity s0 Hkey)
      as (Hc & Hw & Hn).
    destruct (hookRun_keyless acts _ Hacts Hc) as (Hc' & Hw' & Hn').
    subst s. unfold SyncEngine.hookRun in *. cbn [fold_left].
    split; [exact Hc'|]. split; [congruence|].
    intros Inv Hq. rewrite (Hn' Hq). exact (Hn Inv).
  - intros s Hc. split; [|split].
    + intros event. now apply broadcast_closed.
    + intros identity now c. now apply emit_closed.
    + intros identity now c later. now rewrite emit_closed.
Qed.

Lemma C7_witness :
  SyncEngine.connected
    (SyncEngine.hookRun
       [SyncEngine.hook_effect "v1" None;
        SyncEngine.hook_status
          {| SyncEngine.channelName := "watchroom-v1";
             SyncEngine.presenceKey := "Manika" |} "SUBSCRIBED";
        SyncEngine.hook_emit None 5 SyncEngine.call_requestCurrentState;
        SyncEngine.hook_effect "" (Some "Manika")]
       SyncEngine.initial) = false /\
  SyncEngine.connected
    (SyncEngine.hookRun
       [SyncEngine.hook_effect "" (Some "Manika");
        SyncEngine.hook_status
          {| SyncEngine.channelName := "watchroom-v1";
             SyncEngine.presenceKey := "Manika" |} "CLOSED";
        SyncEngine.hook_emit (Some "Manika") 9
          (SyncEngine.call_emitChatMessage "hi")]
       (SyncEngine.hookRun
          [SyncEngine.hook_effect "v1" (Some "Manika");
           SyncEngine.hook_status
             {| SyncEngine.channelName := "watchroom-v1";
                SyncEngine.presenceKey := "Manika" |} "SUBSCRIBED"]
          SyncEngine.initial)) = false /\
  SyncEngine.emit (Some "Manika") 5 (SyncEngine.call_emitChatMessage "hi")
    SyncEngine.initial = SyncEngine.initial.
Proof.
  split; [|split].
  - apply (proj1 C7_no_subscription_no_emit "v1" None
             [SyncEngine.hook_status
                {| SyncEngine.channelName := "watchroom-v1";
                   SyncEngine.presenceKey := "Manika" |} "SUBSCRIBED";
              SyncEngine.hook_emit None 5 SyncEngine.call_requestCurrentState;
              SyncEngine.hook_effect "" (Some "Manika")]);
      reflexivity.
  - refine (proj2 (proj2
              (proj1 (proj2 C7_no_subscription_no_emit) "" (Some "Manika")
                 (SyncEngine.hookRun
                    [SyncEngine.hook_effect "v1" (Some "Manika");
                     SyncEngine.hook_status
                       {| SyncEngine.channelName := "watchroom-v1";
                          SyncEngine.presenceKey := "Manika" |} "SUBSCRIBED"]
                    SyncEngine.initial)
                 [SyncEngine.hook_status
                    {| SyncEngine.channelName := "watchroom-v1";
                       SyncEngine.presenceKey := "Manika" |} "CLOSED";
                  SyncEngine.hook_emit (Some "Manika") 9
                    (SyncEngine.call_emitChatMessage "hi")]
                 _ _)) _ _);
      try reflexivity; discriminate.
  - apply (proj2 (proj2 C7_no_subscription_no_emit) SyncEngine.initial);
      reflexivity.
Defined.

(** What the status callback does when the transport calls it late: the
    room key has gone, the channel was unsubscribed, and SUBSCRIBED for it
    still sets [connected] and tracks presence on it. *)
Lemma late_status_sets_connected :
  SyncEngine.hookRun
    [SyncEngine.hook_effect "v1" (Some "Manika");
     SyncEngine.hook_effect "" (Some "Manika");
     SyncEngine.hook_status
       {| SyncEngine.channelName := "watchroom-v1";
          SyncEngine.presenceKey := "Manika" |} "SUBSCRIBED"]
    SyncEngine.initial
  = {| SyncEngine.channelRef := None;
       SyncEngine.connected := true;
       SyncEngine.wire :=
         [SyncEngine.t_channel "watchroom-v1" "Manika";
          SyncEngine.t_subscribe "watchroom-v1";
          SyncEngine.t_unsubscribe "watchroom-v1";
          SyncEngine.t_track "watchroom-v1" "Manika"] |}.
Proof. reflexivity. Qed.

(** Once a channel is held the same emit does reach the wire. *)
Lemma emit_on_open_channel :
  SyncEngine.wire
    (SyncEngine.emit (Some "Manika") 5 (SyncEngine.call_emitChatMessage "hi")
       (SyncEngine.hookRun [SyncEngine.hook_effect "v1" (Some "Manika")]
          SyncEngine.initial))
  = [SyncEngine.t_channel "watchroom-v1" "Manika";
     SyncEngine.t_subscribe "watchroom-v1";
     SyncEngine.t_send "watchroom-v1"
       (SyncEngine.chat_message
          {| SyncEngine.cm_text := "hi"; SyncEngine.cm_sender := "Manika";
             SyncEngine.cm_timestamp := 5 |})].
Proof. reflexivity. Qed.

(** ** The reconciliation handlers *)

Section RoomFacts.
Import SyncEngine VideoPlayer WatchRoom.

(** An event of the peer, arriving on the open channel, runs the handler of
    its kind. *)
Lemma receive_peer (w : World) (ch : RealtimeChannel) (id : string)
    (data : SyncEvent) :
  channelRef (engine w) = Some ch ->
  identity (ctx w) = Some id ->
  sender data <> id ->
  receive (Some data) w = dispatch callbacks data w.
Proof.
  intros Hch Hid Hne. unfold receive. rewrite Hch, Hid.
  now apply onBroadcast_peer.
Qed.

(** Each method of the handle adds its own call to the trace, keeps the
    handle mounted, and leaves the rest of the page alone. *)
Lemma play_calls now q p :
  calls (snd (VideoPlayer.play now q p)) = calls p ++ [call_play].
Proof. reflexivity. Qed.

Lemma pause_calls now q p :
  calls (snd (VideoPlayer.pause now q p)) = calls p ++ [call_pause].
Proof. reflexivity. Qed.

Lemma onPlayer_mounted m w p :
  playerRef w = Some p ->
  playerRef (onPlayer m w) = Some (snd (m (now w) (timers w) p)).
Proof.
  intros Hp. unfold onPlayer. rewrite Hp.
  destruct (m (now w) (timers w) p) as [q p']. reflexivity.
Qed.

Lemma onPlayer_room m w : room (onPlayer m w) = room w.
Proof.
  unfold onPlayer. destruct (playerRef w) as [p|]; [|reflexivity].
  destruct (m (now w) (timers w) p). reflexivity.
Qed.

Lemma onPlayer_engine m w : engine (onPlayer m w) = engine w.
Proof.
  unfold onPlayer. destruct (playerRef w) as [p|]; [|reflexivity].
  destruct (m (now w) (timers w) p). reflexivity.
Qed.

Lemma onPlayer_now m w : now (onPlayer m w) = now w.
Proof.
  unfold onPlayer. destruct (playerRef w) as [p|]; [|reflexivity].
  destruct (m (now w) (timers w) p). reflexivity.
Qed.

Lemma onPlayer_ctx m w : ctx (onPlayer m w) = ctx w.
Proof.
  unfold onPlayer. destruct (playerRef w) as [p|]; [|reflexivity].
  destruct (m (now w) (timers w) p). reflexivity.
Qed.

Lemma onPlayer_unmounted m w : playerRef w = None -> onPlayer m w = w.
Proof. intros Hp. unfold onPlayer. now rewrite Hp. Qed.

(** The calls a run of handle methods added, when the trace only grew. *)
Lemma issued_app w w' (cs : list PlayerCall) :
  playerCalls w' = playerCalls w ++ cs -> issued w w' = cs.
Proof. intros H. unfold issued. rewrite H. apply skipn_length_app. Qed.

Lemma issued_refl w : issued w w = [].
Proof. unfold issued. apply skipn_length_self. Qed.

Lemma playerCalls_mounted w p :
  playerRef w = Some p -> playerCalls w = calls p.
Proof. intros H. unfold playerCalls. now rewrite H. Qed.

(** The trace after one call on a mounted handle. *)
Lemma playerCalls_play w p :
  playerRef w = Some p ->
  playerCalls (onPlayer VideoPlayer.play w) = playerCalls w ++ [call_play].
Proof.
  intros Hp. rewrite (playerCalls_mounted _ _ (onPlayer_mounted _ _ _ Hp)).
  now rewrite play_calls, (playerCalls_mounted _ _ Hp).
Qed.

Lemma playerCalls_pause w p :
  playerRef w = Some p ->
  playerCalls (onPlayer VideoPlayer.pause w) = playerCalls w ++ [call_pause].
Proof.
  intros Hp. rewrite (playerCalls_mounted _ _ (onPlayer_mounted _ _ _ Hp)).
  now rewrite pause_calls, (playerCalls_mounted _ _ Hp).
Qed.

(** [seekTo] on the mounted handle, case by case. *)
Lemma seekPlayer_unmounted time w :
  playerRef w = None -> seekPlayer time w = (normal, w).
Proof. intros Hp. unfold seekPlayer. now rewrite Hp. Qed.

Lemma seekPlayer_no_element time w p :
  playerRef w = Some p -> videoRef p = None ->
  seekPlayer time w
  = (normal,
     withPlayer
       (Some {| videoRef := None;
                suppressEventsRef := suppressEventsRef p;
                calls := calls p ++ [call_seekTo time] |})
       (withTimers (timers w) w)).
Proof.
  intros Hp Hv. unfold seekPlayer, VideoPlayer.seekTo. now rewrite Hp, Hv.
Qed.

Lemma seekPlayer_finite time t w p v :
  playerRef w = Some p -> videoRef p = Some v -> finite time = Some t ->
  seekPlayer time w
  = (normal,
     withPlayer
       (Some {| videoRef := Some (video_setCurrentTime t v);
                suppressEventsRef := true;
                calls := calls p ++ [call_seekTo time] |})
       (withTimers
          (EventLoop.setTimeout (now w) 300 EventLoop.resetSuppressEvents
             (timers w)) w)).
Proof.
  intros Hp Hv Ht. unfold seekPlayer, VideoPlayer.seekTo.
  now rewrite Hp, Hv, Ht.
Qed.

Lemma seekPlayer_throws time w p v :
  playerRef w = Some p -> videoRef p = Some v -> finite time = None ->
  seekPlayer time w
  = (typeError,
     withPlayer
       (Some {| videoRef := Some v;
                suppressEventsRef := true;
                calls := calls p ++ [call_seekTo time] |})
       (withTimers (timers w) w)).
Proof.
  intros Hp Hv Ht. unfold seekPlayer, VideoPlayer.seekTo.
  now rewrite Hp, Hv, Ht.
Qed.

End RoomFacts.

(** The three cases at once. *)
Ltac seek_cases time w p Hp :=
  let v := fresh "v" in
  let Hv := fresh "Hv" in
  let t := fresh "t" in
  let Ht := fresh "Ht" in
  destruct (VideoPlayer.videoRef p) as [v|] eqn:Hv;
  [destruct (finite time) as [t|] eqn:Ht;
   [rewrite (seekPlayer_finite time t w p v Hp Hv Ht)
   |rewrite (seekPlayer_throws time w p v Hp Hv Ht)]
  |rewrite (seekPlayer_no_element time w p Hp Hv)].

Section HandlerFacts.
Import SyncEngine VideoPlayer WatchRoom.

Lemma seekPlayer_completion time w :
  fst (seekPlayer time w)
  = if seekThrows time w then typeError else normal.
Proof.
  unfold seekThrows, videoState.
  destruct (playerRef w) as [p|] eqn:Hp;
    [|now rewrite seekPlayer_unmounted].
  seek_cases time w p Hp; simpl; try reflexivity.
  - destruct (finite_Some_inv time t Ht) as [Hf _]. now rewrite Hf.
  - now rewrite (finite_None_inv time Ht).
Qed.

Lemma seekPlayer_room time w : room (snd (seekPlayer time w)) = room w.
Proof.
  destruct (playerRef w) as [p|] eqn:Hp;
    [|now rewrite seekPlayer_unmounted].
  seek_cases time w p Hp; reflexivity.
Qed.

Lemma seekPlayer_engine time w : engine (snd (seekPlayer time w)) = engine w.
Proof.
  destruct (playerRef w) as [p|] eqn:Hp;
    [|now rewrite seekPlayer_unmounted].
  seek_cases time w p Hp; reflexivity.
Qed.

Lemma seekPlayer_now time w : now (snd (seekPlayer time w)) = now w.
Proof.
  destruct (playerRef w) as [p|] eqn:Hp;
    [|now rewrite seekPlayer_unmounted].
  seek_cases time w p Hp; reflexivity.
Qed.

Lemma seekPlayer_ctx time w : ctx (snd (seekPlayer time w)) = ctx w.
Proof.
  destruct (playerRef w) as [p|] eqn:Hp;
    [|now rewrite seekPlayer_unmounted].
  seek_cases time w p Hp; reflexivity.
Qed.

(** The handle stays mounted, and its trace gains the call, also when the
    call throws. *)
Lemma seekPlayer_mounted time w p :
  playerRef w = Some p ->
  exists p', playerRef (snd (seekPlayer time w)) = Some p' /\
             calls p' = calls p ++ [call_seekTo time].
Proof.
  intros Hp. seek_cases time w p Hp; eexists; split; reflexivity.
Qed.

Lemma playerCalls_seekTo time w p :
  playerRef w = Some p ->
  playerCalls (snd (seekPlayer time w))
  = playerCalls w ++ [call_seekTo time].
Proof.
  intros Hp. destruct (seekPlayer_mounted time w p Hp) as (p' & Hp' & Hc).
  now rewrite (playerCalls_mounted _ _ Hp'), Hc, (playerCalls_mounted _ _ Hp).
Qed.

(** What follows a call in a handler runs unless the call threw. *)
Lemma andThen_seekPlayer time w k :
  andThen (seekPlayer time w) k
  = if seekThrows time w then snd (seekPlayer time w)
    else k (snd (seekPlayer time w)).
Proof.
  pose proof (seekPlayer_completion time w) as Hc.
  destruct (seekPlayer time w) as [c w1]. simpl in *. subst c.
  destruct (seekThrows time w); reflexivity.
Qed.

(** The calls of [handlePlaybackState] on a mounted handle: those of the
    event's state, cut short after a [seekTo] that throws. *)
Lemma handlePlaybackState_calls_made event w p :
  playerRef w = Some p ->
  playerCalls (handlePlaybackState event w)
  = playerCalls w
    ++ match ps_state event with
       | SyncEngine.playing =>
           if seekThrows (ps_time event) w
           then [call_seekTo (ps_time event)]
           else [call_seekTo (ps_time event); call_play]
       | SyncEngine.paused => [call_pause; call_seekTo (ps_time event)]
       | SyncEngine.seeked => [call_seekTo (ps_time event)]
       end.
Proof.
  intros Hp. unfold handlePlaybackState. rewrite Hp.
  destruct (ps_state event).
  - rewrite andThen_seekPlayer.
    destruct (seekThrows (ps_time event) w).
    + now apply playerCalls_seekTo with p.
    + destruct (seekPlayer_mounted (ps_time event) w p Hp)
        as (p' & Hp' & Hc).
      rewrite (playerCalls_play _ _ Hp'), (playerCalls_seekTo _ _ _ Hp).
      now rewrite <- app_assoc.
  - pose proof (onPlayer_mounted VideoPlayer.pause w p Hp) as Hp1.
    rewrite (playerCalls_seekTo _ _ _ Hp1), (playerCalls_pause _ _ Hp).
    now rewrite <- app_assoc.
  - now rewrite (playerCalls_seekTo _ _ _ Hp).
Qed.

(** With a time the element accepts, these are the commands of the
    specification. *)
Lemma handlePlaybackState_calls event w p :
  playerRef w = Some p ->
  seekThrows (ps_time event) w = false ->
  playerCalls (handlePlaybackState event w)
  = playerCalls w ++ Protocol.playbackCommands event.
Proof.
  intros Hp Hf. rewrite (handlePlaybackState_calls_made event w p Hp).
  unfold Protocol.playbackCommands. now rewrite Hf.
Qed.

(** The two handlers that drive the player change the handle and the
    timer queue only. *)
Lemma andThen_frame {A : Type} (f : World -> A) r k :
  (forall w, f (k w) = f w) -> f (andThen r k) = f (snd r).
Proof. intros Hk. destruct r as [[|] w]; simpl; [apply Hk|reflexivity]. Qed.

Lemma matchPeerState_frame event w :
  room (matchPeerState event w) = room w /\
  engine (matchPeerState event w) = engine w /\
  ctx (matchPeerState event w) = ctx w /\
  now (matchPeerState event w) = now w.
Proof.
  unfold matchPeerState. cbn zeta. destruct (ts_state event).
  - destruct (_ && _);
      rewrite ?onPlayer_room, ?onPlayer_engine, ?onPlayer_ctx, ?onPlayer_now;
      auto.
  - destruct (playerIsPlaying w);
      rewrite ?onPlayer_room, ?onPlayer_engine, ?onPlayer_ctx, ?onPlayer_now;
      auto.
Qed.

Lemma handlePlaybackState_frame e w :
  room (handlePlaybackState e w) = room w /\
  engine (handlePlaybackState e w) = engine w /\
  ctx (handlePlaybackState e w) = ctx w /\
  now (handlePlaybackState e w) = now w.
Proof.
  unfold handlePlaybackState. destruct (playerRef w); [|auto].
  destruct (ps_state e);
    rewrite ?(andThen_frame room), ?(andThen_frame engine),
      ?(andThen_frame ctx), ?(andThen_frame now),
      ?seekPlayer_room, ?seekPlayer_engine, ?seekPlayer_ctx, ?seekPlayer_now,
      ?onPlayer_room, ?onPlayer_engine, ?onPlayer_ctx, ?onPlayer_now;
    auto using onPlayer_room, onPlayer_engine, onPlayer_ctx, onPlayer_now.
Qed.

Lemma handleTimeSync_frame e w :
  room (handleTimeSync e w) = room w /\
  engine (handleTimeSync e w) = engine w /\
  ctx (handleTimeSync e w) = ctx w /\
  now (handleTimeSync e w) = now w.
Proof.
  unfold handleTimeSync. destruct (playerRef w); [|auto]. cbn zeta.
  rewrite (andThen_frame room), (andThen_frame engine),
    (andThen_frame ctx), (andThen_frame now)
    by (intros w1; apply matchPeerState_frame).
  destruct (PrimFloat.ltb 500 _);
    rewrite ?seekPlayer_room, ?seekPlayer_engine, ?seekPlayer_ctx,
      ?seekPlayer_now; auto.
Qed.

Lemma room_handlePlaybackState e w : room (handlePlaybackState e w) = room w.
Proof. apply handlePlaybackState_frame. Qed.

Lemma room_handleTimeSync e w : room (handleTimeSync e w) = room w.
Proof. apply handleTimeSync_frame. Qed.

Lemma seekThrows_finite time w :
  PrimFloat.is_finite time = true -> seekThrows time w = false.
Proof.
  intros H. unfold seekThrows. rewrite H. now destruct (videoState w).
Qed.

End HandlerFacts.

(** *** Comparisons of binary64 values *)

Lemma SFleb_not_SFltb (x y : SpecFloat.spec_float) :
  SpecFloat.SFleb x y = true -> SpecFloat.SFltb y x = false.
Proof.
  unfold SpecFloat.SFleb, SpecFloat.SFltb.
  destruct x as [sx|sx| |sx mx ex], y as [sy|sy| |sy my ey]; simpl;
    repeat match goal with b : bool |- _ => destruct b end;
    simpl; try congruence.
  - rewrite (Z.compare_antisym ex ey).
    destruct (ex ?= ey)%Z eqn:He; simpl; try congruence.
    pose proof (Pos.compare_cont_antisym mx my Eq) as Ha. simpl in Ha.
    rewrite <- Ha.
    destruct (Pos.compare_cont Eq mx my); simpl; congruence.
  - rewrite (Z.compare_antisym ex ey).
    destruct (ex ?= ey)%Z eqn:He; simpl; try congruence.
    pose proof (Pos.compare_cont_antisym mx my Eq) as Ha. simpl in Ha.
    rewrite <- Ha.
    destruct (Pos.compare_cont Eq mx my); simpl; congruence.
Qed.

(** [x <= y] excludes [y < x], also at NaN (where neither holds). *)
Lemma leb_not_ltb (x y : float) :
  PrimFloat.leb x y = true -> PrimFloat.ltb y x = false.
Proof.
  rewrite leb_spec, ltb_spec. apply SFleb_not_SFltb.
Qed.

Section ReconciliationFacts.
Import SyncEngine VideoPlayer WatchRoom Protocol.

Lemma videoPosition_play w :
  videoPosition (onPlayer VideoPlayer.play w) = videoPosition w.
Proof.
  destruct (playerRef w) as [p|] eqn:Hp.
  - unfold videoPosition, onPlayer. rewrite Hp. simpl.
    destruct (videoRef p); reflexivity.
  - now rewrite onPlayer_unmounted.
Qed.

Lemma videoPosition_pause w :
  videoPosition (onPlayer VideoPlayer.pause w) = videoPosition w.
Proof.
  destruct (playerRef w) as [p|] eqn:Hp.
  - unfold videoPosition, onPlayer. rewrite Hp. simpl.
    destruct (videoRef p); reflexivity.
  - now rewrite onPlayer_unmounted.
Qed.

(** The calls of the play-or-pause part of [handleTimeSync]: at most one,
    and no seek. *)
Lemma matchPeerState_calls event w1 p1 :
  playerRef w1 = Some p1 ->
  exists tail,
    playerCalls (matchPeerState event w1) = playerCalls w1 ++ tail
    /\ seeks tail = [].
Proof.
  intros Hp1. unfold matchPeerState. cbn zeta.
  destruct (ts_state event).
  - destruct (negb (playerIsPlaying w1) && negb (peerBufferingRef (room w1))
              && negb (localBufferingRef (room w1))).
    + exists [call_play]. split; [|reflexivity].
      now rewrite (playerCalls_play _ _ Hp1).
    + exists []. split; [|reflexivity]. now rewrite app_nil_r.
  - destruct (playerIsPlaying w1).
    + exists [call_pause]. split; [|reflexivity].
      now rewrite (playerCalls_pause _ _ Hp1).
    + exists []. split; [|reflexivity]. now rewrite app_nil_r.
Qed.

Lemma videoPosition_matchPeerState event w1 :
  videoPosition (matchPeerState event w1) = videoPosition w1.
Proof.
  unfold matchPeerState. cbn zeta. destruct (ts_state event).
  - destruct (_ && _); [apply videoPosition_play|reflexivity].
  - destruct (playerIsPlaying w1); [apply videoPosition_pause|reflexivity].
Qed.

(** The calls of [handleTimeSync] on a mounted player: the seek when the
    drift test passes, then at most one play or pause. *)
Lemma handleTimeSync_calls event w p :
  playerRef w = Some p ->
  exists tail,
    playerCalls (handleTimeSync event w)
    = playerCalls w
      ++ (if PrimFloat.ltb 500
               (driftMs (VideoPlayer.getCurrentTime p) (ts_time event))
          then [call_seekTo (ts_time event)] else [])
      ++ tail
    /\ seeks tail = [].
Proof.
  intros Hp. unfold handleTimeSync, playerTime. rewrite Hp. cbn zeta.
  destruct (PrimFloat.ltb 500 _).
  - rewrite andThen_seekPlayer.
    destruct (seekThrows (ts_time event) w).
    + exists []. split; [|reflexivity].
      now rewrite (playerCalls_seekTo _ _ _ Hp).
    + destruct (seekPlayer_mounted (ts_time event) w p Hp)
        as (p1 & Hp1 & _).
      destruct (matchPeerState_calls event _ p1 Hp1) as (tail & Hc & Ht).
      exists tail. split; [|exact Ht].
      now rewrite Hc, (playerCalls_seekTo _ _ _ Hp), <- app_assoc.
  - cbn [andThen].
    destruct (matchPeerState_calls event w p Hp) as (tail & Hc & Ht).
    exists tail. split; [|exact Ht]. now rewrite Hc.
Qed.

Lemma handleTimeSync_position event w p :
  playerRef w = Some p ->
  PrimFloat.ltb 500 (driftMs (VideoPlayer.getCurrentTime p) (ts_time event))
  = false ->
  videoPosition (handleTimeSync event w) = videoPosition w.
Proof.
  intros Hp Hno. unfold handleTimeSync, playerTime. rewrite Hp, Hno.
  cbn [andThen]. apply videoPosition_matchPeerState.
Qed.

(** A seek the element accepts moves it to the time asked for; one that
    throws leaves it where it was. *)
Lemma videoPosition_seekTo time w p v :
  playerRef w = Some p -> videoRef p = Some v ->
  videoPosition (snd (seekPlayer time w))
  = if PrimFloat.is_finite time then Some time else videoPosition w.
Proof.
  intros Hp Hv. unfold videoPosition at 2. rewrite Hp, Hv.
  destruct (finite time) as [t|] eqn:Ht.
  - rewrite (seekPlayer_finite time t w p v Hp Hv Ht).
    destruct (finite_Some_inv time t Ht) as [Hf Hn]. rewrite Hf.
    unfold videoPosition. simpl. now rewrite Hn.
  - rewrite (seekPlayer_throws time w p v Hp Hv Ht).
    now rewrite (finite_None_inv time Ht).
Qed.

Lemma seeks_app cs cs' : seeks (cs ++ cs') = seeks cs ++ seeks cs'.
Proof. unfold seeks. apply flat_map_app. Qed.

End ReconciliationFacts.

(** *** Playback transitions *)

(** C1, as the code has it.  A [playback_state] event of the peer, received
    on the open channel by a room whose player handle is mounted, makes the
    handler call, on that handle and in this order: [seekTo(time)] then
    [play()] for playing; [pause()] then [seekTo(time)] for paused;
    [seekTo(time)] alone for seeked.  The local playback position is not
    read.  The one thing that enters besides the event is whether the
    element takes the time: when [seekTo] throws, for a time that is not
    finite, the handler ends there, so for playing [play()] is not called.
    After the handler the element stands at the event's time if that is
    finite, and where it stood otherwise. *)
Theorem C1_playback_state_command_order :
  forall (event : SyncEngine.PlaybackStateEvent) (w : WatchRoom.World)
         (ch : SyncEngine.RealtimeChannel) (id : string)
         (p : VideoPlayer.Player),
    SyncEngine.channelRef (WatchRoom.engine w) = Some ch ->
    WatchRoom.identity (WatchRoom.ctx w) = Some id ->
    SyncEngine.ps_sender event <> id ->
    WatchRoom.playerRef w = Some p ->
    let w' := WatchRoom.receive (Some (SyncEngine.playback_state event)) w in
    (SyncEngine.ps_state event = SyncEngine.playing ->
       WatchRoom.issued w w'
       = if WatchRoom.seekThrows (SyncEngine.ps_time event) w
         then [VideoPlayer.call_seekTo (SyncEngine.ps_time event)]
         else [VideoPlayer.call_seekTo (SyncEngine.ps_time event);
               VideoPlayer.call_play]) /\
    (SyncEngine.ps_state event = SyncEngine.paused ->
       WatchRoom.issued w w'
       = [VideoPlayer.call_pause;
          VideoPlayer.call_seekTo (SyncEngine.ps_time event)]) /\
    (SyncEngine.ps_state event = SyncEngine.seeked ->
       WatchRoom.issued w w'
       = [VideoPlayer.call_seekTo (SyncEngine.ps_time event)]) /\
    (PrimFloat.is_finite (SyncEngine.ps_time event) = true ->
       WatchRoom.issued w w' = Protocol.playbackCommands event) /\
    (forall v, VideoPlayer.videoRef p = Some v ->
       WatchRoom.videoPosition w'
       = if PrimFloat.is_finite (SyncEngine.ps_time event)
         then Some (SyncEngine.ps_time event)
         else WatchRoom.videoPosition w).
Proof.
  intros event w ch id p Hch Hid Hne Hp w'.
  assert (Hw' : w' = WatchRoom.handlePlaybackState event w).
  { subst w'.
    now rewrite (receive_peer w ch id (SyncEngine.playback_state event)
                   Hch Hid Hne). }
  pose proof (issued_app _ _ _ (handlePlaybackState_calls_made event w p Hp))
    as Hiss.
  rewrite <- Hw' in Hiss.
  repeat split.
  - intros Hs. rewrite Hiss. now rewrite Hs.
  - intros Hs. rewrite Hiss. now rewrite Hs.
  - intros Hs. rewrite Hiss. now rewrite Hs.
  - intros Hf. rewrite Hiss. unfold Protocol.playbackCommands.
    now rewrite (seekThrows_finite _ w Hf).
  - intros v Hv. rewrite Hw'. unfold WatchRoom.handlePlaybackState.
    rewrite Hp. destruct (SyncEngine.ps_state event).
    + rewrite andThen_seekPlayer.
      pose proof (videoPosition_seekTo (SyncEngine.ps_time event) w p v
                    Hp Hv) as Hpos.
      destruct (WatchRoom.seekThrows (SyncEngine.ps_time event) w);
        [exact Hpos|].
      now rewrite videoPosition_play.
    + rewrite (videoPosition_seekTo (SyncEngine.ps_time event) _
                 (snd (VideoPlayer.pause (WatchRoom.now w)
                         (WatchRoom.timers w) p))
                 (VideoPlayer.video_pause v)).
      * now rewrite videoPosition_pause.
      * now apply onPlayer_mounted.
      * simpl. now rewrite Hv.
    + now apply videoPosition_seekTo with (p := p) (v := v).
Qed.

(** The scenario of the specification: the peer, at 10.0 s, reports playing;
    the player gets [seekTo(10.0)] and then [play()]. *)
Lemma C1_witness :
  WatchRoom.issued Scenario.cloudRoom
    (WatchRoom.receive
       (Some (SyncEngine.playback_state Scenario.peerPlayingAt10))
       Scenario.cloudRoom)
  = [VideoPlayer.call_seekTo 10; VideoPlayer.call_play].
Proof.
  refine (proj1 (proj2 (proj2 (proj2
            (C1_playback_state_command_order Scenario.peerPlayingAt10
               Scenario.cloudRoom
               {| SyncEngine.channelName := "watchroom-v1";
                  SyncEngine.presenceKey := "Manika" |}
               "Manika" Scenario.pausedAt40 _ _ _ _)))) _);
    try reflexivity.
  discriminate.
Defined.

(** The claim as the specification words it fails for a playing event whose
    time is not finite: [seekTo] throws at the element's setter, and the
    handler never gets to [play()]. *)
Lemma C1_counterexample :
  let w' :=
    WatchRoom.receive
      (Some (SyncEngine.playback_state Scenario.peerPlayingAtInfinity))
      Scenario.cloudRoom in
  WatchRoom.issued Scenario.cloudRoom w'
  = [VideoPlayer.call_seekTo infinity] /\
  WatchRoom.issued Scenario.cloudRoom w'
  <> Protocol.playbackCommands Scenario.peerPlayingAtInfinity /\
  WatchRoom.videoPosition w' = Some 40%float.
Proof.
  split; [reflexivity|]. split; [|reflexivity].
  intros H. vm_compute in H. discriminate.
Qed.

(** *** Heartbeats *)

(** C2.  A [time_sync] event of the peer reaches a room with a mounted
    player.  Let the drift be [Math.abs(localTime - event.time) * 1000], the
    binary64 value the handler computes.  If the drift is at most 500 the
    handler issues no seek and leaves the element's position as it was; if
    the drift is above 500 it issues one seek, to the event's time.  The
    threshold is no argument of the handler; it is the literal 500, the
    value of the engine's [DRIFT_TOLERANCE_MS]. *)
Theorem C2_time_sync_drift_tolerance :
  forall (event : SyncEngine.TimeSyncEvent) (w : WatchRoom.World)
         (ch : SyncEngine.RealtimeChannel) (id : string)
         (p : VideoPlayer.Player),
    SyncEngine.channelRef (WatchRoom.engine w) = Some ch ->
    WatchRoom.identity (WatchRoom.ctx w) = Some id ->
    SyncEngine.ts_sender event <> id ->
    WatchRoom.playerRef w = Some p ->
    let drift :=
      WatchRoom.driftMs (VideoPlayer.getCurrentTime p)
        (SyncEngine.ts_time event) in
    let w' := WatchRoom.receive (Some (SyncEngine.time_sync event)) w in
    (PrimFloat.leb drift 500 = true ->
       Protocol.seeks (WatchRoom.issued w w') = [] /\
       WatchRoom.videoPosition w' = WatchRoom.videoPosition w) /\
    (PrimFloat.ltb 500 drift = true ->
       Protocol.seeks (WatchRoom.issued w w') = [SyncEngine.ts_time event]) /\
    PrimFloat.of_uint63 (Uint63.of_Z SyncEngine.DRIFT_TOLERANCE_MS)
    = 500%float.
Proof.
  intros event w ch id p Hch Hid Hne Hp drift w'.
  assert (Hw' : w' = WatchRoom.handleTimeSync event w).
  { subst w'.
    now rewrite (receive_peer w ch id (SyncEngine.time_sync event)
                   Hch Hid Hne). }
  destruct (handleTimeSync_calls event w p Hp) as (tail & Hcalls & Htail).
  fold drift in Hcalls.
  split; [|split].
  - intros Hle. apply leb_not_ltb in Hle. split.
    + rewrite Hw', (issued_app _ _ _ Hcalls), Hle.
      simpl. exact Htail.
    + rewrite Hw'. now apply handleTimeSync_position with p.
  - intros Hgt.
    rewrite Hw', (issued_app _ _ _ Hcalls), Hgt.
    rewrite seeks_app, Htail. reflexivity.
  - reflexivity.
Qed.

(** The scenario of the specification, with the double that 42.3 reads as:
    the player reports 40.0 and the heartbeat 42.3, so one seek to 42.3 is
    issued; a heartbeat at 40.5 is within the tolerance and issues none. *)
Lemma C2_witness :
  Protocol.seeks
    (WatchRoom.issued Scenario.cloudRoom
       (WatchRoom.receive
          (Some (SyncEngine.time_sync Scenario.peerHeartbeat))
          Scenario.cloudRoom))
  = [Scenario.t42_3] /\
  Protocol.seeks
    (WatchRoom.issued Scenario.cloudRoom
       (WatchRoom.receive
          (Some (SyncEngine.time_sync
                   {| SyncEngine.ts_time := 40.5;
                      SyncEngine.ts_state := SyncEngine.hb_playing;
                      SyncEngine.ts_sender := "Aditya";
                      SyncEngine.ts_timestamp := 3000 |}))
          Scenario.cloudRoom))
  = [].
Proof.
  split.
  - refine (proj1 (proj2 (C2_time_sync_drift_tolerance Scenario.peerHeartbeat
                            Scenario.cloudRoom
                            {| SyncEngine.channelName := "watchroom-v1";
                               SyncEngine.presenceKey := "Manika" |}
                            "Manika" Scenario.pausedAt40 _ _ _ _)) _);
      try reflexivity.
    discriminate.
  - refine (proj1 (proj1 (C2_time_sync_drift_tolerance
                            {| SyncEngine.ts_time := 40.5;
                               SyncEngine.ts_state := SyncEngine.hb_playing;
                               SyncEngine.ts_sender := "Aditya";
                               SyncEngine.ts_timestamp := 3000 |}
                            Scenario.cloudRoom
                            {| SyncEngine.channelName := "watchroom-v1";
                               SyncEngine.presenceKey := "Manika" |}
                            "Manika" Scenario.pausedAt40 _ _ _ _) _));
      try reflexivity.
    discriminate.
Defined.

(** *** Buffering coordination *)

(** C4.  On a [buffer_state] event of the peer the room records the peer's
    buffering flag.  If the peer started buffering, the waiting-for-peer
    notice is set and the mounted player is paused.  If the peer's buffering
    ended, the notice is cleared, and the mounted player is told to play
    exactly when the local side is not buffering: while the local side is
    buffering no call at all is made on the player, so [play()] is not. *)
Theorem C4_buffer_state_precedence :
  forall (event : SyncEngine.BufferStateEvent) (w : WatchRoom.World)
         (ch : SyncEngine.RealtimeChannel) (id : string),
    SyncEngine.channelRef (WatchRoom.engine w) = Some ch ->
    WatchRoom.identity (WatchRoom.ctx w) = Some id ->
    SyncEngine.bs_sender event <> id ->
    let w' := WatchRoom.receive (Some (SyncEngine.buffer_state event)) w in
    WatchRoom.peerBuffering (WatchRoom.room w')
    = SyncEngine.bs_isBuffering event /\
    WatchRoom.peerBufferingRef (WatchRoom.room w')
    = SyncEngine.bs_isBuffering event /\
    (SyncEngine.bs_isBuffering event = true ->
       WatchRoom.bufferNotice (WatchRoom.room w')
       = ("Waiting for " ++ SyncEngine.bs_sender event ++ "…")%string /\
       (forall p, WatchRoom.playerRef w = Some p ->
          WatchRoom.issued w w' = [VideoPlayer.call_pause])) /\
    (SyncEngine.bs_isBuffering event = false ->
       WatchRoom.bufferNotice (WatchRoom.room w') = "" /\
       (WatchRoom.localBufferingRef (WatchRoom.room w) = false ->
          forall p, WatchRoom.playerRef w = Some p ->
            WatchRoom.issued w w' = [VideoPlayer.call_play]) /\
       (WatchRoom.localBufferingRef (WatchRoom.room w) = true ->
          WatchRoom.issued w w' = [] /\
          existsb Protocol.isPlayCall (WatchRoom.issued w w') = false /\
          WatchRoom.playerRef w' = WatchRoom.playerRef w)).
Proof.
  intros event w ch id Hch Hid Hne w'.
  assert (Hw' : w' = WatchRoom.handleBufferState event w).
  { subst w'.
    now rewrite (receive_peer w ch id (SyncEngine.buffer_state event)
                   Hch Hid Hne). }
  rewrite Hw'. clear Hw' w'. unfold WatchRoom.handleBufferState.
  destruct (SyncEngine.bs_isBuffering event) eqn:Hb.
  - rewrite !onPlayer_room. simpl.
    repeat split; try discriminate.
    intros p Hp. apply issued_app.
    etransitivity; [apply playerCalls_pause with (p := p); exact Hp|].
    reflexivity.
  - simpl.
    destruct (WatchRoom.localBufferingRef (WatchRoom.room w)) eqn:Hl; simpl.
    + assert (Hnone : WatchRoom.issued w
                (WatchRoom.inRoom (WatchRoom.setBufferNotice "")
                   (WatchRoom.inRoom (WatchRoom.setPeerBuffering false)
                      (WatchRoom.inRoom (WatchRoom.setPeerBufferingRef false)
                         w))) = []) by apply (issued_refl w).
      rewrite Hnone. repeat split; discriminate.
    + rewrite !onPlayer_room. simpl.
      repeat split; try discriminate.
      intros _ p Hp. apply issued_app.
      etransitivity; [apply playerCalls_play with (p := p); exact Hp|].
      reflexivity.
Qed.

(** The peer's buffering ends while the local side is stalled: nothing is
    asked of the player; and once the local side is not stalled, the same
    event resumes playback. *)
Lemma C4_witness :
  (let stalled :=
     WatchRoom.mediaEvent VideoPlayer.ev_waiting Scenario.cloudRoom in
   WatchRoom.issued stalled
     (WatchRoom.receive (Some (SyncEngine.buffer_state Scenario.peerResumes))
        stalled) = []) /\
  WatchRoom.issued Scenario.cloudRoom
    (WatchRoom.receive (Some (SyncEngine.buffer_state Scenario.peerResumes))
       Scenario.cloudRoom) = [VideoPlayer.call_play] /\
  WatchRoom.issued Scenario.cloudRoom
    (WatchRoom.receive (Some (SyncEngine.buffer_state Scenario.peerStalls))
       Scenario.cloudRoom) = [VideoPlayer.call_pause].
Proof.
  pose (chan := {| SyncEngine.channelName := "watchroom-v1";
                   SyncEngine.presenceKey := "Manika" |}).
  split; [|split].
  - refine (proj1 (proj2 (proj2 (proj2 (proj2 (proj2
              (C4_buffer_state_precedence Scenario.peerResumes
                 (WatchRoom.mediaEvent VideoPlayer.ev_waiting
                    Scenario.cloudRoom)
                 chan "Manika" _ _ _))) _)) _));
      try reflexivity.
    discriminate.
  - refine (proj1 (proj2 (proj2 (proj2 (proj2
              (C4_buffer_state_precedence Scenario.peerResumes
                 Scenario.cloudRoom chan "Manika" _ _ _))) _)) _
              Scenario.pausedAt40 _);
      try reflexivity.
    discriminate.
  - refine (proj2 (proj1 (proj2 (proj2
              (C4_buffer_state_precedence Scenario.peerStalls
                 Scenario.cloudRoom chan "Manika" _ _ _))) _)
              Scenario.pausedAt40 _);
      try reflexivity.
    discriminate.
Defined.

(** *** Late join *)

Section CatchUpFacts.
Import SyncEngine VideoPlayer WatchRoom.

Lemma emitted_app w w' (cs : list TransportCall) :
  wire (engine w') = wire (engine w) ++ cs ->
  emitted w w' = flat_map sentOf cs.
Proof. intros H. unfold emitted. now rewrite H, skipn_length_app. Qed.

(** An emitter with a non-empty identity and an open channel puts its event
    on the wire. *)
Lemma withIdentity_open id (mk : string -> SyncEvent) s ch :
  id <> "" -> channelRef s = Some ch ->
  withIdentity (Some id) (fun i => broadcast (mk i)) s
  = transportCall (t_send (channelName ch) (mk id)) s.
Proof.
  intros Hid Hch. unfold withIdentity, broadcast.
  apply truthyString_true in Hid. now rewrite Hid, Hch.
Qed.

Lemma emitPlaybackState_open id now state time s ch :
  id <> "" -> channelRef s = Some ch ->
  emitPlaybackState (Some id) now state time s
  = transportCall
      (t_send (channelName ch)
         (playback_state {| ps_state := state; ps_time := time;
                            ps_sender := id; ps_timestamp := now |})) s.
Proof.
  intros Hid Hch. unfold emitPlaybackState.
  exact (withIdentity_open id
           (fun i => playback_state
                       {| ps_state := state; ps_time := time;
                          ps_sender := i; ps_timestamp := now |})
           s ch Hid Hch).
Qed.

Lemma emitFileHash_open id hash fileName s ch :
  id <> "" -> channelRef s = Some ch ->
  emitFileHash (Some id) hash fileName s
  = transportCall
      (t_send (channelName ch)
         (file_hash {| fh_hash := hash; fh_fileName := fileName;
                       fh_sender := id |})) s.
Proof.
  intros Hid Hch. unfold emitFileHash.
  exact (withIdentity_open id
           (fun i => file_hash
                       {| fh_hash := hash; fh_fileName := fileName;
                          fh_sender := i |})
           s ch Hid Hch).
Qed.

End CatchUpFacts.

(** C6.  A [request_state] event of the peer reaches a room whose player is
    mounted.  The room puts on the wire a [playback_state] event that carries
    the player's current time, state playing when the player is playing and
    paused otherwise, the local identity as sender and the clock reading as
    timestamp.  In local mode with a computed hash it then sends a
    [file_hash] event with the local hash and file name; otherwise it sends
    nothing more. *)
Theorem C6_request_state_answer :
  forall (event : SyncEngine.RequestStateEvent) (w : WatchRoom.World)
         (ch : SyncEngine.RealtimeChannel) (id : string)
         (p : VideoPlayer.Player),
    SyncEngine.channelRef (WatchRoom.engine w) = Some ch ->
    WatchRoom.identity (WatchRoom.ctx w) = Some id ->
    id <> "" ->
    SyncEngine.rs_sender event <> id ->
    WatchRoom.playerRef w = Some p ->
    let w' := WatchRoom.receive (Some (SyncEngine.request_state event)) w in
    let snapshot :=
      SyncEngine.playback_state
        {| SyncEngine.ps_state :=
             if VideoPlayer.isPlaying p
             then SyncEngine.playing else SyncEngine.paused;
           SyncEngine.ps_time := VideoPlayer.getCurrentTime p;
           SyncEngine.ps_sender := id;
           SyncEngine.ps_timestamp := WatchRoom.now w |} in
    (forall f, WatchRoom.localHashed (WatchRoom.ctx w) = Some f ->
       WatchRoom.emitted w w'
       = [snapshot;
          SyncEngine.file_hash
            {| SyncEngine.fh_hash := WatchRoom.lf_hash f;
               SyncEngine.fh_fileName := WatchRoom.lf_name f;
               SyncEngine.fh_sender := id |}]) /\
    (WatchRoom.localHashed (WatchRoom.ctx w) = None ->
       WatchRoom.emitted w w' = [snapshot]).
Proof.
  intros event w ch id p Hch Hid Hid' Hne Hp w' snapshot.
  assert (Hw' : w' = WatchRoom.handleRequestState event w).
  { subst w'.
    now rewrite (receive_peer w ch id (SyncEngine.request_state event)
                   Hch Hid Hne). }
  rewrite Hw'. clear Hw' w'.
  unfold WatchRoom.handleRequestState, WatchRoom.playerTime,
    WatchRoom.playerIsPlaying.
  rewrite Hp. unfold WatchRoom.inEngine. simpl. rewrite Hid.
  rewrite (emitPlaybackState_open id _ _ _ _ ch Hid' Hch).
  split.
  - intros f Hf. rewrite Hf.
    cbn [WatchRoom.withEngine WatchRoom.ctx WatchRoom.engine WatchRoom.now].
    rewrite (emitFileHash_open id _ _ (SyncEngine.transportCall _ _) ch
               Hid' Hch).
    etransitivity;
      [apply emitted_app; simpl; rewrite <- app_assoc; reflexivity|].
    reflexivity.
  - intros Hf. rewrite Hf.
    etransitivity; [apply emitted_app; simpl; reflexivity|].
    reflexivity.
Qed.

(** The scenario of the specification: the peer asks; the room answers with
    its player's time and playing flag, and in local mode with its hash. *)
Lemma C6_witness :
  WatchRoom.emitted Scenario.localRoom
    (WatchRoom.receive (Some (SyncEngine.request_state Scenario.peerAsks))
       Scenario.localRoom)
  = [SyncEngine.playback_state
       {| SyncEngine.ps_state := SyncEngine.paused;
          SyncEngine.ps_time := 40;
          SyncEngine.ps_sender := "Manika";
          SyncEngine.ps_timestamp := 0 |};
     SyncEngine.file_hash
       {| SyncEngine.fh_hash := "def456";
          SyncEngine.fh_fileName := "movie.mp4";
          SyncEngine.fh_sender := "Manika" |}].
Proof.
  refine (proj1 (C6_request_state_answer Scenario.peerAsks Scenario.localRoom
                   {| SyncEngine.channelName := "watchroom-bW92aWU";
                      SyncEngine.presenceKey := "Manika" |}
                   "Manika" Scenario.pausedAt40 _ _ _ _ _)
            {| WatchRoom.lf_name := "movie.mp4"; WatchRoom.lf_size := 1024;
               WatchRoom.lf_objectUrl := "blob:1";
               WatchRoom.lf_hash := "def456" |} _);
    try reflexivity; discriminate.
Defined.

(** *** File identity *)

Section BannerFacts.
Import SyncEngine VideoPlayer WatchRoom EventLoop.

Create HintDb room discriminated.

#[local] Hint Unfold handleBufferState
  handleChatMessage handleChatUiState handleRequestState handleFileHash
  handlePresenceChange handlePlay handlePause handleSeeked
  handleBufferingStart handleBufferingEnd showNotification
  callOpt callOpt0 : room.

Ltac room_crush :=
  repeat first
    [ reflexivity
    | progress rewrite ?onPlayer_room
    | progress autounfold with room
    | progress simpl
    | match goal with
      | |- context [match ?x with _ => _ end] => destruct x eqn:?
      end ].

Lemma hashWarning_dispatch data w :
  Protocol.touchesHashWarning (Receive (Some data)) = false ->
  hashWarning (room (dispatch callbacks data w)) = hashWarning (room w).
Proof.
  destruct data as [e|e|e|e|e|e|e]; simpl; intros Ht; try discriminate;
    unfold callOpt.
  - now rewrite room_handlePlaybackState.
  - unfold handleBufferState. room_crush.
  - now rewrite room_handleTimeSync.
  - reflexivity.
  - reflexivity.
  - unfold handleRequestState. room_crush.
Qed.

Lemma hashWarning_runTask k w :
  hashWarning (room (runTask k w)) = hashWarning (room w).
Proof. destruct k; reflexivity. Qed.

Lemma hashWarning_fire t q w :
  hashWarning (room (fire t q w)) = hashWarning (room w).
Proof.
  revert w. induction q as [|tm q IH]; intros w; simpl.
  - reflexivity.
  - destruct (due tm <=? t); [|reflexivity].
    now rewrite IH, hashWarning_runTask.
Qed.

Lemma hashWarning_step a w :
  Protocol.touchesHashWarning a = false ->
  hashWarning (room (step a w)) = hashWarning (room w).
Proof.
  destruct a as [|status|payload|online key|dt|ev|time| |txt elapsed| |];
    simpl; intros Ht; try discriminate.
  - reflexivity.
  - unfold subscribeStatus, connectedEffect. room_crush.
  - unfold receive.
    destruct (channelRef (engine w)); [|reflexivity].
    destruct (identity (ctx w)) as [id|]; [|reflexivity].
    destruct payload as [data|]; [|reflexivity].
    unfold onBroadcast. destruct (String.eqb (sender data) id);
      [reflexivity|].
    now apply hashWarning_dispatch.
  - unfold presence, onPresence, handlePresenceChange. room_crush.
  - unfold advance. now rewrite hashWarning_fire.
  - unfold mediaEvent, listener. room_crush.
  - unfold videoTime. room_crush.
  - unfold heartbeat. room_crush.
  - reflexivity.
  - reflexivity.
Qed.

Lemma hashWarning_run acts w :
  forallb (fun a => negb (Protocol.touchesHashWarning a)) acts = true ->
  hashWarning (room (run acts w)) = hashWarning (room w).
Proof.
  revert w. induction acts as [|a acts IH]; intros w Hall; simpl in *.
  - reflexivity.
  - apply andb_true_iff in Hall as [Ha Hall].
    apply negb_true_iff in Ha.
    unfold run in *. simpl. rewrite (IH _ Hall).
    now apply hashWarning_step.
Qed.

(** Firing timers never brings a cleared notification back. *)
Lemma notification_runTask_cleared k w :
  notification (room w) = "" -> notification (room (runTask k w)) = "".
Proof. destruct k; simpl; auto. Qed.

Lemma notification_fire_cleared t q w :
  notification (room w) = "" -> notification (room (fire t q w)) = "".
Proof.
  revert w. induction q as [|tm q IH]; intros w Hw; simpl.
  - exact Hw.
  - destruct (due tm <=? t); [|exact Hw].
    apply IH. now apply notification_runTask_cleared.
Qed.

Lemma fire_cons t tm q w :
  fire t (tm :: q) w
  = if due tm <=? t then fire t q (runTask (task tm) w)
    else withTimers (tm :: q) w.
Proof. reflexivity. Qed.

(** A queued [resetNotification] whose deadline has come is run: wherever
    [enqueue] put it, every timer before it is due no later. *)
Lemma notification_fire_enqueued t d q w :
  d <= t ->
  notification
    (room (fire t (enqueue {| due := d; task := resetNotification |} q) w))
  = "".
Proof.
  intros Hd. assert (Hdue : (d <=? t) = true) by now apply Z.leb_le.
  revert w. induction q as [|u q IH]; intros w.
  - simpl. now rewrite Hdue.
  - cbn [enqueue due]. destruct (Z.ltb_spec d (due u)).
    + rewrite fire_cons. cbn [due task]. rewrite Hdue.
      now apply notification_fire_cleared.
    + rewrite fire_cons. destruct (Z.leb_spec (due u) t); [|lia]. apply IH.
Qed.

End BannerFacts.

(** C8.  In local mode with a computed local hash, a [file_hash] event of the
    peer makes no call on the player and leaves the player as it was.  If
    the event's hash equals the local hash, the mismatch warning is cleared
    and the success notice, a non-empty text that names the peer, is shown,
    to be cleared again once 4000 ms have passed.  If the hashes differ,
    the warning is set to a non-empty text;
    no timer is attached to it, and it stays as it is through every run of
    the page that neither presses Dismiss nor receives a further
    [file_hash] event; Dismiss clears it. *)
Theorem C8_file_hash_verdict :
  forall (event : SyncEngine.FileHashEvent) (w : WatchRoom.World)
         (ch : SyncEngine.RealtimeChannel) (id : string)
         (f : WatchRoom.LocalFile),
    SyncEngine.channelRef (WatchRoom.engine w) = Some ch ->
    WatchRoom.identity (WatchRoom.ctx w) = Some id ->
    SyncEngine.fh_sender event <> id ->
    WatchRoom.localHashed (WatchRoom.ctx w) = Some f ->
    let w' := WatchRoom.receive (Some (SyncEngine.file_hash event)) w in
    WatchRoom.issued w w' = [] /\
    WatchRoom.playerRef w' = WatchRoom.playerRef w /\
    (SyncEngine.fh_hash event = WatchRoom.lf_hash f ->
       WatchRoom.hashWarning (WatchRoom.room w') = "" /\
       WatchRoom.notification (WatchRoom.room w')
       = WatchRoom.verifiedNotice event /\
       WatchRoom.verifiedNotice event <> "" /\
       WatchRoom.notification (WatchRoom.room w') <> "" /\
       (forall dt, 4000 <= dt ->
          WatchRoom.notification (WatchRoom.room (WatchRoom.advance dt w'))
          = "")) /\
    (SyncEngine.fh_hash event <> WatchRoom.lf_hash f ->
       WatchRoom.hashWarning (WatchRoom.room w')
       = WatchRoom.mismatchWarning event /\
       WatchRoom.mismatchWarning event <> "" /\
       WatchRoom.timers w' = WatchRoom.timers w /\
       (forall acts,
          forallb (fun a => negb (Protocol.touchesHashWarning a)) acts = true ->
          WatchRoom.hashWarning (WatchRoom.room (WatchRoom.run acts w'))
          = WatchRoom.mismatchWarning event) /\
       WatchRoom.hashWarning
         (WatchRoom.room (WatchRoom.step WatchRoom.DismissHashWarning w'))
       = "").
Proof.
  intros event w ch id f Hch Hid Hne Hf w'.
  assert (Hw' : w' = WatchRoom.handleFileHash event w).
  { subst w'.
    now rewrite (receive_peer w ch id (SyncEngine.file_hash event)
                   Hch Hid Hne). }
  rewrite Hw'. clear Hw' w'. unfold WatchRoom.handleFileHash. rewrite Hf.
  destruct (String.eqb_spec (SyncEngine.fh_hash event) (WatchRoom.lf_hash f))
    as [Heq|Hdiff]; simpl negb; cbv iota.
  - split; [apply (issued_refl w)|]. split; [reflexivity|].
    split; [|intros Hx; contradiction].
    intros _. split; [reflexivity|]. split; [reflexivity|].
    split; [discriminate|]. split; [discriminate|].
    intros dt Hdt. unfold WatchRoom.advance, WatchRoom.showNotification.
    cbn [WatchRoom.timers WatchRoom.withTimers WatchRoom.now WatchRoom.inRoom
         WatchRoom.withRoom].
    unfold EventLoop.setTimeout.
    apply notification_fire_enqueued. lia.
  - split; [apply (issued_refl w)|]. split; [reflexivity|].
    split; [intros Hx; contradiction|].
    intros _. split; [reflexivity|]. split; [discriminate|].
    split; [reflexivity|]. split; [|reflexivity].
    intros acts Hacts. now rewrite hashWarning_run.
Qed.

(** The scenario of the specification: the peer's hash abc123 against the
    stored def456 sets the warning, and it is still there after the peer
    has left, a chat message has come in and a minute has passed.  The
    peer's hash def456 then clears the warning and shows the success
    notice, which is gone 4 s later. *)
Lemma C8_witness :
  let w' :=
    WatchRoom.receive (Some (SyncEngine.file_hash (Scenario.peerHash "abc123")))
      Scenario.localRoom in
  WatchRoom.hashWarning
    (WatchRoom.room
       (WatchRoom.run
          [WatchRoom.Presence false "Aditya";
           WatchRoom.Receive
             (Some (SyncEngine.chat_message Scenario.peerSaysHi));
           WatchRoom.Advance 60000] w'))
  = WatchRoom.mismatchWarning (Scenario.peerHash "abc123") /\
  WatchRoom.hashWarning
    (WatchRoom.room
       (WatchRoom.receive
          (Some (SyncEngine.file_hash (Scenario.peerHash "def456")))
          w')) = "" /\
  WatchRoom.notification
    (WatchRoom.room
       (WatchRoom.receive
          (Some (SyncEngine.file_hash (Scenario.peerHash "def456")))
          w')) = "✅ File verified — same file as Aditya" /\
  WatchRoom.notification
    (WatchRoom.room
       (WatchRoom.advance 4000
          (WatchRoom.receive
             (Some (SyncEngine.file_hash (Scenario.peerHash "def456")))
             w'))) = "".
Proof.
  pose (chan := {| SyncEngine.channelName := "watchroom-bW92aWU";
                   SyncEngine.presenceKey := "Manika" |}).
  pose (file := {| WatchRoom.lf_name := "movie.mp4"; WatchRoom.lf_size := 1024;
                   WatchRoom.lf_objectUrl := "blob:1";
                   WatchRoom.lf_hash := "def456" |}).
  split; [|split; [|split]].
  - refine (proj1 (proj2 (proj2 (proj2
              (proj2 (proj2 (proj2
                 (C8_file_hash_verdict (Scenario.peerHash "abc123")
                    Scenario.localRoom chan "Manika" file _ _ _ _))) _))))
              [WatchRoom.Presence false "Aditya";
               WatchRoom.Receive
                 (Some (SyncEngine.chat_message Scenario.peerSaysHi));
               WatchRoom.Advance 60000] _);
      try reflexivity; discriminate.
  - refine (proj1
              (proj1 (proj2 (proj2
                 (C8_file_hash_verdict (Scenario.peerHash "def456")
                    (WatchRoom.receive
                       (Some (SyncEngine.file_hash
                                (Scenario.peerHash "abc123")))
                       Scenario.localRoom)
                    chan "Manika" file _ _ _ _))) _));
      try reflexivity; discriminate.
  - refine (proj1 (proj2
              (proj1 (proj2 (proj2
                 (C8_file_hash_verdict (Scenario.peerHash "def456")
                    (WatchRoom.receive
                       (Some (SyncEngine.file_hash
                                (Scenario.peerHash "abc123")))
                       Scenario.localRoom)
                    chan "Manika" file _ _ _ _))) _)));
      try reflexivity; discriminate.
  - refine (proj2 (proj2 (proj2 (proj2
              (proj1 (proj2 (proj2
                 (C8_file_hash_verdict (Scenario.peerHash "def456")
                    (WatchRoom.receive
                       (Some (SyncEngine.file_hash
                                (Scenario.peerHash "abc123")))
                       Scenario.localRoom)
                    chan "Manika" file _ _ _ _))) _))))
              4000 _);
      try reflexivity; discriminate.
Defined.

(** *** Repeated delivery *)

Section DeliveryFacts.
Import SyncEngine VideoPlayer WatchRoom.

Lemma room_handleRequestState e w : room (handleRequestState e w) = room w.
Proof.
  unfold handleRequestState. destruct (playerRef w); [|reflexivity].
  cbn zeta. destruct (localHashed _); reflexivity.
Qed.


Lemma room_handleFileHash e w :
  room (handleFileHash e w)
  = match localHashed (ctx w) with
    | Some f =>
        if negb (String.eqb (fh_hash e) (lf_hash f))
        then setHashWarning (mismatchWarning e) (room w)
        else setNotification (verifiedNotice e) (setHashWarning "" (room w))
    | None => room w
    end.
Proof.
  unfold handleFileHash. destruct (localHashed (ctx w)); [|reflexivity].
  destruct (negb _); reflexivity.
Qed.

Lemma ctx_handleFileHash e w : ctx (handleFileHash e w) = ctx w.
Proof.
  unfold handleFileHash. destruct (localHashed (ctx w)); [|reflexivity].
  destruct (negb _); reflexivity.
Qed.



End DeliveryFacts.

Section RepeatedDelivery.
Import SyncEngine VideoPlayer WatchRoom.
















End RepeatedDelivery.




(** *** Echo suppression *)

Section SuppressionFacts.
Import SyncEngine VideoPlayer WatchRoom EventLoop Protocol.

Lemma Forall_enqueue (P : Timer -> Prop) tm q :
  P tm -> Forall P q -> Forall P (enqueue tm q).
Proof.
  intros Htm Hq. induction Hq as [|u q Hu Hq IH]; simpl.
  - now constructor.
  - destruct (due tm <? due u); repeat constructor; assumption.
Qed.

(** While only other timers come due, the flag stays set and the engine and
    the element are not touched. *)
Lemma fire_keeps_suppress t q w p :
  playerRef w = Some p -> suppressEventsRef p = true ->
  noResetBefore (t + 1) q ->
  exists p', playerRef (fire t q w) = Some p' /\
             suppressEventsRef p' = true /\
             videoRef p' = videoRef p /\
             engine (fire t q w) = engine w.
Proof.
  intros Hp Hs Hq. revert w p Hp Hs.
  induction Hq as [|tm q Htm Hq IH]; intros w p Hp Hs.
  - exists p. simpl. auto.
  - rewrite fire_cons. destruct (Z.leb_spec (due tm) t) as [Hdue|Hdue].
    + destruct (task tm) eqn:Hk.
      * specialize (Htm eq_refl). lia.
      * destruct (IH (runTask resetNotification w) p Hp Hs)
          as (p' & H1 & H2 & H3 & H4).
        exists p'. auto.
    + exists p. simpl. auto.
Qed.

(** Each method of the handle sets the flag on a player that has its
    element and leaves the engine alone.  It queues its own reset, unless
    it is a [seekTo] that throws: that one queues none. *)
Lemma perform_sets_flag c w p v :
  playerRef w = Some p -> videoRef p = Some v ->
  exists p' v',
    playerRef (perform c w) = Some p' /\ videoRef p' = Some v' /\
    suppressEventsRef p' = true /\
    (timers (perform c w)
     = setTimeout (now w) (suppressionWindow c) resetSuppressEvents (timers w)
     \/ timers (perform c w) = timers w)
    /\ now (perform c w) = now w /\ engine (perform c w) = engine w.
Proof.
  intros Hp Hv.
  destruct c as [| |time].
  - unfold perform, onPlayer; rewrite Hp; unfold VideoPlayer.play;
      rewrite ?Hv; simpl; rewrite ?Hv; simpl;
      do 2 eexists; repeat split; try reflexivity; now left.
  - unfold perform, onPlayer; rewrite Hp; unfold VideoPlayer.pause;
      rewrite ?Hv; simpl; rewrite ?Hv; simpl;
      do 2 eexists; repeat split; try reflexivity; now left.
  - unfold perform. destruct (finite time) as [t|] eqn:Ht.
    + rewrite (seekPlayer_finite time t w p v Hp Hv Ht). simpl.
      do 2 eexists; repeat split; try reflexivity; now left.
    + rewrite (seekPlayer_throws time w p v Hp Hv Ht). simpl.
      do 2 eexists; repeat split; try reflexivity; now right.
Qed.

(** With the flag set, the listeners of the three echo events call
    nothing. *)
Lemma mediaEvent_suppressed ev w p :
  playerRef w = Some p -> suppressEventsRef p = true ->
  isEcho ev = true -> mediaEvent ev w = w.
Proof.
  intros Hp Hs Hev. unfold mediaEvent. rewrite Hp.
  destruct (videoRef p); [|reflexivity].
  unfold listener. rewrite Hs. destruct ev; try discriminate; reflexivity.
Qed.

(** A command with no other reset pending inside its window does keep the
    echo callbacks quiet for the whole window. *)
Lemma lone_command_suppresses c w p v dt ev :
  playerRef w = Some p -> videoRef p = Some v ->
  noResetBefore (now w + suppressionWindow c) (timers w) ->
  0 <= dt < suppressionWindow c ->
  isEcho ev = true ->
  emitted w (mediaEvent ev (advance dt (perform c w))) = [].
Proof.
  intros Hp Hv Hq Hdt Hev.
  destruct (perform_sets_flag c w p v Hp Hv)
    as (p1 & v1 & Hp1 & Hv1 & Hs1 & Hq1 & Hn1 & He1).
  unfold advance. rewrite Hn1.
  assert (Hw : noResetBefore (now w + Z.max 0 dt + 1) (timers w)).
  { eapply Forall_impl; [|exact Hq]. simpl. intros tm H Hk.
    specialize (H Hk). lia. }
  assert (Hno : noResetBefore (now w + Z.max 0 dt + 1)
                  (timers (perform c w))).
  { destruct Hq1 as [-> | ->]; [|exact Hw].
    apply Forall_enqueue; [|exact Hw]. simpl. intros _. lia. }
  destruct (fire_keeps_suppress (now w + Z.max 0 dt) _
              (withNow (now w + Z.max 0 dt) (perform c w)) p1 Hp1 Hs1 Hno)
    as (p2 & Hp2 & Hs2 & Hv2 & He2).
  rewrite (mediaEvent_suppressed ev _ p2 Hp2 Hs2 Hev).
  unfold emitted. rewrite He2. simpl. rewrite He1.
  now rewrite skipn_length_self.
Qed.

End SuppressionFacts.

(** C9, at the failing input.  The room has paused its player for the
    stalled peer; 150 ms later the peer's seek arrives and the room calls
    [seekTo(42)]; 50 ms after that the reset queued by the earlier [pause()]
    comes due and clears the one flag the two commands share.  The seeked
    event the element fires 60 ms after the seek then finds the flag clear:
    [onSeeked] is called and the remote seek goes out again as the room's
    own [playback_state]. *)
Theorem C9_earlier_reset_ends_suppression :
  let w1 :=
    WatchRoom.run
      [WatchRoom.Receive (Some (SyncEngine.buffer_state Scenario.peerStalls));
       WatchRoom.Advance 150;
       WatchRoom.Receive
         (Some (SyncEngine.playback_state Scenario.peerSeekedTo42))]
      Scenario.cloudRoom in
  let w2 := WatchRoom.step (WatchRoom.Advance 60) w1 in
  let w3 := WatchRoom.step (WatchRoom.Media VideoPlayer.ev_seeked) w2 in
  WatchRoom.issued Scenario.cloudRoom w1
  = [VideoPlayer.call_pause; VideoPlayer.call_seekTo 42] /\
  WatchRoom.now w1 = 150 /\
  option_map VideoPlayer.suppressEventsRef (WatchRoom.playerRef w1)
  = Some true /\
  WatchRoom.now w2 = 210 /\
  option_map VideoPlayer.suppressEventsRef (WatchRoom.playerRef w2)
  = Some false /\
  WatchRoom.emitted w2 w3
  = [SyncEngine.playback_state
       {| SyncEngine.ps_state := SyncEngine.seeked;
          SyncEngine.ps_time := 42;
          SyncEngine.ps_sender := "Manika";
          SyncEngine.ps_timestamp := 210 |}].
Proof. repeat split; reflexivity. Qed.

(** The same within one handler: for a paused event the handler calls
    [pause()] and then [seekTo], and the reset of [pause()] clears the flag
    200 ms later, 100 ms before the reset of [seekTo] is due. *)
Lemma paused_event_seek_window_cut_short :
  let w1 :=
    WatchRoom.receive
      (Some (SyncEngine.playback_state
               {| SyncEngine.ps_state := SyncEngine.paused;
                  SyncEngine.ps_time := 42;
                  SyncEngine.ps_sender := "Aditya";
                  SyncEngine.ps_timestamp := 1000 |}))
      Scenario.cloudRoom in
  let w2 := WatchRoom.advance 200 w1 in
  map EventLoop.due (WatchRoom.timers w1) = [200; 300] /\
  option_map VideoPlayer.suppressEventsRef (WatchRoom.playerRef w2)
  = Some false /\
  map EventLoop.due (WatchRoom.timers w2) = [300].
Proof. repeat split; reflexivity. Qed.

(** ** Room key derivation *)

Section RoomKeyFacts.
Import LocalFileSelector.
Local Open Scope N_scope.

Ltac ncases :=
  repeat (match goal with
          | |- context [N.leb ?x ?y] => destruct (N.leb_spec x y)
          | |- context [N.eqb ?x ?y] => destruct (N.eqb_spec x y)
          end; try (exfalso; lia); simpl).

Lemma isUpperLatin1_range c :
  isUpperLatin1 c = true ->
  65 <= c <= 90 \/ (192 <= c <= 222 /\ c <> 215).
Proof.
  unfold isUpperLatin1, between.
  ncases; intros Hup; try discriminate Hup; lia.
Qed.

Lemma letters_not_whiteSpace c :
  65 <= c <= 254 -> c <> 160 -> isWhiteSpace c = false.
Proof.
  intros Hc Hn. unfold isWhiteSpace, between. ncases. reflexivity.
Qed.

Lemma lowerUnit_upper c : isUpperLatin1 c = true -> lowerUnit c = c + 32.
Proof. unfold lowerUnit. now intros ->. Qed.

Lemma lowerUnit_lowered c :
  isUpperLatin1 c = true -> lowerUnit (c + 32) = c + 32.
Proof.
  intros Hc. apply isUpperLatin1_range in Hc.
  unfold lowerUnit, isUpperLatin1, between. ncases; reflexivity.
Qed.

(** The two cases of a letter lower to the same code unit, and neither is
    white space. *)
Lemma sameLetter_lower a b :
  sameLetter a b = true -> lowerUnit a = lowerUnit b.
Proof.
  unfold sameLetter. intros H.
  apply orb_true_iff in H as [H|H]; [apply orb_true_iff in H as [H|H]|].
  - apply N.eqb_eq in H. now subst.
  - apply andb_true_iff in H as [Hu He]. apply N.eqb_eq in He. subst b.
    now rewrite lowerUnit_lowered, lowerUnit_upper.
  - apply andb_true_iff in H as [Hu He]. apply N.eqb_eq in He. subst a.
    now rewrite lowerUnit_lowered, lowerUnit_upper.
Qed.

Lemma sameLetter_whiteSpace a b :
  sameLetter a b = true -> isWhiteSpace a = isWhiteSpace b.
Proof.
  unfold sameLetter. intros H.
  assert (Hup : forall c, isUpperLatin1 c = true ->
                  isWhiteSpace c = false /\ isWhiteSpace (c + 32) = false).
  { intros c Hc. apply isUpperLatin1_range in Hc.
    split; apply letters_not_whiteSpace; lia. }
  apply orb_true_iff in H as [H|H]; [apply orb_true_iff in H as [H|H]|].
  - apply N.eqb_eq in H. now subst.
  - apply andb_true_iff in H as [Hu He]. apply N.eqb_eq in He. subst b.
    destruct (Hup a Hu) as [-> ->]. reflexivity.
  - apply andb_true_iff in H as [Hu He]. apply N.eqb_eq in He. subst a.
    destruct (Hup b Hu) as [-> ->]. reflexivity.
Qed.

Lemma trimStart_alike s1 s2 :
  Forall2 (fun a b => sameLetter a b = true) s1 s2 ->
  Forall2 (fun a b => sameLetter a b = true) (trimStart s1) (trimStart s2).
Proof.
  induction 1 as [|a b s1 s2 Hab Hs IH]; simpl.
  - constructor.
  - rewrite (sameLetter_whiteSpace a b Hab).
    destruct (isWhiteSpace b); [exact IH|now constructor].
Qed.

Lemma trimEnd_alike s1 s2 :
  Forall2 (fun a b => sameLetter a b = true) s1 s2 ->
  Forall2 (fun a b => sameLetter a b = true) (trimEnd s1) (trimEnd s2).
Proof.
  induction 1 as [|a b s1 s2 Hab Hs IH]; simpl.
  - constructor.
  - rewrite (sameLetter_whiteSpace a b Hab).
    destruct IH as [|a' b' t1 t2 Hab' Ht].
    + destruct (isWhiteSpace b); repeat constructor; assumption.
    + repeat constructor; assumption.
Qed.

Lemma toLowerCase_alike s1 s2 :
  Forall2 (fun a b => sameLetter a b = true) s1 s2 ->
  toLowerCase s1 = toLowerCase s2.
Proof.
  unfold toLowerCase.
  induction 1 as [|a b s1 s2 Hab Hs IH]; simpl; [reflexivity|].
  now rewrite IH, (sameLetter_lower a b Hab).
Qed.

Lemma trimStart_padding l s :
  allWhiteSpace l -> trimStart (l ++ s) = trimStart s.
Proof.
  induction 1 as [|c l Hc Hl IH]; simpl; [reflexivity|]. now rewrite Hc.
Qed.

Lemma trimEnd_allWhiteSpace r : allWhiteSpace r -> trimEnd r = [].
Proof.
  induction 1 as [|c r Hc Hr IH]; simpl; [reflexivity|]. now rewrite IH, Hc.
Qed.

Lemma trimEnd_padding s r :
  allWhiteSpace r -> trimEnd (s ++ r) = trimEnd s.
Proof.
  intros Hr. induction s as [|c s IH]; simpl.
  - now apply trimEnd_allWhiteSpace.
  - now rewrite IH.
Qed.

Lemma trimStart_allWhiteSpace r : allWhiteSpace r -> trimStart r = [].
Proof.
  induction 1 as [|c r Hc Hr IH]; simpl; [reflexivity|]. now rewrite Hc.
Qed.

Lemma trim_right_padding s r : allWhiteSpace r -> trim (s ++ r) = trim s.
Proof.
  intros Hr. unfold trim. induction s as [|c s IH]; simpl.
  - now rewrite (trimStart_allWhiteSpace r Hr).
  - destruct (isWhiteSpace c); [exact IH|].
    change (c :: s ++ r) with ((c :: s) ++ r).
    now apply trimEnd_padding.
Qed.

(** White space around a name does not reach the key. *)
Lemma trim_padding l s r :
  allWhiteSpace l -> allWhiteSpace r -> trim (l ++ s ++ r) = trim s.
Proof.
  intros Hl Hr. unfold trim. rewrite (trimStart_padding l _ Hl).
  now apply trim_right_padding.
Qed.

Lemma roomId_normalizes n1 n2 :
  sameUpToCaseAndPadding n1 n2 -> roomId n1 = roomId n2.
Proof.
  intros (l1 & c1 & r1 & l2 & c2 & r2 & -> & -> & Hl1 & Hr1 & Hl2 & Hr2 & Hc).
  unfold roomId. rewrite !trim_padding by assumption.
  unfold trim.
  now rewrite (toLowerCase_alike _ _
                 (trimEnd_alike _ _ (trimStart_alike _ _ Hc))).
Qed.

Lemma handleStartWatching_roomId file n lf rid :
  handleStartWatching (Some file) n = setLocalFile lf rid ->
  roomId n = Some rid.
Proof.
  unfold handleStartWatching.
  destruct (trim n); [discriminate|].
  destruct (pf_digest file); [|discriminate].
  destruct (roomId n); [|discriminate].
  intros H. now inversion H.
Qed.

End RoomKeyFacts.

(** C10.  When [handleStartWatching] opens a room, its key is the base64
    text of the trimmed, lower-cased name with every character outside
    a-z, A-Z, 0-9 deleted; the key is a function of the name alone.  Two
    names that differ only in the case of letters or in the white space
    around them get the same key, and with it the same channel name.  The
    derivation is not injective beyond that: two different names, both
    already trimmed and in lower case, whose base64 texts differ only in a
    deleted character, get the same key. *)
Theorem C10_room_key_normalizes :
  (forall file n lf rid,
      LocalFileSelector.handleStartWatching (Some file) n
      = LocalFileSelector.setLocalFile lf rid ->
      Some rid
      = option_map LocalFileSelector.stripNonAlnum
          (LocalFileSelector.btoa
             (LocalFileSelector.toLowerCase (LocalFileSelector.trim n)))) /\
  (forall n1 n2,
      LocalFileSelector.sameUpToCaseAndPadding n1 n2 ->
      LocalFileSelector.roomId n1 = LocalFileSelector.roomId n2 /\
      (forall file1 file2 lf1 lf2 rid1 rid2 id1 id2,
          LocalFileSelector.handleStartWatching (Some file1) n1
          = LocalFileSelector.setLocalFile lf1 rid1 ->
          LocalFileSelector.handleStartWatching (Some file2) n2
          = LocalFileSelector.setLocalFile lf2 rid2 ->
          rid1 = rid2 /\
          LocalFileSelector.channelOf
            (LocalFileSelector.roomContext id1 lf1 rid1)
          = LocalFileSelector.channelOf
              (LocalFileSelector.roomContext id2 lf2 rid2))) /\
  (exists n1 n2,
      n1 <> n2 /\
      LocalFileSelector.toLowerCase (LocalFileSelector.trim n1) = n1 /\
      LocalFileSelector.toLowerCase (LocalFileSelector.trim n2) = n2 /\
      LocalFileSelector.btoa n1 <> LocalFileSelector.btoa n2 /\
      LocalFileSelector.roomId n1 = Some "YWI" /\
      LocalFileSelector.roomId n2 = Some "YWI").
Proof.
  split; [|split].
  - intros file n lf rid H.
    apply handleStartWatching_roomId in H. now rewrite <- H.
  - intros n1 n2 Hsame.
    pose proof (roomId_normalizes n1 n2 Hsame) as Hkey.
    split; [exact Hkey|].
    intros file1 file2 lf1 lf2 rid1 rid2 id1 id2 H1 H2.
    apply handleStartWatching_roomId in H1, H2.
    assert (rid1 = rid2) by congruence. subst rid2.
    split; reflexivity.
  - exists (LocalFileSelector.units "ab>"), (LocalFileSelector.units "ab?").
    repeat split; try reflexivity; discriminate.
Qed.

(** Two spellings of one room name give one key. *)
Lemma C10_witness :
  LocalFileSelector.roomId (LocalFileSelector.units "  Naruto-Ep1 ")
  = LocalFileSelector.roomId (LocalFileSelector.units "naruto-ep1").
Proof.
  refine (proj1 (proj1 (proj2 C10_room_key_normalizes)
                   (LocalFileSelector.units "  Naruto-Ep1 ")
                   (LocalFileSelector.units "naruto-ep1") _)).
  exists (LocalFileSelector.units "  "),
         (LocalFileSelector.units "Naruto-Ep1"),
         (LocalFileSelector.units " "),
         [], (LocalFileSelector.units "naruto-ep1"), [].
  repeat split; repeat constructor.
Defined.

(** ** The handlers while no player is mounted

    The theorems on [playback_state], [time_sync] and [request_state] above
    are about a room whose player handle is mounted.  Before the player is
    mounted each of these handlers returns at its null check: the event is
    dropped, with no call, no emit and no change of state. *)
Lemma handlers_without_player :
  forall (w : WatchRoom.World),
    WatchRoom.playerRef w = None ->
    (forall e, WatchRoom.handlePlaybackState e w = w) /\
    (forall e, WatchRoom.handleTimeSync e w = w) /\
    (forall e, WatchRoom.handleRequestState e w = w) /\
    (forall e, WatchRoom.issued w (WatchRoom.handleBufferState e w) = []).
Proof.
  intros w Hp. repeat split; intros e.
  - unfold WatchRoom.handlePlaybackState. now rewrite Hp.
  - unfold WatchRoom.handleTimeSync. now rewrite Hp.
  - unfold WatchRoom.handleRequestState. now rewrite Hp.
  - unfold WatchRoom.handleBufferState. cbn zeta.
    destruct (SyncEngine.bs_isBuffering e).
    + rewrite onPlayer_unmounted by exact Hp. apply (issued_refl w).
    + destruct (negb _); rewrite ?onPlayer_unmounted by exact Hp;
        apply (issued_refl w).
Qed.

(** ** Reachable rooms

    The theorems above take an open channel together with a non-empty
    identity.  That is how every room stands that was reached from a fresh
    one: the context never changes, and the channel is only ever opened by
    the subscription effect, past its guard on the identity. *)

Section ReachableFacts.
Import SyncEngine VideoPlayer WatchRoom EventLoop.

Lemma emit_keeps_channel (i : Identity) (n : Z) (c : EmitCall) (s : Engine) :
  channelRef (emit i n c s) = channelRef s.
Proof.
  assert (Hb : forall ev, channelRef (broadcast ev s) = channelRef s).
  { intros ev. unfold broadcast.
    destruct (channelRef s) eqn:Hch; simpl; auto. }
  assert (Hw : forall mk,
             channelRef (withIdentity i (fun x => broadcast (mk x)) s)
             = channelRef s).
  { intros mk. unfold withIdentity. destruct i as [x|]; [|auto].
    destruct (truthyString x); [apply Hb|auto]. }
  destruct c; simpl;
    unfold emitPlaybackState, emitBufferState, emitTimeSync,
      emitChatMessage, emitChatUiState, requestCurrentState, emitFileHash;
    apply Hw.
Qed.

Lemma guards_onPlayer m w : guards (onPlayer m w) = guards w.
Proof. unfold guards. now rewrite onPlayer_engine, onPlayer_ctx. Qed.

Lemma guards_inRoom f w : guards (inRoom f w) = guards w.
Proof. reflexivity. Qed.

Lemma guards_emit i n c w : guards (inEngine (emit i n c) w) = guards w.
Proof.
  unfold guards, inEngine. cbn [engine ctx withEngine].
  now rewrite emit_keeps_channel.
Qed.

Lemma guards_showNotification msg w :
  guards (showNotification msg w) = guards w.
Proof. reflexivity. Qed.

Lemma guards_fire t q w : guards (fire t q w) = guards w.
Proof.
  revert w. induction q as [|tm q IH]; intros w.
  - reflexivity.
  - rewrite fire_cons. destruct (due tm <=? t)%Z; [|reflexivity].
    rewrite IH. destruct (task tm); reflexivity.
Qed.

Lemma guards_dispatch data w : guards (dispatch callbacks data w) = guards w.
Proof.
  destruct data as [e|e|e|e|e|e|e];
    cbn [dispatch callbacks onPlaybackState onBufferState onTimeSync
         onChatMessage onChatUiState onRequestState onFileHash callOpt].
  - unfold guards.
    now destruct (handlePlaybackState_frame e w) as (_ & -> & -> & _).
  - unfold handleBufferState. cbn zeta.
    destruct (bs_isBuffering e); [|destruct (negb _)];
      now rewrite ?guards_onPlayer.
  - unfold guards.
    now destruct (handleTimeSync_frame e w) as (_ & -> & -> & _).
  - reflexivity.
  - reflexivity.
  - unfold handleRequestState. destruct (playerRef w); [|reflexivity].
    cbn zeta.
    change (emitPlaybackState ?i ?n ?st ?t)
      with (emit i n (call_emitPlaybackState st t)).
    destruct (localHashed _); [|apply guards_emit].
    change (emitFileHash ?i ?h ?n) with (emit i 0 (call_emitFileHash h n)).
    now rewrite !guards_emit.
  - unfold handleFileHash. destruct (localHashed (ctx w)); [|reflexivity].
    destruct (negb _); reflexivity.
Qed.

(** Every step but [Subscribe] keeps the channel reference and the
    context. *)
Lemma guards_step a w : a <> Subscribe -> guards (step a w) = guards w.
Proof.
  destruct a as [|status|payload|online key|dt|ev|time| |txt elapsed| |];
    simpl; intros Hne.
  - congruence.
  - unfold subscribeStatus.
    destruct (lastChannel (wire (engine w))) as [channel|]; [|reflexivity].
    cbn zeta.
    assert (H1 : guards (inEngine (onSubscribeStatus channel status) w)
                 = guards w).
    { unfold guards, inEngine, onSubscribeStatus. cbn [engine ctx withEngine].
      destruct (String.eqb status "SUBSCRIBED"); reflexivity. }
    destruct (_ && _); [|exact H1].
    unfold connectedEffect.
    destruct (connected _); [|exact H1].
    destruct (localHashed _).
    + change (requestCurrentState ?i)
        with (emit i 0 call_requestCurrentState).
      change (emitFileHash ?i ?h ?n) with (emit i 0 (call_emitFileHash h n)).
      now rewrite !guards_emit.
    + destruct (mode _) as [[|]|]; try exact H1.
      change (requestCurrentState ?i)
        with (emit i 0 call_requestCurrentState).
      now rewrite guards_emit.
  - unfold receive.
    destruct (channelRef (engine w)); [|reflexivity].
    destruct (identity (ctx w)) as [id|]; [|reflexivity].
    destruct payload as [data|]; [|reflexivity].
    unfold onBroadcast. destruct (String.eqb (sender data) id);
      [reflexivity|apply guards_dispatch].
  - unfold presence.
    destruct (channelRef (engine w)); [|reflexivity].
    destruct (identity (ctx w)) as [id|]; [|reflexivity].
    unfold onPresence. destruct (negb _); [|reflexivity].
    cbn [callOpt callbacks onPresenceChange]. unfold handlePresenceChange.
    cbn zeta. destruct (pr_online _); reflexivity.
  - unfold advance. now rewrite guards_fire.
  - unfold mediaEvent. destruct (playerRef w) as [p|]; [|reflexivity].
    destruct (videoRef p) as [v|]; [|reflexivity].
    unfold listener, props, handlePlay, handlePause, handleSeeked,
      handleBufferingStart, handleBufferingEnd.
    cbn [onPlay onPause onSeeked onBufferingStart onBufferingEnd callOpt
         callOpt0]. cbn zeta.
    change (emitPlaybackState ?i ?n ?st ?t)
      with (emit i n (call_emitPlaybackState st t)).
    change (emitBufferState ?i ?n ?b) with (emit i n (call_emitBufferState b)).
    destruct ev; try destruct (negb _); rewrite ?guards_emit; reflexivity.
  - unfold videoTime. destruct (playerRef w); reflexivity.
  - unfold heartbeat. destruct (playerRef w); [|reflexivity]. cbn zeta.
    destruct (playerIsPlaying w); [|reflexivity].
    change (emitTimeSync ?i ?n ?t ?st)
      with (emit i n (call_emitTimeSync t st)).
    apply guards_emit.
  - unfold handleSendMessage. cbn zeta.
    change (emitChatMessage ?i ?n ?t) with (emit i n (call_emitChatMessage t)).
    rewrite guards_inRoom.
    change (guards (withNow ?t ?w')) with (guards w'). apply guards_emit.
  - unfold handleChatToggle. cbn zeta.
    change (emitChatUiState ?i ?b) with (emit i 0 (call_emitChatUiState b)).
    now rewrite guards_emit.
  - reflexivity.
Qed.

Lemma step_channel_has_identity a w :
  (forall ch, channelRef (engine w) = Some ch ->
              truthyIdentity (identity (ctx w)) = true) ->
  forall ch, channelRef (engine (step a w)) = Some ch ->
             truthyIdentity (identity (ctx (step a w))) = true.
Proof.
  intros Inv ch Hch.
  assert (Hsub : a = Subscribe \/ a <> Subscribe)
    by (destruct a; (now left) || (right; discriminate)).
  destruct Hsub as [->|Hne].
  - simpl in *. unfold subscribe, inEngine, subscriptionEffect in *.
    cbn [engine ctx withEngine] in *.
    destruct (identity (ctx w)) as [id|]; [|now apply Inv with ch].
    simpl. destruct (truthyString id) eqn:Ht; [reflexivity|].
    rewrite orb_true_r in Hch. specialize (Inv ch Hch). simpl in Inv.
    congruence.
  - pose proof (guards_step a w Hne) as Hg. unfold guards in Hg.
    injection Hg as Hg1 Hg2. rewrite Hg2. rewrite Hg1 in Hch.
    now apply Inv with ch.
Qed.

(** In a room reached from a fresh one, an open channel comes with a
    non-empty identity. *)
Lemma open_channel_has_identity :
  forall (c : AppContext) (p : option Player) (acts : list Action)
         (ch : RealtimeChannel),
    channelRef (engine (run acts (Scenario.fresh c p))) = Some ch ->
    exists id,
      identity (ctx (run acts (Scenario.fresh c p))) = Some id /\ id <> "".
Proof.
  intros c p acts ch Hch.
  assert (Inv : forall w,
             (forall ch, channelRef (engine w) = Some ch ->
                         truthyIdentity (identity (ctx w)) = true) ->
             forall ch, channelRef (engine (run acts w)) = Some ch ->
                        truthyIdentity (identity (ctx (run acts w))) = true).
  { clear. induction acts as [|a acts IH]; intros w Hw; [exact Hw|].
    unfold run in *. simpl. apply IH. now apply step_channel_has_identity. }
  specialize (Inv (Scenario.fresh c p)).
  assert (H0 : forall ch0,
             channelRef (engine (Scenario.fresh c p)) = Some ch0 ->
             truthyIdentity (identity (ctx (Scenario.fresh c p))) = true)
    by (simpl; discriminate).
  specialize (Inv H0 ch Hch). unfold truthyIdentity in Inv.
  destruct (identity (ctx (run acts (Scenario.fresh c p)))) as [id|];
    [|discriminate].
  exists id. split; [reflexivity|]. now apply truthyString_true.
Qed.

End ReachableFacts.

(* ================================================================== *)
(** * Further properties of the code *)
(* ================================================================== *)

(** ** The channel lifecycle of the hook *)

Section WireFacts.
Import SyncEngine Wire.

Lemma liveAfter_app cur l l' :
  liveAfter cur (l ++ l') = liveAfter (liveAfter cur l) l'.
Proof. unfold liveAfter. apply fold_left_app. Qed.

Lemma orderly_app cur l l' :
  orderly cur (l ++ l') = orderly cur l && orderly (liveAfter cur l) l'.
Proof.
  revert cur. induction l as [|c l IH]; intros cur; [reflexivity|].
  destruct c; simpl; rewrite IH; now rewrite ?andb_assoc.
Qed.

Lemma known_app before l l' :
  known before (l ++ l') = known before l && known (before ++ l) l'.
Proof.
  revert before. induction l as [|c l IH]; intros before.
  - simpl. now rewrite app_nil_r.
  - cbn [app known]. rewrite IH, <- app_assoc. cbn [app].
    now rewrite andb_assoc.
Qed.

Lemma tidy_send ev s : tidy s -> tidy (broadcast ev s).
Proof.
  intros (Ho & Hl & Hk). unfold broadcast, tidy.
  destruct (channelRef s) as [ch|] eqn:Hch; [|rewrite ?Hch; auto].
  simpl. rewrite orderly_app, liveAfter_app, known_app, Ho, Hl, Hk, ?Hch.
  simpl. now rewrite String.eqb_refl.
Qed.

Lemma tidy_withIdentity i (mk : string -> SyncEvent) s :
  tidy s -> tidy (withIdentity i (fun x => broadcast (mk x)) s).
Proof.
  intros Hs. unfold withIdentity. destruct i as [x|]; [|exact Hs].
  destruct (truthyString x); [now apply tidy_send|exact Hs].
Qed.

(** What one action of the hook adds to a tidy trace. *)
Lemma hookStep_tidy a s : tidy s -> tidy (hookStep a s).
Proof.
  intros Hs. destruct a as [v i|ch st|ev|i n c]; simpl.
  - assert (Hclean : tidy (subscriptionCleanup s) /\
                     channelRef (subscriptionCleanup s) = None).
    { destruct Hs as (Ho & Hl & Hk). unfold subscriptionCleanup, tidy.
      destruct (channelRef s) as [ch|] eqn:Hch; simpl.
      - rewrite orderly_app, liveAfter_app, known_app, Ho, Hl, Hk. simpl.
        now rewrite String.eqb_refl.
      - rewrite ?Hch in *. auto. }
    destruct Hclean as ((Ho' & Hl' & Hk') & Hc').
    rewrite Hc' in Hl'. simpl in Hl'.
    unfold subscriptionEffect, tidy.
    destruct i as [id|]; [|now rewrite Hc', Hl'].
    destruct (negb (truthyString v) || negb (truthyString id));
      [now rewrite Hc', Hl'|].
    simpl. rewrite orderly_app, liveAfter_app, known_app, Ho', Hl', Hk'.
    auto.
  - destruct (registered ch (wire s)) eqn:Hreg; [|exact Hs].
    unfold onSubscribeStatus.
    destruct (String.eqb st "SUBSCRIBED"); [|exact Hs].
    destruct Hs as (Ho & Hl & Hk). unfold tidy. simpl.
    rewrite orderly_app, liveAfter_app, known_app, Ho, Hl, Hk. simpl.
    destruct ch as [name key]. simpl in *. now rewrite Hreg.
  - now apply tidy_send.
  - destruct c; simpl;
      unfold emitPlaybackState, emitBufferState, emitTimeSync,
        emitChatMessage, emitChatUiState, requestCurrentState, emitFileHash;
      now apply tidy_withIdentity.
Qed.

End WireFacts.

(** X1.  Whatever renders, status callbacks and emits the hook goes through,
    its transport calls are tidy: a channel is created and subscribed only
    after the previous one was unsubscribed, every send and unsubscribe
    names the channel that is live at that moment, the channel that is live
    in the end is the one [channelRef] holds, and every track names a
    channel the hook created before, with the identity it was created
    for.  That channel need not be live any more: a status callback that
    comes after the cleanup tracks presence on the channel that was
    closed. *)
Theorem hook_keeps_one_live_channel :
  (forall acts : list SyncEngine.HookAction,
     let s := SyncEngine.hookRun acts SyncEngine.initial in
     Wire.orderly None (SyncEngine.wire s) = true /\
     Wire.liveAfter None (SyncEngine.wire s)
     = option_map SyncEngine.channelName (SyncEngine.channelRef s) /\
     Wire.known [] (SyncEngine.wire s) = true) /\
  SyncEngine.wire
    (SyncEngine.hookRun
       [SyncEngine.hook_effect "v1" (Some "Manika");
        SyncEngine.hook_effect "v2" (Some "Manika");
        SyncEngine.hook_status
          {| SyncEngine.channelName := "watchroom-v1";
             SyncEngine.presenceKey := "Manika" |} "SUBSCRIBED"]
       SyncEngine.initial)
  = [SyncEngine.t_channel "watchroom-v1" "Manika";
     SyncEngine.t_subscribe "watchroom-v1";
     SyncEngine.t_unsubscribe "watchroom-v1";
     SyncEngine.t_channel "watchroom-v2" "Manika";
     SyncEngine.t_subscribe "watchroom-v2";
     SyncEngine.t_track "watchroom-v1" "Manika"].
Proof.
  split; [|reflexivity].
  intros acts.
  assert (Hgen : forall s0, Wire.tidy s0 ->
                            Wire.tidy (SyncEngine.hookRun acts s0)).
  { induction acts as [|a acts IH]; intros s0 Hs0; [exact Hs0|].
    unfold SyncEngine.hookRun in *. simpl. apply IH.
    now apply hookStep_tidy. }
  apply Hgen. repeat split.
Qed.

(** ** Heartbeats in full *)

Section HeartbeatFacts.
Import SyncEngine VideoPlayer WatchRoom Session.

Lemma isPlaying_after_seekTo time w p :
  playerRef w = Some p ->
  playerIsPlaying (snd (seekPlayer time w)) = isPlaying p.
Proof.
  intros Hp. unfold playerIsPlaying.
  seek_cases time w p Hp; simpl; unfold isPlaying; simpl;
    now rewrite ?Hv.
Qed.

Lemma matchPeerState_all_calls event w1 p1 :
  playerRef w1 = Some p1 ->
  playerCalls (matchPeerState event w1)
  = playerCalls w1
    ++ heartbeatPlayPause (ts_state event) (isPlaying p1)
         (peerBufferingRef (room w1)) (localBufferingRef (room w1)).
Proof.
  intros Hp1. unfold matchPeerState, heartbeatPlayPause. cbn zeta.
  unfold playerIsPlaying. rewrite Hp1.
  destruct (ts_state event).
  - destruct (negb (isPlaying p1) && negb (peerBufferingRef (room w1))
              && negb (localBufferingRef (room w1))).
    + now rewrite (playerCalls_play _ _ Hp1).
    + now rewrite app_nil_r.
  - destruct (isPlaying p1).
    + now rewrite (playerCalls_pause _ _ Hp1).
    + now rewrite app_nil_r.
Qed.

Lemma handleTimeSync_all_calls event w p :
  playerRef w = Some p ->
  let seek :=
    PrimFloat.ltb 500
      (driftMs (VideoPlayer.getCurrentTime p) (ts_time event)) in
  playerCalls (handleTimeSync event w)
  = playerCalls w
    ++ (if seek then [call_seekTo (ts_time event)] else [])
    ++ (if seek && seekThrows (ts_time event) w then []
        else heartbeatPlayPause (ts_state event) (isPlaying p)
               (peerBufferingRef (room w)) (localBufferingRef (room w))).
Proof.
  intros Hp seek. unfold handleTimeSync, playerTime. rewrite Hp. cbn zeta.
  fold seek. destruct seek; cbn [andb].
  - rewrite andThen_seekPlayer.
    destruct (seekThrows (ts_time event) w).
    + now rewrite (playerCalls_seekTo _ _ _ Hp).
    + destruct (seekPlayer_mounted (ts_time event) w p Hp)
        as (p1 & Hp1 & _).
      rewrite (matchPeerState_all_calls event _ p1 Hp1).
      rewrite (playerCalls_seekTo _ _ _ Hp), seekPlayer_room.
      pose proof (isPlaying_after_seekTo (ts_time event) w p Hp) as Hpl.
      unfold playerIsPlaying in Hpl. rewrite Hp1 in Hpl. rewrite Hpl.
      now rewrite <- app_assoc.
  - cbn [andThen]. now rewrite (matchPeerState_all_calls event w p Hp).
Qed.

End HeartbeatFacts.

(** X2.  A [time_sync] event of the peer, handled by a room with a mounted
    player, yields exactly these calls, in this order: the seek to the
    event's time when the drift is above 500, and then, unless that seek
    threw (the element is there and the time is not finite), [play()] when
    the event says playing, the local player is paused and neither side is
    buffering, or [pause()] when the event says paused and the local player
    is playing.  Neither the room's state nor the wire changes. *)
Theorem time_sync_reconciles_play_and_pause :
  forall (event : SyncEngine.TimeSyncEvent) (w : WatchRoom.World)
         (ch : SyncEngine.RealtimeChannel) (id : string)
         (p : VideoPlayer.Player),
    SyncEngine.channelRef (WatchRoom.engine w) = Some ch ->
    WatchRoom.identity (WatchRoom.ctx w) = Some id ->
    SyncEngine.ts_sender event <> id ->
    WatchRoom.playerRef w = Some p ->
    let w' := WatchRoom.receive (Some (SyncEngine.time_sync event)) w in
    let seek :=
      PrimFloat.ltb 500
        (WatchRoom.driftMs (VideoPlayer.getCurrentTime p)
           (SyncEngine.ts_time event)) in
    WatchRoom.issued w w'
    = (if seek
       then [VideoPlayer.call_seekTo (SyncEngine.ts_time event)] else [])
      ++ (if seek && WatchRoom.seekThrows (SyncEngine.ts_time event) w
          then []
          else Session.heartbeatPlayPause (SyncEngine.ts_state event)
                 (VideoPlayer.isPlaying p)
                 (WatchRoom.peerBufferingRef (WatchRoom.room w))
                 (WatchRoom.localBufferingRef (WatchRoom.room w))) /\
    WatchRoom.room w' = WatchRoom.room w /\
    WatchRoom.emitted w w' = [].
Proof.
  intros event w ch id p Hch Hid Hne Hp w' seek.
  assert (Hw' : w' = WatchRoom.handleTimeSync event w).
  { subst w'.
    now rewrite (receive_peer w ch id (SyncEngine.time_sync event)
                   Hch Hid Hne). }
  rewrite Hw'. split; [|split].
  - apply issued_app. now apply handleTimeSync_all_calls.
  - apply room_handleTimeSync.
  - apply emitted_app with (cs := []). rewrite app_nil_r.
    now destruct (handleTimeSync_frame event w) as (_ & -> & _).
Qed.

(** A paused room is pulled into playback by the heartbeat of the playing
    peer, 2.3 s ahead: seek, then play. *)
Lemma time_sync_reconciles_play_and_pause_witness :
  WatchRoom.issued Scenario.cloudRoom
    (WatchRoom.receive (Some (SyncEngine.time_sync Scenario.peerHeartbeat))
       Scenario.cloudRoom)
  = [VideoPlayer.call_seekTo Scenario.t42_3; VideoPlayer.call_play].
Proof.
  refine (proj1 (time_sync_reconciles_play_and_pause Scenario.peerHeartbeat
                   Scenario.cloudRoom
                   {| SyncEngine.channelName := "watchroom-v1";
                      SyncEngine.presenceKey := "Manika" |}
                   "Manika" Scenario.pausedAt40 _ _ _ _));
    try reflexivity.
  discriminate.
Defined.

(** ** One room's transition reaching the other *)

Section RelayFacts.
Import SyncEngine VideoPlayer WatchRoom Session.

(** A guarded DOM event on a player whose flag is clear goes out as one
    [playback_state] event with the element's position. *)
Lemma mediaEvent_reports ev w ch id p v :
  channelRef (engine w) = Some ch ->
  identity (ctx w) = Some id -> id <> "" ->
  playerRef w = Some p -> videoRef p = Some v ->
  suppressEventsRef p = false ->
  Protocol.isEcho ev = true ->
  emitted w (mediaEvent ev w)
  = [playback_state {| ps_state := transitionOf ev;
                       ps_time := currentTime v;
                       ps_sender := id;
                       ps_timestamp := now w |}].
Proof.
  intros Hch Hid Hne Hp Hv Hs Hev.
  unfold mediaEvent. rewrite Hp, Hv. unfold listener. rewrite Hs.
  destruct ev; try discriminate; simpl;
    unfold handlePlay, handlePause, handleSeeked, inEngine; rewrite Hid;
    rewrite (emitPlaybackState_open id _ _ _ _ ch Hne Hch);
    (etransitivity; [apply emitted_app; simpl; reflexivity|]); reflexivity.
Qed.

Lemma receive_playback_calls e w ch id p :
  channelRef (engine w) = Some ch ->
  identity (ctx w) = Some id ->
  ps_sender e <> id ->
  playerRef w = Some p ->
  PrimFloat.is_finite (ps_time e) = true ->
  issued w (receive (Some (playback_state e)) w) = Protocol.playbackCommands e.
Proof.
  intros Hch Hid Hne Hp Hf.
  rewrite (receive_peer w ch id (playback_state e) Hch Hid Hne).
  apply issued_app. apply handlePlaybackState_calls with p; [exact Hp|].
  now apply seekThrows_finite.
Qed.

End RelayFacts.

(** X3.  A play, pause or seeked event of room A's element, arriving while
    A's flag is clear, is sent as one [playback_state] event that carries the
    element's position and A's identity; room B, on the same channel with a
    mounted player, answers it with [seekTo; play], [pause; seekTo] or
    [seekTo] at that position.  The player's own seek bar does not set the
    flag, so a seek made with it is reported with the position it chose. *)
Theorem local_transition_reaches_the_peer :
  forall (A B : WatchRoom.World) (chA chB : SyncEngine.RealtimeChannel)
         (a b : string) (pA pB : VideoPlayer.Player)
         (v : VideoPlayer.HTMLVideoElement) (ev : VideoPlayer.MediaEvent),
    SyncEngine.channelRef (WatchRoom.engine A) = Some chA ->
    SyncEngine.channelRef (WatchRoom.engine B) = Some chB ->
    SyncEngine.channelName chA = SyncEngine.channelName chB ->
    WatchRoom.identity (WatchRoom.ctx A) = Some a -> a <> "" ->
    WatchRoom.identity (WatchRoom.ctx B) = Some b -> a <> b ->
    WatchRoom.playerRef A = Some pA ->
    VideoPlayer.videoRef pA = Some v ->
    VideoPlayer.suppressEventsRef pA = false ->
    WatchRoom.playerRef B = Some pB ->
    Protocol.isEcho ev = true ->
    let sent := WatchRoom.emitted A (WatchRoom.mediaEvent ev A) in
    sent
    = [SyncEngine.playback_state
         {| SyncEngine.ps_state := Session.transitionOf ev;
            SyncEngine.ps_time := VideoPlayer.currentTime v;
            SyncEngine.ps_sender := a;
            SyncEngine.ps_timestamp := WatchRoom.now A |}] /\
    WatchRoom.issued B (Session.deliver sent B)
    = match Session.transitionOf ev with
      | SyncEngine.playing =>
          [VideoPlayer.call_seekTo (VideoPlayer.currentTime v);
           VideoPlayer.call_play]
      | SyncEngine.paused =>
          [VideoPlayer.call_pause;
           VideoPlayer.call_seekTo (VideoPlayer.currentTime v)]
      | SyncEngine.seeked =>
          [VideoPlayer.call_seekTo (VideoPlayer.currentTime v)]
      end /\
    (forall value,
        WatchRoom.emitted A
          (WatchRoom.mediaEvent VideoPlayer.ev_seeked
             (Session.handleSeek value A))
        = [SyncEngine.playback_state
             {| SyncEngine.ps_state := SyncEngine.seeked;
                SyncEngine.ps_time := value;
                SyncEngine.ps_sender := a;
                SyncEngine.ps_timestamp := WatchRoom.now A |}]).
Proof.
  intros A B chA chB a b pA pB v ev HchA HchB Hname HidA Ha HidB Hab
    HpA Hv Hs HpB Hev sent.
  assert (Hsent : sent
                  = [SyncEngine.playback_state
                       {| SyncEngine.ps_state := Session.transitionOf ev;
                          SyncEngine.ps_time := VideoPlayer.currentTime v;
                          SyncEngine.ps_sender := a;
                          SyncEngine.ps_timestamp := WatchRoom.now A |}])
    by (subst sent; now apply mediaEvent_reports with chA pA).
  split; [exact Hsent|]. split.
  - rewrite Hsent. unfold Session.deliver. simpl.
    rewrite (receive_playback_calls _ B chB b pB HchB HidB) by
      (simpl; congruence || assumption || apply num_finite).
    unfold Protocol.playbackCommands. simpl.
    destruct (Session.transitionOf ev); reflexivity.
  - intros value.
    assert (HA' : Session.handleSeek value A
                  = WatchRoom.withPlayer
                      (Some {| VideoPlayer.videoRef :=
                                 Some (VideoPlayer.video_setCurrentTime value v);
                               VideoPlayer.suppressEventsRef := false;
                               VideoPlayer.calls := VideoPlayer.calls pA |})
                      A).
    { unfold Session.handleSeek, Session.onVideo. rewrite HpA, Hv, Hs.
      reflexivity. }
    rewrite HA'.
    exact (mediaEvent_reports VideoPlayer.ev_seeked
             (WatchRoom.withPlayer
                (Some {| VideoPlayer.videoRef :=
                           Some (VideoPlayer.video_setCurrentTime value v);
                         VideoPlayer.suppressEventsRef := false;
                         VideoPlayer.calls := VideoPlayer.calls pA |}) A)
             chA a _ (VideoPlayer.video_setCurrentTime value v)
             HchA HidA Ha eq_refl eq_refl eq_refl eq_refl).
Qed.

(** Aditya pauses at 12 s; Manika's player is paused and moved to 12 s. *)
Lemma local_transition_reaches_the_peer_witness :
  WatchRoom.issued Scenario.cloudRoom
    (Session.deliver
       (WatchRoom.emitted Pair.adityaRoom
          (WatchRoom.mediaEvent VideoPlayer.ev_pause Pair.adityaRoom))
       Scenario.cloudRoom)
  = [VideoPlayer.call_pause; VideoPlayer.call_seekTo 12].
Proof.
  refine (proj1 (proj2 (local_transition_reaches_the_peer
                          Pair.adityaRoom Scenario.cloudRoom
                          Pair.adityaChannel Pair.manikaChannel
                          "Aditya" "Manika" Pair.playingAt12
                          Scenario.pausedAt40
                          {| VideoPlayer.currentTime := Scenario.t12;
                             VideoPlayer.paused := false |}
                          VideoPlayer.ev_pause
                          _ _ _ _ _ _ _ _ _ _ _ _)));
    try reflexivity; discriminate.
Defined.

(** ** A remote transition is not sent back *)

Section NoBounceFacts.
Import SyncEngine VideoPlayer WatchRoom EventLoop Protocol Session.

Lemma handlePlaybackState_perform e w p :
  playerRef w = Some p ->
  handlePlaybackState e w
  = match ps_state e with
    | SyncEngine.playing =>
        if seekThrows (ps_time e) w
        then perform (call_seekTo (ps_time e)) w
        else perform call_play (perform (call_seekTo (ps_time e)) w)
    | SyncEngine.paused =>
        perform (call_seekTo (ps_time e)) (perform call_pause w)
    | SyncEngine.seeked => perform (call_seekTo (ps_time e)) w
    end.
Proof.
  intros Hp. unfold handlePlaybackState. rewrite Hp.
  destruct (ps_state e); try reflexivity.
  now rewrite andThen_seekPlayer.
Qed.

(** A command keeps what is needed for the flag to survive until [T], when
    its own reset is not due before [T]. *)
Lemma perform_keeps c w p v T :
  playerRef w = Some p -> videoRef p = Some v ->
  noResetBefore T (timers w) ->
  T <= now w + suppressionWindow c ->
  exists p' v',
    playerRef (perform c w) = Some p' /\ videoRef p' = Some v' /\
    suppressEventsRef p' = true /\
    noResetBefore T (timers (perform c w)) /\
    now (perform c w) = now w /\ engine (perform c w) = engine w.
Proof.
  intros Hp Hv Hq HT.
  destruct (perform_sets_flag c w p v Hp Hv)
    as (p1 & v1 & Hp1 & Hv1 & Hs1 & Hq1 & Hn1 & He1).
  exists p1, v1. repeat split; try assumption.
  destruct Hq1 as [-> | ->]; [|exact Hq].
  apply Forall_enqueue; [simpl; intros _; lia|exact Hq].
Qed.

Lemma handlePlaybackState_keeps e w p v :
  playerRef w = Some p -> videoRef p = Some v ->
  noResetBefore (now w + echoWindow (ps_state e)) (timers w) ->
  exists p' v',
    playerRef (handlePlaybackState e w) = Some p' /\
    videoRef p' = Some v' /\ suppressEventsRef p' = true /\
    noResetBefore (now w + echoWindow (ps_state e))
      (timers (handlePlaybackState e w)) /\
    now (handlePlaybackState e w) = now w /\
    engine (handlePlaybackState e w) = engine w.
Proof.
  intros Hp Hv Hq. rewrite (handlePlaybackState_perform e w p Hp).
  destruct (ps_state e); simpl in *.
  - destruct (perform_keeps (call_seekTo (ps_time e)) w p v _ Hp Hv Hq)
      as (p1 & v1 & Hp1 & Hv1 & Hs1 & Hq1 & Hn1 & He1); [simpl; lia|].
    destruct (seekThrows (ps_time e) w);
      [exists p1, v1; repeat split; assumption|].
    rewrite <- Hn1 in Hq1.
    destruct (perform_keeps call_play _ p1 v1 _ Hp1 Hv1 Hq1)
      as (p2 & v2 & Hp2 & Hv2 & Hs2 & Hq2 & Hn2 & He2); [simpl; lia|].
    exists p2, v2. rewrite Hn1 in Hq2.
    repeat split; try assumption;
      rewrite ?onPlayer_now, ?onPlayer_engine, ?seekPlayer_now,
        ?seekPlayer_engine, ?onPlayer_now, ?onPlayer_engine; reflexivity.
  - destruct (perform_keeps call_pause w p v _ Hp Hv Hq)
      as (p1 & v1 & Hp1 & Hv1 & Hs1 & Hq1 & Hn1 & He1); [simpl; lia|].
    rewrite <- Hn1 in Hq1.
    destruct (perform_keeps (call_seekTo (ps_time e)) _ p1 v1 _ Hp1 Hv1 Hq1)
      as (p2 & v2 & Hp2 & Hv2 & Hs2 & Hq2 & Hn2 & He2); [simpl; lia|].
    exists p2, v2. rewrite Hn1 in Hq2.
    repeat split; try assumption;
      rewrite ?onPlayer_now, ?onPlayer_engine, ?seekPlayer_now,
        ?seekPlayer_engine, ?onPlayer_now, ?onPlayer_engine; reflexivity.
  - destruct (perform_keeps (call_seekTo (ps_time e)) w p v _ Hp Hv Hq)
      as (p1 & v1 & Hp1 & Hv1 & Hs1 & Hq1 & Hn1 & He1); [simpl; lia|].
    exists p1, v1. repeat split; assumption.
Qed.

(** Timers only clear flags: the trace of calls is not theirs to touch. *)
Lemma playerCalls_fire t q w : playerCalls (fire t q w) = playerCalls w.
Proof.
  revert w. induction q as [|tm q IH]; intros w; [reflexivity|].
  rewrite fire_cons. destruct (due tm <=? t); [|reflexivity].
  rewrite IH. destruct (task tm); simpl; [|reflexivity].
  unfold playerCalls. simpl. destruct (playerRef w); reflexivity.
Qed.

End NoBounceFacts.

(** X4.  A room handles a [playback_state] event of the peer at a moment when
    no reset of the flag is pending inside the window (200 ms for playing
    and paused, 300 ms for seeked).  Then a play, pause or seeked event of
    its own element that arrives before the window has passed is not
    reported: nothing is put on the wire, so the peer's transition is not
    sent back to the peer.  The calls made on the player by then are those
    of the handler: the commands of the event's state, without the [play()]
    when the [seekTo] before it threw. *)
Theorem remote_transition_is_not_sent_back :
  forall (event : SyncEngine.PlaybackStateEvent) (w : WatchRoom.World)
         (ch : SyncEngine.RealtimeChannel) (id : string)
         (p : VideoPlayer.Player) (v : VideoPlayer.HTMLVideoElement)
         (dt : Z) (ev : VideoPlayer.MediaEvent),
    SyncEngine.channelRef (WatchRoom.engine w) = Some ch ->
    WatchRoom.identity (WatchRoom.ctx w) = Some id ->
    SyncEngine.ps_sender event <> id ->
    WatchRoom.playerRef w = Some p ->
    VideoPlayer.videoRef p = Some v ->
    Protocol.noResetBefore
      (WatchRoom.now w + Session.echoWindow (SyncEngine.ps_state event))
      (WatchRoom.timers w) ->
    0 <= dt < Session.echoWindow (SyncEngine.ps_state event) ->
    Protocol.isEcho ev = true ->
    let w1 := WatchRoom.receive (Some (SyncEngine.playback_state event)) w in
    let w2 := WatchRoom.mediaEvent ev (WatchRoom.advance dt w1) in
    WatchRoom.emitted w w2 = [] /\
    WatchRoom.issued w w2
    = match SyncEngine.ps_state event with
      | SyncEngine.playing =>
          if WatchRoom.seekThrows (SyncEngine.ps_time event) w
          then [VideoPlayer.call_seekTo (SyncEngine.ps_time event)]
          else [VideoPlayer.call_seekTo (SyncEngine.ps_time event);
                VideoPlayer.call_play]
      | SyncEngine.paused =>
          [VideoPlayer.call_pause;
           VideoPlayer.call_seekTo (SyncEngine.ps_time event)]
      | SyncEngine.seeked =>
          [VideoPlayer.call_seekTo (SyncEngine.ps_time event)]
      end.
Proof.
  intros event w ch id p v dt ev Hch Hid Hne Hp Hv Hq Hdt Hev w1 w2.
  assert (Hw1 : w1 = WatchRoom.handlePlaybackState event w).
  { subst w1.
    now rewrite (receive_peer w ch id (SyncEngine.playback_state event)
                   Hch Hid Hne). }
  destruct (handlePlaybackState_keeps event w p v Hp Hv Hq)
    as (p1 & v1 & Hp1 & Hv1 & Hs1 & Hq1 & Hn1 & He1).
  rewrite <- Hw1 in Hp1, Hq1, Hn1, He1.
  assert (Hno : Protocol.noResetBefore (WatchRoom.now w1 + Z.max 0 dt + 1)
                  (WatchRoom.timers w1)).
  { eapply Forall_impl; [|exact Hq1]. simpl. intros tm H Hk.
    specialize (H Hk). lia. }
  destruct (fire_keeps_suppress (WatchRoom.now w1 + Z.max 0 dt) _
              (WatchRoom.withNow (WatchRoom.now w1 + Z.max 0 dt) w1)
              p1 Hp1 Hs1 Hno)
    as (p2 & Hp2 & Hs2 & Hv2 & He2).
  assert (Hw2 : w2 = WatchRoom.advance dt w1).
  { subst w2. unfold WatchRoom.advance.
    now rewrite (mediaEvent_suppressed ev _ p2 Hp2 Hs2 Hev). }
  rewrite Hw2. split.
  - unfold WatchRoom.emitted, WatchRoom.advance. rewrite He2. simpl.
    rewrite He1. now rewrite skipn_length_self.
  - unfold WatchRoom.issued, WatchRoom.advance.
    rewrite playerCalls_fire. simpl.
    rewrite Hw1. apply issued_app.
    now apply handlePlaybackState_calls_made with p.
Qed.

(** Manika's room follows Aditya's play; the play event of her own element,
    150 ms later, is not sent. *)
Lemma remote_transition_is_not_sent_back_witness :
  WatchRoom.emitted Scenario.cloudRoom
    (WatchRoom.mediaEvent VideoPlayer.ev_play
       (WatchRoom.advance 150
          (WatchRoom.receive
             (Some (SyncEngine.playback_state Scenario.peerPlayingAt10))
             Scenario.cloudRoom)))
  = [].
Proof.
  refine (proj1 (remote_transition_is_not_sent_back
                   Scenario.peerPlayingAt10 Scenario.cloudRoom
                   Pair.manikaChannel "Manika" Scenario.pausedAt40
                   {| VideoPlayer.currentTime := Scenario.t40;
                      VideoPlayer.paused := true |}
                   150 VideoPlayer.ev_play _ _ _ _ _ _ _ _));
    try reflexivity; try discriminate.
  - constructor.
  - simpl. lia.
Defined.

(** ** What a room sends *)

Section SenderFacts.
Import SyncEngine VideoPlayer WatchRoom EventLoop Session.

Lemma addsSigned_refl w : addsSigned w w.
Proof.
  split; [reflexivity|]. exists []. now rewrite app_nil_r.
Qed.

Lemma addsSigned_trans w1 w2 w3 :
  addsSigned w1 w2 -> addsSigned w2 w3 -> addsSigned w1 w3.
Proof.
  intros [Hc1 (l1 & Hw1 & Hl1)] [Hc2 (l2 & Hw2 & Hl2)].
  split; [congruence|]. exists (l1 ++ l2). split.
  - now rewrite Hw2, Hw1, app_assoc.
  - apply Forall_app. split; [exact Hl1|]. now rewrite Hc1 in Hl2.
Qed.

Lemma addsSigned_quiet w w' :
  engine w' = engine w -> ctx w' = ctx w -> addsSigned w w'.
Proof.
  intros He Hc. split; [exact Hc|]. exists []. now rewrite He, app_nil_r.
Qed.

Lemma addsSigned_onPlayer m w : addsSigned w (onPlayer m w).
Proof. apply addsSigned_quiet; [apply onPlayer_engine|apply onPlayer_ctx]. Qed.

Lemma addsSigned_broadcast i (mk : string -> SyncEvent) s :
  (forall x, sender (mk x) = x) ->
  (forall x, Wire.playingBeat (mk x)) ->
  exists l, wire (withIdentity i (fun x => broadcast (mk x)) s) = wire s ++ l
            /\ Forall (Wire.signedBy i) l.
Proof.
  intros Hmk Hbeat. unfold withIdentity.
  destruct i as [x|]; [|exists []; now rewrite app_nil_r].
  destruct (truthyString x) eqn:Hx; [|exists []; now rewrite app_nil_r].
  unfold broadcast.
  destruct (channelRef s) as [ch|]; [|exists []; now rewrite app_nil_r].
  eexists. split; [reflexivity|]. constructor; [|constructor].
  simpl. rewrite Hmk. split; [reflexivity|]. split; [|apply Hbeat].
  now apply truthyString_true.
Qed.

Lemma addsSigned_emit i n c w :
  i = identity (ctx w) -> Wire.playingCall c ->
  addsSigned w (inEngine (emit i n c) w).
Proof.
  intros -> Hc. split; [reflexivity|]. unfold inEngine.
  cbn [engine withEngine].
  destruct c; simpl;
    unfold emitPlaybackState, emitBufferState, emitTimeSync,
      emitChatMessage, emitChatUiState, requestCurrentState, emitFileHash;
    apply addsSigned_broadcast; try reflexivity; intros x; try exact I;
    exact Hc.
Qed.

Ltac by_emit :=
  apply addsSigned_emit; [reflexivity|simpl; first [exact I|reflexivity]].

Lemma engine_fire t q w : engine (fire t q w) = engine w.
Proof.
  revert w. induction q as [|tm q IH]; intros w; [reflexivity|].
  rewrite fire_cons. destruct (due tm <=? t); [|reflexivity].
  rewrite IH. destruct (task tm); reflexivity.
Qed.

Lemma addsSigned_dispatch data w : addsSigned w (dispatch callbacks data w).
Proof.
  destruct data as [e|e|e|e|e|e|e];
    cbn [dispatch callbacks onPlaybackState onBufferState onTimeSync
         onChatMessage onChatUiState onRequestState onFileHash callOpt].
  - apply addsSigned_quiet; apply handlePlaybackState_frame.
  - apply addsSigned_quiet; unfold handleBufferState; cbn zeta;
      (destruct (bs_isBuffering e); [|destruct (negb _)]);
      now rewrite ?onPlayer_engine, ?onPlayer_ctx.
  - apply addsSigned_quiet; apply handleTimeSync_frame.
  - now apply addsSigned_quiet.
  - now apply addsSigned_quiet.
  - unfold handleRequestState. destruct (playerRef w); [|apply addsSigned_refl].
    cbn zeta.
    change (emitPlaybackState ?i ?n ?st ?t)
      with (emit i n (call_emitPlaybackState st t)).
    destruct (localHashed _); [|by_emit].
    change (emitFileHash ?i ?h ?n) with (emit i 0 (call_emitFileHash h n)).
    eapply addsSigned_trans; [|by_emit]; by_emit.
  - apply addsSigned_quiet; [|apply ctx_handleFileHash].
    unfold handleFileHash. destruct (localHashed (ctx w)); [|reflexivity].
    destruct (negb _); reflexivity.
Qed.

Lemma addsSigned_step a w : addsSigned w (step a w).
Proof.
  destruct a as [|status|payload|online key|dt|ev|time| |txt elapsed| |];
    simpl.
  - split; [reflexivity|].
    unfold subscribe, inEngine, subscriptionEffect. cbn [engine withEngine].
    destruct (identity (ctx w)) as [id|];
      [|exists []; now rewrite app_nil_r].
    destruct (_ || _); [exists []; now rewrite app_nil_r|].
    eexists. split; [reflexivity|]. repeat constructor.
  - unfold subscribeStatus.
    destruct (lastChannel (wire (engine w))) as [channel|];
      [|apply addsSigned_refl].
    cbn zeta.
    assert (H1 : addsSigned w
                   (inEngine (onSubscribeStatus channel status) w)).
    { split; [reflexivity|]. unfold inEngine, onSubscribeStatus.
      cbn [engine withEngine].
      destruct (String.eqb status "SUBSCRIBED");
        [|exists []; now rewrite app_nil_r].
      eexists. split; [reflexivity|]. repeat constructor. }
    destruct (_ && _); [|exact H1].
    eapply addsSigned_trans; [exact H1|].
    unfold connectedEffect. destruct (connected _); [|apply addsSigned_refl].
    destruct (localHashed _).
    + change (requestCurrentState ?i)
        with (emit i 0 call_requestCurrentState).
      change (emitFileHash ?i ?h ?n) with (emit i 0 (call_emitFileHash h n)).
      eapply addsSigned_trans; [|by_emit]; by_emit.
    + destruct (mode _) as [[|]|]; try apply addsSigned_refl.
      change (requestCurrentState ?i)
        with (emit i 0 call_requestCurrentState).
      by_emit.
  - unfold receive.
    destruct (channelRef (engine w)); [|apply addsSigned_refl].
    destruct (identity (ctx w)) as [id|] eqn:Hid; [|apply addsSigned_refl].
    destruct payload as [data|]; [|apply addsSigned_refl].
    unfold onBroadcast. destruct (String.eqb (sender data) id);
      [apply addsSigned_refl|apply addsSigned_dispatch].
  - unfold presence.
    destruct (channelRef (engine w)); [|apply addsSigned_refl].
    destruct (identity (ctx w)) as [id|]; [|apply addsSigned_refl].
    unfold onPresence. destruct (negb _); [|apply addsSigned_refl].
    cbn [callOpt callbacks onPresenceChange]. unfold handlePresenceChange.
    cbn zeta. destruct (pr_online _); now apply addsSigned_quiet.
  - unfold advance. apply addsSigned_quiet.
    + now rewrite engine_fire.
    + pose proof (guards_fire (now w + Z.max 0 dt) (timers w)
                    (withNow (now w + Z.max 0 dt) w)) as Hg.
      unfold guards in Hg. now injection Hg.
  - unfold mediaEvent. destruct (playerRef w) as [p|]; [|apply addsSigned_refl].
    destruct (videoRef p) as [v|]; [|apply addsSigned_refl].
    unfold listener, props, handlePlay, handlePause, handleSeeked,
      handleBufferingStart, handleBufferingEnd.
    cbn [onPlay onPause onSeeked onBufferingStart onBufferingEnd callOpt
         callOpt0]. cbn zeta.
    change (emitPlaybackState ?i ?n ?st ?t)
      with (emit i n (call_emitPlaybackState st t)).
    change (emitBufferState ?i ?n ?b) with (emit i n (call_emitBufferState b)).
    destruct ev; try destruct (negb _);
      try apply addsSigned_refl; try by_emit.
    + eapply addsSigned_trans; [|by_emit].
      now apply addsSigned_quiet.
    + eapply addsSigned_trans; [|by_emit].
      now apply addsSigned_quiet.
  - unfold videoTime. destruct (playerRef w); now apply addsSigned_quiet.
  - unfold heartbeat. destruct (playerRef w); [|apply addsSigned_refl].
    cbn zeta. destruct (playerIsPlaying w); [|apply addsSigned_refl].
    change (emitTimeSync ?i ?n ?t ?st)
      with (emit i n (call_emitTimeSync t st)).
    by_emit.
  - unfold handleSendMessage. cbn zeta.
    change (emitChatMessage ?i ?n ?t) with (emit i n (call_emitChatMessage t)).
    eapply addsSigned_trans; [|now apply addsSigned_quiet]. by_emit.
  - unfold handleChatToggle. cbn zeta.
    change (emitChatUiState ?i ?b) with (emit i 0 (call_emitChatUiState b)).
    eapply addsSigned_trans; [|by_emit].
    now apply addsSigned_quiet.
  - now apply addsSigned_quiet.
Qed.

Lemma addsSigned_run acts w : addsSigned w (run acts w).
Proof.
  revert w. induction acts as [|a acts IH]; intros w; [apply addsSigned_refl|].
  unfold run in *. simpl.
  eapply addsSigned_trans; [apply addsSigned_step|apply IH].
Qed.

Lemma emitted_signed w w' :
  addsSigned w w' ->
  Forall (fun e => identity (ctx w) = Some (sender e) /\ sender e <> "")
    (emitted w w').
Proof.
  intros [_ (l & Hw & Hl)]. unfold emitted. rewrite Hw, skipn_length_app.
  clear Hw. induction Hl as [|c l Hc Hl IH]; simpl; [constructor|].
  destruct c; simpl; try exact IH. destruct Hc as (Hi & Hne & _).
  constructor; [split|]; assumption.
Qed.

Lemma emitted_beats w w' :
  addsSigned w w' -> Forall Wire.playingBeat (emitted w w').
Proof.
  intros [_ (l & Hw & Hl)]. unfold emitted. rewrite Hw, skipn_length_app.
  clear Hw. induction Hl as [|c l Hc Hl IH]; simpl; [constructor|].
  destruct c; simpl; try exact IH. destruct Hc as (_ & _ & Hbeat).
  constructor; assumption.
Qed.

Lemma deliver_own events w :
  Forall (fun e => identity (ctx w) = Some (sender e)) events ->
  deliver events w = w.
Proof.
  induction 1 as [|e events He Hes IH]; [reflexivity|].
  unfold deliver in *. simpl.
  assert (Hself : receive (Some e) w = w).
  { unfold receive. destruct (channelRef (engine w)); [|reflexivity].
    rewrite He. unfold onBroadcast. now rewrite String.eqb_refl. }
  rewrite Hself. exact IH.
Qed.

End SenderFacts.

(** X5.  Through any run of the page, the room never takes a call back from
    the transport trace, and every event it sends carries the room's own
    identity as sender, which is then not empty: a room without an identity
    sends nothing.  Should the transport hand the room the events it sent
    itself, they change nothing. *)
Theorem room_signs_what_it_sends :
  forall (acts : list WatchRoom.Action) (w : WatchRoom.World),
    let w' := WatchRoom.run acts w in
    (exists added,
        SyncEngine.wire (WatchRoom.engine w')
        = SyncEngine.wire (WatchRoom.engine w) ++ added) /\
    Forall (fun e =>
              WatchRoom.identity (WatchRoom.ctx w)
              = Some (SyncEngine.sender e) /\
              SyncEngine.sender e <> "")
      (WatchRoom.emitted w w') /\
    (truthyIdentity (WatchRoom.identity (WatchRoom.ctx w)) = false ->
     WatchRoom.emitted w w' = []) /\
    Session.deliver (WatchRoom.emitted w w') w' = w'.
Proof.
  intros acts w w'.
  pose proof (addsSigned_run acts w) as Hadds. fold w' in Hadds.
  pose proof (emitted_signed w w' Hadds) as Hsigned.
  split; [|split; [exact Hsigned|split]].
  - destruct Hadds as [_ (l & Hl & _)]. now exists l.
  - intros Hfalsy. destruct (WatchRoom.emitted w w') as [|e es];
      [reflexivity|].
    inversion Hsigned as [|? ? [He Hne] _]; subst.
    rewrite He in Hfalsy. simpl in Hfalsy.
    apply truthyString_false in Hfalsy. contradiction.
  - apply deliver_own. destruct Hadds as [Hctx _].
    eapply Forall_impl; [|exact Hsigned]. simpl. intros e [He _].
    now rewrite Hctx.
Qed.

(** ** Joining, and the heartbeat *)

Section JoinFacts.
Import SyncEngine VideoPlayer WatchRoom EventLoop Session.

(** An emitter called with a non-empty identity on an open channel sends
    the event it builds. *)
Lemma emit_open id n c s ch :
  id <> "" -> channelRef s = Some ch ->
  emit (Some id) n c s
  = transportCall (t_send (channelName ch) (eventOf id n c)) s.
Proof.
  intros Hid Hch.
  destruct c as [st tm|b|tm st|txt|b| |h fnm]; simpl;
    unfold emitPlaybackState, emitBufferState, emitTimeSync,
      emitChatMessage, emitChatUiState, requestCurrentState, emitFileHash.
  - exact (withIdentity_open id
             (fun i => eventOf i n (call_emitPlaybackState st tm))
             s ch Hid Hch).
  - exact (withIdentity_open id
             (fun i => eventOf i n (call_emitBufferState b)) s ch Hid Hch).
  - exact (withIdentity_open id
             (fun i => eventOf i n (call_emitTimeSync tm st)) s ch Hid Hch).
  - exact (withIdentity_open id
             (fun i => eventOf i n (call_emitChatMessage txt)) s ch Hid Hch).
  - exact (withIdentity_open id
             (fun i => eventOf i n (call_emitChatUiState b)) s ch Hid Hch).
  - exact (withIdentity_open id
             (fun i => eventOf i n call_requestCurrentState) s ch Hid Hch).
  - exact (withIdentity_open id
             (fun i => eventOf i n (call_emitFileHash h fnm)) s ch Hid Hch).
Qed.

Lemma emitted_emit_open id n c w ch :
  id <> "" -> channelRef (engine w) = Some ch ->
  emitted w (inEngine (emit (Some id) n c) w) = [eventOf id n c].
Proof.
  intros Hid Hch. unfold inEngine. rewrite (emit_open id n c _ ch Hid Hch).
  now apply emitted_app with (cs := [t_send (channelName ch) (eventOf id n c)]).
Qed.

Lemma effectiveRoomId_truthy c : truthyString (effectiveRoomId c) = true.
Proof.
  unfold effectiveRoomId, orElse.
  destruct (roomId c) as [r|].
  - destruct (truthyString r) eqn:Hr; [exact Hr|].
    destruct (option_map vf_id (selectedVideo c)) as [v|]; [|reflexivity].
    destruct (truthyString v) eqn:Hv; [exact Hv|reflexivity].
  - destruct (option_map vf_id (selectedVideo c)) as [v|]; [|reflexivity].
    destruct (truthyString v) eqn:Hv; [exact Hv|reflexivity].
Qed.

Lemma connectedEffect_wire w ch id :
  channelRef (engine w) = Some ch -> connected (engine w) = true ->
  identity (ctx w) = Some id -> id <> "" ->
  engine (connectedEffect w)
  = {| channelRef := Some ch; connected := true;
       wire := wire (engine w)
               ++ map (t_send (channelName ch)) (handshake (ctx w) id) |}.
Proof.
  intros Hch Hco Hid Hne. unfold connectedEffect, handshake. rewrite Hco, Hid.
  assert (Hsame : engine w
                  = {| channelRef := Some ch; connected := true;
                       wire := wire (engine w) |}).
  { destruct (engine w); simpl in *; congruence. }
  change (requestCurrentState ?i) with (emit i 0 call_requestCurrentState).
  change (emitFileHash ?i ?h ?n) with (emit i 0 (call_emitFileHash h n)).
  destruct (localHashed (ctx w)) as [f|].
  - unfold inEngine. cbn [engine withEngine].
    rewrite (emit_open id 0 _ _ ch Hne Hch).
    rewrite (emit_open id 0 _ _ ch Hne) by exact Hch.
    unfold transportCall. cbn [channelRef connected wire].
    rewrite Hch, Hco, <- app_assoc. reflexivity.
  - destruct (mode (ctx w)) as [[|]|].
    + unfold inEngine. cbn [engine withEngine].
      rewrite (emit_open id 0 _ _ ch Hne Hch).
      unfold transportCall. now rewrite Hch, Hco.
    + rewrite Hsame at 1. now rewrite app_nil_r.
    + rewrite Hsame at 1. now rewrite app_nil_r.
Qed.

Lemma subscribe_fresh w id :
  engine w = SyncEngine.initial ->
  identity (ctx w) = Some id -> id <> "" ->
  engine (subscribe w)
  = {| channelRef :=
         Some {| channelName := channelNameFor (effectiveRoomId (ctx w));
                 presenceKey := id |};
       connected := false;
       wire := [t_channel (channelNameFor (effectiveRoomId (ctx w))) id;
                t_subscribe (channelNameFor (effectiveRoomId (ctx w)))] |}.
Proof.
  intros He Hid Hne. unfold subscribe, inEngine, subscriptionEffect.
  cbn [engine withEngine]. rewrite Hid, He, effectiveRoomId_truthy.
  apply truthyString_true in Hne. now rewrite Hne.
Qed.

Lemma subscribeStatus_first w ch id :
  lastChannel (wire (engine w)) = Some ch ->
  channelRef (engine w) = Some ch -> connected (engine w) = false ->
  identity (ctx w) = Some id -> id <> "" ->
  engine (subscribeStatus "SUBSCRIBED" w)
  = {| channelRef := Some ch; connected := true;
       wire := (wire (engine w)
                ++ [t_track (channelName ch) (presenceKey ch)])
               ++ map (t_send (channelName ch)) (handshake (ctx w) id) |}.
Proof.
  intros Hlast Hch Hco Hid Hne. unfold subscribeStatus. rewrite Hlast.
  cbn zeta.
  set (w1 := inEngine (onSubscribeStatus ch "SUBSCRIBED") w).
  assert (H1 : engine w1
               = {| channelRef := Some ch; connected := true;
                    wire := wire (engine w)
                            ++ [t_track (channelName ch) (presenceKey ch)] |}).
  { subst w1. unfold inEngine, onSubscribeStatus. cbn [engine withEngine].
    rewrite Hch. reflexivity. }
  assert (Hc1 : ctx w1 = ctx w) by reflexivity.
  rewrite Hco, H1. cbn [connected negb andb].
  rewrite (connectedEffect_wire w1 ch id); rewrite ?H1, ?Hc1;
    try reflexivity; assumption.
Qed.

Lemma subscribeStatus_connected status w :
  connected (engine w) = true ->
  emitted w (subscribeStatus status w) = [].
Proof.
  intros Hco. unfold subscribeStatus.
  destruct (lastChannel (wire (engine w))) as [ch|].
  - cbn zeta. rewrite Hco. simpl negb.
    cbn [andb]. unfold inEngine, onSubscribeStatus.
    destruct (String.eqb status "SUBSCRIBED").
    + now apply emitted_app
        with (cs := [t_track (channelName ch) (presenceKey ch)]).
    + apply emitted_app with (cs := []). now rewrite app_nil_r.
  - apply emitted_app with (cs := []). now rewrite app_nil_r.
Qed.

Lemma receive_beat_no_pause t w :
  ts_state t = hb_playing ->
  Forall (fun c => c <> call_pause) (issued w (receive (Some (time_sync t)) w)).
Proof.
  intros Hst. unfold receive.
  destruct (channelRef (engine w)); [|rewrite issued_refl; constructor].
  destruct (identity (ctx w)) as [id|]; [|rewrite issued_refl; constructor].
  unfold onBroadcast.
  destruct (String.eqb _ id); [rewrite issued_refl; constructor|].
  cbn [dispatch callbacks onTimeSync callOpt].
  destruct (playerRef w) as [p|] eqn:Hp.
  - rewrite (issued_app _ _ _ (handleTimeSync_all_calls t w p Hp)).
    cbn zeta. rewrite Hst. unfold heartbeatPlayPause.
    apply Forall_app. split.
    + destruct (PrimFloat.ltb _ _); repeat constructor; discriminate.
    + destruct (_ && seekThrows _ _); [constructor|].
      destruct (_ && _); repeat constructor; discriminate.
  - unfold handleTimeSync. rewrite Hp, issued_refl. constructor.
Qed.

End JoinFacts.

(** X6.  A room with an identity whose hook has not subscribed yet, once it
    subscribes and the channel reports SUBSCRIBED: it created and subscribed
    the channel named after its room key, tracked its presence, and then
    sent its hash followed by a state request (local mode with a hash), a
    state request alone (cloud mode), or nothing (local mode without a
    hash).  A further status callback sends no event. *)
Theorem joining_room_announces_itself :
  forall (w : WatchRoom.World) (id : string),
    WatchRoom.engine w = SyncEngine.initial ->
    WatchRoom.identity (WatchRoom.ctx w) = Some id ->
    id <> "" ->
    let name :=
      SyncEngine.channelNameFor (WatchRoom.effectiveRoomId (WatchRoom.ctx w))
    in
    let w1 :=
      WatchRoom.run [WatchRoom.Subscribe;
                     WatchRoom.SubscribeStatus "SUBSCRIBED"] w in
    WatchRoom.engine w1
    = {| SyncEngine.channelRef :=
           Some {| SyncEngine.channelName := name;
                   SyncEngine.presenceKey := id |};
         SyncEngine.connected := true;
         SyncEngine.wire :=
           [SyncEngine.t_channel name id; SyncEngine.t_subscribe name;
            SyncEngine.t_track name id]
           ++ map (SyncEngine.t_send name)
                (Session.handshake (WatchRoom.ctx w) id) |} /\
    (forall status,
        WatchRoom.emitted w1
          (WatchRoom.step (WatchRoom.SubscribeStatus status) w1) = []).
Proof.
  intros w id He Hid Hne name w1.
  assert (Hw1 : WatchRoom.engine w1
                = {| SyncEngine.channelRef :=
                       Some {| SyncEngine.channelName := name;
                               SyncEngine.presenceKey := id |};
                     SyncEngine.connected := true;
                     SyncEngine.wire :=
                       [SyncEngine.t_channel name id;
                        SyncEngine.t_subscribe name;
                        SyncEngine.t_track name id]
                       ++ map (SyncEngine.t_send name)
                            (Session.handshake (WatchRoom.ctx w) id) |}).
  { subst w1. unfold WatchRoom.run. cbn [fold_left WatchRoom.step].
    pose proof (subscribe_fresh w id He Hid Hne) as Hs. fold name in Hs.
    rewrite (subscribeStatus_first (WatchRoom.subscribe w)
               {| SyncEngine.channelName := name;
                  SyncEngine.presenceKey := id |} id);
      rewrite ?Hs; try reflexivity; assumption. }
  split; [exact Hw1|].
  intros status. apply subscribeStatus_connected. now rewrite Hw1.
Qed.

(** A local room with a hashed file announces the hash, then asks for the
    state. *)
Lemma joining_room_announces_itself_witness :
  WatchRoom.engine
    (WatchRoom.run [WatchRoom.Subscribe;
                    WatchRoom.SubscribeStatus "SUBSCRIBED"]
       (Scenario.fresh Scenario.localContext None))
  = {| SyncEngine.channelRef :=
         Some {| SyncEngine.channelName := "watchroom-bW92aWU";
                 SyncEngine.presenceKey := "Manika" |};
       SyncEngine.connected := true;
       SyncEngine.wire :=
         [SyncEngine.t_channel "watchroom-bW92aWU" "Manika";
          SyncEngine.t_subscribe "watchroom-bW92aWU";
          SyncEngine.t_track "watchroom-bW92aWU" "Manika";
          SyncEngine.t_send "watchroom-bW92aWU"
            (SyncEngine.file_hash
               {| SyncEngine.fh_hash := "def456";
                  SyncEngine.fh_fileName := "movie.mp4";
                  SyncEngine.fh_sender := "Manika" |});
          SyncEngine.t_send "watchroom-bW92aWU"
            (SyncEngine.request_state
               {| SyncEngine.rs_sender := "Manika" |})] |}.
Proof.
  refine (proj1 (joining_room_announces_itself
                   (Scenario.fresh Scenario.localContext None)
                   "Manika" _ _ _)); try reflexivity.
  discriminate.
Defined.

(** X7.  Whatever a room goes through, a heartbeat it sends says playing,
    and the room that receives it is never paused by it: the calls it
    answers with contain no [pause()]. *)
Theorem heartbeats_never_pause_the_peer :
  forall (acts : list WatchRoom.Action) (A B : WatchRoom.World)
         (t : SyncEngine.TimeSyncEvent),
    In (SyncEngine.time_sync t) (WatchRoom.emitted A (WatchRoom.run acts A)) ->
    SyncEngine.ts_state t = SyncEngine.hb_playing /\
    Forall (fun c => c <> VideoPlayer.call_pause)
      (WatchRoom.issued B
         (WatchRoom.receive (Some (SyncEngine.time_sync t)) B)).
Proof.
  intros acts A B t Hin.
  pose proof (emitted_beats A _ (addsSigned_run acts A)) as Hbeats.
  rewrite Forall_forall in Hbeats. specialize (Hbeats _ Hin). simpl in Hbeats.
  split; [exact Hbeats|]. now apply receive_beat_no_pause.
Qed.

(** Aditya's room, playing at 12 s, sends a heartbeat; Manika's paused room
    answers it without a pause. *)
Lemma heartbeats_never_pause_the_peer_witness :
  SyncEngine.ts_state Pair.beatAt12 = SyncEngine.hb_playing /\
  Forall (fun c => c <> VideoPlayer.call_pause)
    (WatchRoom.issued Scenario.cloudRoom
       (WatchRoom.receive (Some (SyncEngine.time_sync Pair.beatAt12))
          Scenario.cloudRoom)).
Proof.
  refine (heartbeats_never_pause_the_peer [WatchRoom.Heartbeat]
            Pair.adityaRoom Scenario.cloudRoom Pair.beatAt12 _).
  vm_compute. left. reflexivity.
Defined.

Section BeatFacts.
Import SyncEngine VideoPlayer WatchRoom EventLoop Session.

Lemma heartbeat_sends w ch id p :
  channelRef (engine w) = Some ch ->
  identity (ctx w) = Some id -> id <> "" ->
  playerRef w = Some p ->
  emitted w (heartbeat w)
  = if isPlaying p
    then [time_sync {| ts_time := getCurrentTime p; ts_state := hb_playing;
                       ts_sender := id; ts_timestamp := now w |}]
    else [].
Proof.
  intros Hch Hid Hne Hp. unfold heartbeat, playerIsPlaying, playerTime.
  rewrite Hp. cbn zeta. destruct (isPlaying p).
  - rewrite Hid.
    change (emitTimeSync ?i ?n ?t ?st)
      with (emit i n (call_emitTimeSync t st)).
    now rewrite (emitted_emit_open id _ _ w ch Hne Hch).
  - apply emitted_app with (cs := []). now rewrite app_nil_r.
Qed.

(** What the handle reports as the position is a finite number. *)
Lemma getCurrentTime_finite p :
  PrimFloat.is_finite (getCurrentTime p) = true.
Proof.
  unfold getCurrentTime, orZero. destruct (videoRef p) as [v|]; [|reflexivity].
  destruct (_ || _); [reflexivity|apply num_finite].
Qed.

End BeatFacts.

(** X8.  Every tick of the heartbeat interval, a room whose player is
    playing sends one [time_sync] event with the player's position, and a
    room whose player is paused sends nothing.  The peer answers the
    heartbeat with a seek when it has drifted by more than 500 ms, then with
    [play()] when it is paused and neither side is buffering. *)
Theorem heartbeat_pulls_the_peer_along :
  forall (A B : WatchRoom.World) (chA chB : SyncEngine.RealtimeChannel)
         (a b : string) (pA pB : VideoPlayer.Player),
    SyncEngine.channelRef (WatchRoom.engine A) = Some chA ->
    SyncEngine.channelRef (WatchRoom.engine B) = Some chB ->
    SyncEngine.channelName chA = SyncEngine.channelName chB ->
    WatchRoom.identity (WatchRoom.ctx A) = Some a -> a <> "" ->
    WatchRoom.identity (WatchRoom.ctx B) = Some b -> a <> b ->
    WatchRoom.playerRef A = Some pA ->
    WatchRoom.playerRef B = Some pB ->
    let sent := WatchRoom.emitted A (WatchRoom.step WatchRoom.Heartbeat A) in
    sent
    = (if VideoPlayer.isPlaying pA
       then [SyncEngine.time_sync
               {| SyncEngine.ts_time := VideoPlayer.getCurrentTime pA;
                  SyncEngine.ts_state := SyncEngine.hb_playing;
                  SyncEngine.ts_sender := a;
                  SyncEngine.ts_timestamp := WatchRoom.now A |}]
       else []) /\
    WatchRoom.issued B (Session.deliver sent B)
    = (if VideoPlayer.isPlaying pA
       then (if PrimFloat.ltb 500
                  (WatchRoom.driftMs (VideoPlayer.getCurrentTime pB)
                     (VideoPlayer.getCurrentTime pA))
             then [VideoPlayer.call_seekTo (VideoPlayer.getCurrentTime pA)]
             else [])
            ++ (if negb (VideoPlayer.isPlaying pB)
                   && negb (WatchRoom.peerBufferingRef (WatchRoom.room B))
                   && negb (WatchRoom.localBufferingRef (WatchRoom.room B))
                then [VideoPlayer.call_play] else [])
       else []).
Proof.
  intros A B chA chB a b pA pB HchA HchB Hname HidA Ha HidB Hab HpA HpB sent.
  assert (Hsent : sent
                  = if VideoPlayer.isPlaying pA
                    then [SyncEngine.time_sync
                            {| SyncEngine.ts_time :=
                                 VideoPlayer.getCurrentTime pA;
                               SyncEngine.ts_state := SyncEngine.hb_playing;
                               SyncEngine.ts_sender := a;
                               SyncEngine.ts_timestamp := WatchRoom.now A |}]
                    else [])
    by (subst sent; now apply heartbeat_sends with chA).
  split; [exact Hsent|]. rewrite Hsent.
  destruct (VideoPlayer.isPlaying pA); [|apply issued_refl].
  unfold Session.deliver. cbn [fold_left].
  rewrite (receive_peer B chB b _ HchB HidB) by (simpl; congruence).
  cbn [SyncEngine.dispatch WatchRoom.callbacks SyncEngine.onTimeSync
       SyncEngine.callOpt].
  apply issued_app. rewrite (handleTimeSync_all_calls _ B pB HpB).
  cbn [SyncEngine.ts_time SyncEngine.ts_state Session.heartbeatPlayPause].
  rewrite (seekThrows_finite _ B (getCurrentTime_finite pA)).
  now rewrite andb_false_r.
Qed.

(** Aditya's room, playing at 12 s, pulls Manika's room, paused at 40 s:
    seek to 12, then play. *)
Lemma heartbeat_pulls_the_peer_along_witness :
  WatchRoom.issued Scenario.cloudRoom
    (Session.deliver
       (WatchRoom.emitted Pair.adityaRoom
          (WatchRoom.step WatchRoom.Heartbeat Pair.adityaRoom))
       Scenario.cloudRoom)
  = [VideoPlayer.call_seekTo 12; VideoPlayer.call_play].
Proof.
  refine (proj2 (heartbeat_pulls_the_peer_along
                   Pair.adityaRoom Scenario.cloudRoom
                   Pair.adityaChannel Pair.manikaChannel "Aditya" "Manika"
                   Pair.playingAt12 Scenario.pausedAt40
                   _ _ _ _ _ _ _ _ _)); try reflexivity; discriminate.
Defined.

(** ** Presence and notifications *)

Section NoticeFacts.
Import SyncEngine VideoPlayer WatchRoom EventLoop Session.

Lemma now_fire t q w : now (fire t q w) = now w.
Proof.
  revert w. induction q as [|tm q IH]; intros w; [reflexivity|].
  rewrite fire_cons. destruct (due tm <=? t); [|reflexivity].
  rewrite IH. destruct (task tm); reflexivity.
Qed.

Lemma queuedInTurn_enqueue tm q : queuedInTurn tm (enqueue tm q).
Proof.
  induction q as [|u q IH]; simpl.
  - exists [], []. split; [reflexivity|constructor].
  - destruct (Z.ltb_spec (due tm) (due u)).
    + exists [], (u :: q). split; [reflexivity|constructor].
    + destruct IH as (pre & post & Hq & Hpre).
      exists (u :: pre), post. split; [now rewrite Hq|].
      constructor; [lia|exact Hpre].
Qed.

(** A later timer is queued behind an earlier one that is already there. *)
Lemma queuedInTurn_later tm tm' q :
  due tm <= due tm' -> queuedInTurn tm q -> queuedInTurn tm (enqueue tm' q).
Proof.
  intros Hle (pre & post & -> & Hpre).
  induction Hpre as [|u pre Hu Hpre IH]; simpl.
  - destruct (Z.ltb_spec (due tm') (due tm)); [lia|].
    exists [], (enqueue tm' post). split; [reflexivity|constructor].
  - destruct (Z.ltb_spec (due tm') (due u)); [lia|].
    destruct IH as (pre' & post' & Hq & Hpre').
    exists (u :: pre'), post'. split; [now rewrite Hq|].
    constructor; assumption.
Qed.

(** Firing the timers due before [tm] leaves [tm] queued in turn. *)
Lemma queuedInTurn_fire t tm q w :
  t < due tm -> queuedInTurn tm q -> queuedInTurn tm (timers (fire t q w)).
Proof.
  intros Hlt (pre & post & -> & Hpre). revert w.
  induction Hpre as [|u pre Hu Hpre IH]; intros w.
  - simpl app. rewrite fire_cons. destruct (Z.leb_spec (due tm) t); [lia|].
    exists [], post. split; [reflexivity|constructor].
  - simpl app. rewrite fire_cons. destruct (due u <=? t).
    + apply IH.
    + exists (u :: pre), post. split; [reflexivity|].
      constructor; assumption.
Qed.

(** A [resetNotification] queued in turn and due is run. *)
Lemma notification_fire_queued t tm q w :
  task tm = resetNotification -> due tm <= t -> queuedInTurn tm q ->
  notification (room (fire t q w)) = "".
Proof.
  intros Htask Hdue (pre & post & -> & Hpre). revert w.
  induction Hpre as [|u pre Hu Hpre IH]; intros w.
  - simpl app. rewrite fire_cons. destruct (Z.leb_spec (due tm) t); [|lia].
    rewrite Htask. now apply notification_fire_cleared.
  - simpl app. rewrite fire_cons. destruct (Z.leb_spec (due u) t); [|lia].
    apply IH.
Qed.

End NoticeFacts.

(** X9.  A presence event for another key sets the peer's name and whether
    it is online, shows the notice that it joined or left, sends nothing and
    leaves the player alone; 4000 ms later the notice is gone.  A presence
    event for the room's own key changes nothing. *)
Theorem presence_tracks_the_peer :
  forall (w : WatchRoom.World) (ch : SyncEngine.RealtimeChannel)
         (id key : string) (online : bool) (dt : Z),
    SyncEngine.channelRef (WatchRoom.engine w) = Some ch ->
    WatchRoom.identity (WatchRoom.ctx w) = Some id ->
    key <> id ->
    4000 <= dt ->
    let w' := WatchRoom.step (WatchRoom.Presence online key) w in
    WatchRoom.peerOnline (WatchRoom.room w') = online /\
    WatchRoom.peerName (WatchRoom.room w') = key /\
    WatchRoom.notification (WatchRoom.room w')
    = (key ++ (if online then " joined the room" else " left the room"))%string
    /\
    WatchRoom.emitted w w' = [] /\
    WatchRoom.issued w w' = [] /\
    WatchRoom.notification
      (WatchRoom.room (WatchRoom.step (WatchRoom.Advance dt) w')) = "" /\
    WatchRoom.step (WatchRoom.Presence online id) w = w.
Proof.
  intros w ch id key online dt Hch Hid Hne Hdt w'.
  assert (Hw' : w' = WatchRoom.handlePresenceChange
                       {| SyncEngine.pr_identity := key;
                          SyncEngine.pr_online := online |} w).
  { subst w'. cbn [WatchRoom.step]. unfold WatchRoom.presence.
    rewrite Hch, Hid. unfold SyncEngine.onPresence.
    destruct (String.eqb_spec key id); [contradiction|]. reflexivity. }
  assert (Hshape : w' = WatchRoom.showNotification
                          (key ++ (if online then " joined the room"
                                   else " left the room"))%string
                          (WatchRoom.inRoom (WatchRoom.setPeerName key)
                             (WatchRoom.inRoom
                                (WatchRoom.setPeerOnline online) w))).
  { rewrite Hw'. unfold WatchRoom.handlePresenceChange. cbn zeta.
    cbn [SyncEngine.pr_online SyncEngine.pr_identity].
    destruct online; reflexivity. }
  repeat split.
  - now rewrite Hshape.
  - now rewrite Hshape.
  - now rewrite Hshape.
  - rewrite Hshape. apply emitted_app with (cs := []). now rewrite app_nil_r.
  - rewrite Hshape. apply issued_app. now rewrite app_nil_r.
  - rewrite Hshape. cbn [WatchRoom.step]. unfold WatchRoom.advance.
    cbn zeta. unfold WatchRoom.showNotification at 2.
    cbn [WatchRoom.timers WatchRoom.withTimers WatchRoom.inRoom
         WatchRoom.withRoom WatchRoom.now].
    unfold EventLoop.setTimeout. apply notification_fire_enqueued.
    cbn [WatchRoom.now WatchRoom.showNotification WatchRoom.withTimers
         WatchRoom.inRoom WatchRoom.withRoom]. lia.
  - cbn [WatchRoom.step]. unfold WatchRoom.presence. rewrite Hch, Hid.
    unfold SyncEngine.onPresence. now rewrite String.eqb_refl.
Qed.

(** Aditya joins Manika's room; five seconds later the notice is gone. *)
Lemma presence_tracks_the_peer_witness :
  WatchRoom.notification
    (WatchRoom.room
       (WatchRoom.step (WatchRoom.Presence true "Aditya")
          Scenario.cloudRoom))
  = "Aditya joined the room" /\
  WatchRoom.notification
    (WatchRoom.room
       (WatchRoom.step (WatchRoom.Advance 5000)
          (WatchRoom.step (WatchRoom.Presence true "Aditya")
             Scenario.cloudRoom)))
  = "".
Proof.
  pose proof (presence_tracks_the_peer Scenario.cloudRoom
                Pair.manikaChannel "Manika" "Aditya" true 5000
                eq_refl eq_refl ltac:(discriminate) ltac:(lia)) as H.
  cbv zeta in H. destruct H as (_ & _ & Hn & _ & _ & Hgone & _).
  exact (conj Hn Hgone).
Defined.

(** X15.  [showNotification] never cancels a pending timer: a second notice
    shown [dt] ms after the first, with [dt] below 4000, is taken down when
    the first notice's timer fires, [4000 - dt] ms after it appeared. *)
Theorem notice_is_cleared_by_the_older_timer :
  forall (w : WatchRoom.World) (msg1 msg2 : string) (dt : Z),
    0 <= dt < 4000 ->
    let w1 := WatchRoom.showNotification msg1 w in
    let w2 :=
      WatchRoom.showNotification msg2
        (WatchRoom.step (WatchRoom.Advance dt) w1) in
    WatchRoom.notification (WatchRoom.room w2) = msg2 /\
    WatchRoom.now w2 = WatchRoom.now w + dt /\
    WatchRoom.notification
      (WatchRoom.room (WatchRoom.step (WatchRoom.Advance (4000 - dt)) w2))
    = "".
Proof.
  intros w msg1 msg2 dt Hdt w1 w2.
  set (tm := {| EventLoop.due := WatchRoom.now w + 4000;
                EventLoop.task := EventLoop.resetNotification |}).
  assert (Hq1 : Session.queuedInTurn tm (WatchRoom.timers w1))
    by apply queuedInTurn_enqueue.
  assert (Hnow1 : WatchRoom.now w1 = WatchRoom.now w) by reflexivity.
  set (wa := WatchRoom.step (WatchRoom.Advance dt) w1) in *.
  assert (Hnowa : WatchRoom.now wa = WatchRoom.now w + dt).
  { subst wa. cbn [WatchRoom.step]. unfold WatchRoom.advance. cbn zeta.
    pose proof (now_fire (WatchRoom.now w1 + Z.max 0 dt)
                  (WatchRoom.timers w1)
                  (WatchRoom.withNow (WatchRoom.now w1 + Z.max 0 dt) w1))
      as Hf.
    rewrite Hf. cbn [WatchRoom.now WatchRoom.withNow]. rewrite Hnow1. lia. }
  assert (Hqa : Session.queuedInTurn tm (WatchRoom.timers wa)).
  { subst wa. cbn [WatchRoom.step]. unfold WatchRoom.advance. cbn zeta.
    apply queuedInTurn_fire; [|exact Hq1].
    rewrite Hnow1. cbn [EventLoop.due tm]. lia. }
  assert (Hq2 : Session.queuedInTurn tm (WatchRoom.timers w2)).
  { subst w2. unfold WatchRoom.showNotification.
    cbn [WatchRoom.timers WatchRoom.withTimers WatchRoom.inRoom
         WatchRoom.withRoom WatchRoom.now].
    unfold EventLoop.setTimeout. apply queuedInTurn_later; [|exact Hqa].
    cbn [EventLoop.due tm]. rewrite Hnowa. lia. }
  assert (Hnow2 : WatchRoom.now w2 = WatchRoom.now w + dt)
    by (subst w2; exact Hnowa).
  split; [reflexivity|]. split; [exact Hnow2|].
  cbn [WatchRoom.step]. unfold WatchRoom.advance. cbn zeta.
  apply notification_fire_queued with (tm := tm); [reflexivity| |exact Hq2].
  rewrite Hnow2. cbn [EventLoop.due tm]. lia.
Qed.

(** A notice shown at 0 and another shown at 3000: the second is gone at
    4000, after one second. *)
Lemma notice_is_cleared_by_the_older_timer_witness :
  WatchRoom.notification
    (WatchRoom.room
       (WatchRoom.step (WatchRoom.Advance 1000)
          (WatchRoom.showNotification "Aditya left the room"
             (WatchRoom.step (WatchRoom.Advance 3000)
                (WatchRoom.showNotification "Aditya joined the room"
                   Scenario.cloudRoom)))))
  = "".
Proof.
  refine (proj2 (proj2 (notice_is_cleared_by_the_older_timer
                          Scenario.cloudRoom "Aditya joined the room"
                          "Aditya left the room" 3000 _))).
  lia.
Defined.

(** ** Buffering, chat and the chat button *)

Section TalkFacts.
Import SyncEngine VideoPlayer WatchRoom EventLoop Session.

Lemma receive_buffer_calls e w ch id p :
  channelRef (engine w) = Some ch ->
  identity (ctx w) = Some id ->
  bs_sender e <> id ->
  playerRef w = Some p ->
  issued w (receive (Some (buffer_state e)) w)
  = if bs_isBuffering e then [call_pause]
    else if localBufferingRef (room w) then [] else [call_play].
Proof.
  intros Hch Hid Hne Hp.
  rewrite (receive_peer w ch id (buffer_state e) Hch Hid Hne).
  cbn [dispatch callbacks onBufferState callOpt].
  unfold handleBufferState. cbn zeta. destruct (bs_isBuffering e).
  - apply issued_app. etransitivity; [apply playerCalls_pause with p|];
      [exact Hp|reflexivity].
  - cbn [room inRoom withRoom localBufferingRef setBufferNotice
         setPeerBuffering setPeerBufferingRef].
    destruct (localBufferingRef (room w)); cbn [negb].
    + apply issued_app. now rewrite app_nil_r.
    + apply issued_app. etransitivity; [apply playerCalls_play with p|];
        [exact Hp|reflexivity].
Qed.










Lemma flat_map_sentOf_send name (f : string -> SyncEvent) texts :
  flat_map sentOf (map (fun txt => t_send name (f txt)) texts) = map f texts.
Proof. induction texts as [|t texts IH]; simpl; [|rewrite IH]; reflexivity. Qed.

End TalkFacts.

(** X10.  The [waiting] and [playing] events of the element are reported
    whether or not the suppression flag is set: the room records that it is
    (or is no longer) buffering and sends one [buffer_state] event.  The
    peer answers a stall with [pause()], and the end of a stall with
    [play()] unless it is buffering itself. *)
Theorem buffering_is_reported_despite_suppression :
  forall (A B : WatchRoom.World) (chA chB : SyncEngine.RealtimeChannel)
         (a b : string) (pA pB : VideoPlayer.Player)
         (v : VideoPlayer.HTMLVideoElement) (ev : VideoPlayer.MediaEvent),
    SyncEngine.channelRef (WatchRoom.engine A) = Some chA ->
    SyncEngine.channelRef (WatchRoom.engine B) = Some chB ->
    SyncEngine.channelName chA = SyncEngine.channelName chB ->
    WatchRoom.identity (WatchRoom.ctx A) = Some a -> a <> "" ->
    WatchRoom.identity (WatchRoom.ctx B) = Some b -> a <> b ->
    WatchRoom.playerRef A = Some pA ->
    VideoPlayer.videoRef pA = Some v ->
    WatchRoom.playerRef B = Some pB ->
    Protocol.isEcho ev = false ->
    let A' := WatchRoom.step (WatchRoom.Media ev) A in
    let sent := WatchRoom.emitted A A' in
    sent
    = [SyncEngine.buffer_state
         {| SyncEngine.bs_isBuffering := Session.stalls ev;
            SyncEngine.bs_sender := a;
            SyncEngine.bs_timestamp := WatchRoom.now A |}] /\
    WatchRoom.localBufferingRef (WatchRoom.room A') = Session.stalls ev /\
    WatchRoom.issued B (Session.deliver sent B)
    = (if Session.stalls ev then [VideoPlayer.call_pause]
       else if WatchRoom.localBufferingRef (WatchRoom.room B) then []
            else [VideoPlayer.call_play]).
Proof.
  intros A B chA chB a b pA pB v ev HchA HchB Hname HidA Ha HidB Hab
    HpA Hv HpB Hev A' sent.
  assert (HA' : A' = WatchRoom.inEngine
                       (SyncEngine.emit (Some a) (WatchRoom.now A)
                          (SyncEngine.call_emitBufferState
                             (Session.stalls ev)))
                       (WatchRoom.inRoom
                          (WatchRoom.setLocalBufferingRef (Session.stalls ev))
                          A)).
  { subst A'. cbn [WatchRoom.step]. unfold WatchRoom.mediaEvent.
    rewrite HpA, Hv. unfold VideoPlayer.listener.
    destruct ev; try discriminate;
      cbn [WatchRoom.props VideoPlayer.onBufferingStart
           VideoPlayer.onBufferingEnd VideoPlayer.callOpt0 Session.stalls];
      unfold WatchRoom.handleBufferingStart, WatchRoom.handleBufferingEnd;
      cbn zeta; cbn [WatchRoom.ctx WatchRoom.inRoom WatchRoom.withRoom
                     WatchRoom.now]; rewrite HidA; reflexivity. }
  assert (Hsent : sent
                  = [SyncEngine.buffer_state
                       {| SyncEngine.bs_isBuffering := Session.stalls ev;
                          SyncEngine.bs_sender := a;
                          SyncEngine.bs_timestamp := WatchRoom.now A |}]).
  { subst sent. rewrite HA'.
    exact (emitted_emit_open a (WatchRoom.now A)
             (SyncEngine.call_emitBufferState (Session.stalls ev))
             (WatchRoom.inRoom
                (WatchRoom.setLocalBufferingRef (Session.stalls ev)) A)
             chA Ha HchA). }
  split; [exact Hsent|]. split; [now rewrite HA'|].
  rewrite Hsent. unfold Session.deliver. cbn [fold_left].
  rewrite (receive_buffer_calls _ B chB b pB HchB HidB) by
    (simpl; congruence || assumption).
  reflexivity.
Qed.

(** Manika's player was just told to play by Aditya's event, so its flag is
    set; its [playing] event still goes out as the end of a stall, and
    Aditya's room answers with [play()]. *)
Lemma buffering_is_reported_despite_suppression_witness :
  WatchRoom.issued Pair.adityaRoom
    (Session.deliver
       (WatchRoom.emitted
          (WatchRoom.receive
             (Some (SyncEngine.playback_state Scenario.peerPlayingAt10))
             Scenario.cloudRoom)
          (WatchRoom.step (WatchRoom.Media VideoPlayer.ev_playing)
             (WatchRoom.receive
                (Some (SyncEngine.playback_state Scenario.peerPlayingAt10))
                Scenario.cloudRoom)))
       Pair.adityaRoom)
  = [VideoPlayer.call_play].
Proof.
  refine (proj2 (proj2 (buffering_is_reported_despite_suppression
            (WatchRoom.receive
               (Some (SyncEngine.playback_state Scenario.peerPlayingAt10))
               Scenario.cloudRoom)
            Pair.adityaRoom Pair.manikaChannel Pair.adityaChannel
            "Manika" "Aditya"
            {| VideoPlayer.videoRef :=
                 Some {| VideoPlayer.currentTime := Scenario.t10;
                         VideoPlayer.paused := false |};
               VideoPlayer.suppressEventsRef := true;
               VideoPlayer.calls :=
                 [VideoPlayer.call_seekTo 10; VideoPlayer.call_play] |}
            Pair.playingAt12
            {| VideoPlayer.currentTime := Scenario.t10; VideoPlayer.paused := false |}
            VideoPlayer.ev_playing _ _ _ _ _ _ _ _ _ _ _)));
    try reflexivity; discriminate.
Defined.



(** X12.  A message typed while the hook holds no channel is added to the
    room's own transcript, with the clock reading made for it, and goes
    nowhere else: the transport is not called, and no notice or warning
    appears. *)
Theorem chat_without_channel_stays_local :
  forall (txt : string) (elapsed : Z) (w : WatchRoom.World),
    SyncEngine.channelRef (WatchRoom.engine w) = None ->
    let w' := WatchRoom.step (WatchRoom.SendMessage txt elapsed) w in
    WatchRoom.engine w' = WatchRoom.engine w /\
    WatchRoom.messages (WatchRoom.room w')
    = WatchRoom.messages (WatchRoom.room w)
      ++ [Session.entry
            (match WatchRoom.identity (WatchRoom.ctx w) with
             | Some id => id
             | None => ""
             end) (WatchRoom.now w + Z.max 0 elapsed) txt] /\
    WatchRoom.notification (WatchRoom.room w')
    = WatchRoom.notification (WatchRoom.room w) /\
    WatchRoom.hashWarning (WatchRoom.room w')
    = WatchRoom.hashWarning (WatchRoom.room w).
Proof.
  intros txt elapsed w Hch w'. subst w'. cbn [WatchRoom.step].
  unfold WatchRoom.handleSendMessage. cbn zeta.
  change (SyncEngine.emitChatMessage ?i ?n ?t)
    with (SyncEngine.emit i n (SyncEngine.call_emitChatMessage t)).
  cbn [WatchRoom.engine WatchRoom.ctx WatchRoom.now WatchRoom.room
       WatchRoom.inRoom WatchRoom.withRoom WatchRoom.inEngine
       WatchRoom.withEngine WatchRoom.withNow WatchRoom.messages
       WatchRoom.setMessages WatchRoom.notification WatchRoom.hashWarning].
  rewrite (emit_closed _ _ _ _ Hch). repeat split.
Qed.

(** Manika types before her room has subscribed. *)
Lemma chat_without_channel_stays_local_witness :
  WatchRoom.engine
    (WatchRoom.step (WatchRoom.SendMessage "hello?" 0)
       (Scenario.fresh Scenario.cloudContext None))
  = SyncEngine.initial.
Proof.
  refine (proj1 (chat_without_channel_stays_local "hello?" 0
                   (Scenario.fresh Scenario.cloudContext None) _)).
  reflexivity.
Defined.

Section ToggleFacts.
Import SyncEngine VideoPlayer WatchRoom EventLoop Session.










End ToggleFacts.



(** ** Two local rooms comparing their files *)

Section VerdictFacts.
Import SyncEngine VideoPlayer WatchRoom EventLoop Session.

Lemma sentOf_sends name l : flat_map sentOf (map (t_send name) l) = l.
Proof. induction l as [|e l IH]; simpl; [|rewrite IH]; reflexivity. Qed.

Lemma join_says_handshake w id :
  engine w = SyncEngine.initial ->
  identity (ctx w) = Some id -> id <> "" ->
  let w1 := run [Subscribe; SubscribeStatus "SUBSCRIBED"] w in
  emitted w w1 = handshake (ctx w) id /\
  (exists ch, channelRef (engine w1) = Some ch) /\ ctx w1 = ctx w.
Proof.
  intros He Hid Hne w1.
  pose proof (subscribe_fresh w id He Hid Hne) as Hs.
  assert (H1 : engine w1
               = {| channelRef :=
                      Some {| channelName :=
                                channelNameFor (effectiveRoomId (ctx w));
                              presenceKey := id |};
                    connected := true;
                    wire :=
                      ([t_channel (channelNameFor (effectiveRoomId (ctx w)))
                          id;
                        t_subscribe
                          (channelNameFor (effectiveRoomId (ctx w)))]
                       ++ [t_track (channelNameFor (effectiveRoomId (ctx w)))
                             id])
                      ++ map (t_send
                                (channelNameFor (effectiveRoomId (ctx w))))
                           (handshake (ctx w) id) |}).
  { subst w1. unfold run. cbn [fold_left step].
    rewrite (subscribeStatus_first (subscribe w)
               {| channelName := channelNameFor (effectiveRoomId (ctx w));
                  presenceKey := id |} id);
      rewrite ?Hs; try reflexivity; assumption. }
  split; [|split].
  - unfold emitted. rewrite H1, He. cbn [wire SyncEngine.initial length skipn].
    rewrite flat_map_app. cbn [flat_map sentOf app]. apply sentOf_sends.
  - eexists. now rewrite H1.
  - pose proof (guards_step (SubscribeStatus "SUBSCRIBED") (subscribe w))
      as Hg.
    unfold guards in Hg. subst w1. unfold run. cbn [fold_left step].
    cbn [step] in Hg.
    exact (f_equal snd (Hg ltac:(discriminate))).
Qed.

Lemma handleRequestState_sends e w ch id p f :
  channelRef (engine w) = Some ch ->
  identity (ctx w) = Some id -> id <> "" ->
  playerRef w = Some p ->
  localHashed (ctx w) = Some f ->
  emitted w (handleRequestState e w)
  = [playback_state
       {| ps_state := if isPlaying p then playing else SyncEngine.paused;
          ps_time := getCurrentTime p; ps_sender := id;
          ps_timestamp := now w |};
     file_hash {| fh_hash := lf_hash f; fh_fileName := lf_name f;
                  fh_sender := id |}].
Proof.
  intros Hch Hid Hne Hp Hf. unfold handleRequestState, playerTime,
    playerIsPlaying. rewrite Hp. cbn zeta.
  change (emitPlaybackState ?i ?n ?st ?t)
    with (emit i n (call_emitPlaybackState st t)).
  change (emitFileHash ?i ?h ?n) with (emit i 0 (call_emitFileHash h n)).
  cbn [ctx inEngine withEngine]. rewrite Hf, Hid.
  apply emitted_app
    with (cs := [t_send (channelName ch)
                   (eventOf id (now w)
                      (call_emitPlaybackState
                         (if isPlaying p then playing else SyncEngine.paused)
                         (getCurrentTime p)));
                 t_send (channelName ch)
                   (eventOf id 0
                      (call_emitFileHash (lf_hash f) (lf_name f)))]).
  unfold inEngine. cbn [engine withEngine].
  rewrite (emit_open id _ _ (engine w) ch Hne Hch).
  rewrite (emit_open id 0 _ _ ch Hne) by exact Hch.
  unfold transportCall. cbn [wire]. now rewrite <- app_assoc.
Qed.

Lemma handleFileHash_keeps e w :
  engine (handleFileHash e w) = engine w /\
  playerRef (handleFileHash e w) = playerRef w /\
  now (handleFileHash e w) = now w.
Proof.
  unfold handleFileHash. destruct (localHashed (ctx w)); [|auto].
  destruct (negb _); auto.
Qed.

Lemma truthy_mismatchWarning e : truthyString (mismatchWarning e) = true.
Proof. reflexivity. Qed.

Lemma hashWarning_handleFileHash e w f :
  localHashed (ctx w) = Some f ->
  truthyString (hashWarning (room (handleFileHash e w)))
  = negb (String.eqb (fh_hash e) (lf_hash f)).
Proof.
  intros Hf. rewrite room_handleFileHash, Hf.
  destruct (String.eqb (fh_hash e) (lf_hash f)); reflexivity.
Qed.

End VerdictFacts.

(** X14.  A local room A with a hashed file joins; a local room B with a
    hashed file and a mounted player is already there.  B receives A's hash
    and state request, and answers with its playback state followed by its
    own hash; A receives the answer.  Both rooms then show the mismatch
    banner when the two hashes differ, and neither shows it when they are
    equal. *)
Theorem both_rooms_reach_the_same_verdict :
  forall (A0 B : WatchRoom.World) (chB : SyncEngine.RealtimeChannel)
         (a b : string) (pB : VideoPlayer.Player)
         (fA fB : WatchRoom.LocalFile),
    WatchRoom.engine A0 = SyncEngine.initial ->
    WatchRoom.identity (WatchRoom.ctx A0) = Some a -> a <> "" ->
    WatchRoom.localHashed (WatchRoom.ctx A0) = Some fA ->
    SyncEngine.channelRef (WatchRoom.engine B) = Some chB ->
    WatchRoom.identity (WatchRoom.ctx B) = Some b -> b <> "" ->
    a <> b ->
    WatchRoom.playerRef B = Some pB ->
    WatchRoom.localHashed (WatchRoom.ctx B) = Some fB ->
    let A1 :=
      WatchRoom.run [WatchRoom.Subscribe;
                     WatchRoom.SubscribeStatus "SUBSCRIBED"] A0 in
    let B' := Session.deliver (WatchRoom.emitted A0 A1) B in
    let A' := Session.deliver (WatchRoom.emitted B B') A1 in
    WatchRoom.emitted B B'
    = [SyncEngine.playback_state
         {| SyncEngine.ps_state :=
              if VideoPlayer.isPlaying pB
              then SyncEngine.playing else SyncEngine.paused;
            SyncEngine.ps_time := VideoPlayer.getCurrentTime pB;
            SyncEngine.ps_sender := b;
            SyncEngine.ps_timestamp := WatchRoom.now B |};
       SyncEngine.file_hash
         {| SyncEngine.fh_hash := WatchRoom.lf_hash fB;
            SyncEngine.fh_fileName := WatchRoom.lf_name fB;
            SyncEngine.fh_sender := b |}] /\
    truthyString (WatchRoom.hashWarning (WatchRoom.room B'))
    = negb (String.eqb (WatchRoom.lf_hash fA) (WatchRoom.lf_hash fB)) /\
    truthyString (WatchRoom.hashWarning (WatchRoom.room A'))
    = negb (String.eqb (WatchRoom.lf_hash fA) (WatchRoom.lf_hash fB)).
Proof.
  intros A0 B chB a b pB fA fB HeA HidA Ha HfA HchB HidB Hb Hab HpB HfB
    A1 B' A'.
  destruct (join_says_handshake A0 a HeA HidA Ha) as (Hsay & [chA HchA] & Hctx).
  fold A1 in Hsay, HchA, Hctx.
  unfold Session.handshake in Hsay. rewrite HfA in Hsay.
  set (eA := {| SyncEngine.fh_hash := WatchRoom.lf_hash fA;
                SyncEngine.fh_fileName := WatchRoom.lf_name fA;
                SyncEngine.fh_sender := a |}) in *.
  set (B1 := WatchRoom.handleFileHash eA B).
  destruct (handleFileHash_keeps eA B) as (He1 & Hp1 & Hn1).
  fold B1 in He1, Hp1, Hn1.
  assert (Hc1 : WatchRoom.ctx B1 = WatchRoom.ctx B)
    by apply ctx_handleFileHash.
  assert (HB' : B' = WatchRoom.handleRequestState
                       {| SyncEngine.rs_sender := a |} B1).
  { subst B'. rewrite Hsay. unfold Session.deliver. cbn [fold_left].
    rewrite (receive_peer B chB b _ HchB HidB) by (simpl; congruence).
    cbn [SyncEngine.dispatch WatchRoom.callbacks SyncEngine.onFileHash
         SyncEngine.callOpt]. fold B1.
    rewrite (receive_peer B1 chB b _);
      [reflexivity|now rewrite He1|now rewrite Hc1|simpl; congruence]. }
  assert (Hreply : WatchRoom.emitted B1 B'
                   = [SyncEngine.playback_state
                        {| SyncEngine.ps_state :=
                             if VideoPlayer.isPlaying pB
                             then SyncEngine.playing else SyncEngine.paused;
                           SyncEngine.ps_time := VideoPlayer.getCurrentTime pB;
                           SyncEngine.ps_sender := b;
                           SyncEngine.ps_timestamp := WatchRoom.now B |};
                      SyncEngine.file_hash
                        {| SyncEngine.fh_hash := WatchRoom.lf_hash fB;
                           SyncEngine.fh_fileName := WatchRoom.lf_name fB;
                           SyncEngine.fh_sender := b |}]).
  { rewrite HB', <- Hn1.
    apply handleRequestState_sends with chB;
      rewrite ?He1, ?Hc1, ?Hp1; assumption. }
  assert (HreplyB : WatchRoom.emitted B B' = WatchRoom.emitted B1 B').
  { unfold WatchRoom.emitted. now rewrite He1. }
  split; [now rewrite HreplyB|]. split.
  - rewrite HB', room_handleRequestState. subst B1.
    rewrite (hashWarning_handleFileHash eA B fB HfB). reflexivity.
  - subst A'. rewrite HreplyB, Hreply. unfold Session.deliver.
    cbn [fold_left].
    set (ps := SyncEngine.playback_state _).
    rewrite (receive_peer A1 chA a ps HchA) by
      (rewrite ?Hctx; simpl; congruence || assumption).
    set (A2 := SyncEngine.dispatch WatchRoom.callbacks ps A1).
    pose proof (guards_dispatch ps A1) as Hg. fold A2 in Hg.
    unfold WatchRoom.guards in Hg.
    assert (Hch2 : SyncEngine.channelRef (WatchRoom.engine A2) = Some chA)
      by (rewrite <- HchA; exact (f_equal fst Hg)).
    assert (Hc2 : WatchRoom.ctx A2 = WatchRoom.ctx A0)
      by (rewrite <- Hctx; exact (f_equal snd Hg)).
    rewrite (receive_peer A2 chA a _ Hch2) by
      (rewrite ?Hc2; simpl; congruence || assumption).
    cbn [SyncEngine.dispatch WatchRoom.callbacks SyncEngine.onFileHash
         SyncEngine.callOpt].
    rewrite (hashWarning_handleFileHash _ A2 fA) by now rewrite Hc2.
    cbn [SyncEngine.fh_hash]. now rewrite String.eqb_sym.
Qed.

(** Aditya's local file hashes to abc123, Manika's to def456: both rooms
    show the banner. *)
Lemma both_rooms_reach_the_same_verdict_witness :
  truthyString
    (WatchRoom.hashWarning
       (WatchRoom.room
          (Session.deliver
             (WatchRoom.emitted
                (Scenario.fresh Pair.adityaLocalContext None)
                (WatchRoom.run [WatchRoom.Subscribe;
                                WatchRoom.SubscribeStatus "SUBSCRIBED"]
                   (Scenario.fresh Pair.adityaLocalContext None)))
             Scenario.localRoom)))
  = true.
Proof.
  refine (proj1 (proj2 (both_rooms_reach_the_same_verdict
            (Scenario.fresh Pair.adityaLocalContext None)
            Scenario.localRoom
            {| SyncEngine.channelName := "watchroom-bW92aWU";
               SyncEngine.presenceKey := "Manika" |}
            "Aditya" "Manika" Scenario.pausedAt40
            {| WatchRoom.lf_name := "film.mp4"; WatchRoom.lf_size := 2048;
               WatchRoom.lf_objectUrl := "blob:2";
               WatchRoom.lf_hash := "abc123" |}
            {| WatchRoom.lf_name := "movie.mp4"; WatchRoom.lf_size := 1024;
               WatchRoom.lf_objectUrl := "blob:1";
               WatchRoom.lf_hash := "def456" |}
            _ _ _ _ _ _ _ _ _ _))); try reflexivity; discriminate.
Defined.

(** ** The provider and its views *)

Section ProviderFacts.
Import AppProvider.

Lemma wellFormed_mount st : wellFormed (mount st).
Proof.
  unfold mount, wellFormed.
  destruct (mnm_password st) as [pw|] eqn:Hpw;
    [|simpl; repeat split; try discriminate; congruence].
  destruct (truthyString pw) eqn:Ht;
    [|simpl; repeat split; try discriminate; congruence].
  apply truthyString_true in Ht.
  destruct (truthyIdentity (mnm_identity st)) eqn:Hi; simpl;
    repeat split; try discriminate; eauto.
Qed.

(** Each provider callback, called from the view that offers it, keeps the
    state well formed. *)
Lemma wellFormed_setPassword pw s :
  wellFormed s -> view s = v_password -> pw <> "" ->
  wellFormed (setPassword pw s).
Proof.
  intros (Hpw & Hid & Hview) Hv Hne. rewrite Hv in Hview.
  unfold wellFormed. simpl. repeat split; try discriminate; eauto;
    apply Hview.
Qed.

Lemma wellFormed_setIdentity who s :
  wellFormed s -> view s = v_identity ->
  wellFormed (setIdentity (Some (nameOf who)) s).
Proof.
  intros (Hpw & Hid & Hview) Hv. rewrite Hv in Hview.
  destruct Hpw as [Hp Hex]; [rewrite Hv; discriminate|].
  unfold wellFormed. simpl.
  destruct who; simpl; repeat split; try assumption; apply Hview.
Qed.

Lemma wellFormed_setMode m s :
  wellFormed s -> view s = v_modeselect ->
  wellFormed (setMode (Some m) s).
Proof.
  intros (Hpw & Hid & Hview) Hv. rewrite Hv in Hview, Hid.
  destruct Hpw as [Hp Hex]; [rewrite Hv; discriminate|].
  destruct (Hid eq_refl) as [Hi Hs].
  unfold wellFormed. destruct m; simpl; repeat split; try assumption;
    apply Hview.
Qed.

Lemma wellFormed_logout s : wellFormed (logout s).
Proof.
  unfold wellFormed. simpl. repeat split; try discriminate;
    exfalso; congruence.
Qed.

Lemma wellFormed_backToDashboard s :
  wellFormed s -> signedIn (view s) = true ->
  wellFormed (backToDashboard s).
Proof.
  intros (Hpw & Hid & Hview) Hv.
  destruct Hpw as [Hp Hex]; [intros E; rewrite E in Hv; discriminate|].
  destruct (Hid Hv) as [Hi Hs].
  unfold wellFormed. simpl. repeat split; assumption.
Qed.

Lemma wellFormed_selectVideo video s :
  wellFormed s -> view s = v_dashboard ->
  wellFormed (selectVideo video s).
Proof.
  intros (Hpw & Hid & Hview) Hv. rewrite Hv in Hview, Hid.
  destruct Hpw as [Hp Hex]; [rewrite Hv; discriminate|].
  destruct (Hid eq_refl) as [Hi Hs]. destruct Hview as (Hm & Hl & _).
  unfold wellFormed. simpl. repeat split; try assumption.
  left. repeat split; try assumption. now exists video.
Qed.

Lemma wellFormed_setLocalFile file rid s :
  wellFormed s -> view s = v_localfile ->
  wellFormed (setLocalFile file rid s).
Proof.
  intros (Hpw & Hid & Hview) Hv. rewrite Hv in Hview, Hid.
  destruct Hpw as [Hp Hex]; [rewrite Hv; discriminate|].
  destruct (Hid eq_refl) as [Hi Hs]. destruct Hview as (Hm & _ & Hsel & _).
  unfold wellFormed. simpl. repeat split; try assumption.
  right. repeat split; try assumption. now exists file, rid.
Qed.

Lemma sameView_eq a b : sameView a b = true -> a = b.
Proof. destruct a, b; simpl; congruence. Qed.

Lemma sound_render s' pg :
  wellFormed s' -> busyFits pg -> sound (render s' pg).
Proof.
  intros Hw Hb. unfold render, sound.
  destruct (sameView (view s') (view (app pg))) eqn:Hv; simpl.
  - split; [exact Hw|]. apply sameView_eq in Hv.
    unfold busyFits in *. simpl. rewrite Hv. exact Hb.
  - split; [exact Hw|exact I].
Qed.

Lemma sound_await k pg :
  sound pg ->
  match k with
  | p_setPassword pw => view (app pg) = v_password /\ pw <> ""
  | p_start _ => view (app pg) = v_localfile
  end ->
  sound (await k pg).
Proof.
  intros [Hw Hb] Hk. unfold await.
  destruct (busy pg) eqn:Hbusy; [now split|].
  split; [exact Hw|]. unfold busyFits. simpl. exact Hk.
Qed.

Lemma sound_load st : sound (load st).
Proof. split; [apply wellFormed_mount|exact I]. Qed.

Lemma sound_click c pg :
  timely c = true -> sound pg -> sound (click c pg).
Proof.
  intros Ht Hs. pose proof Hs as [Hw Hb].
  destruct c as [pw|who|m| | |video|fileRef roomName| |n| ];
    try discriminate; cbn [click]; try apply sound_load.
  - destruct (view (app pg)) eqn:Hv; try exact Hs.
    destruct (truthyString pw) eqn:Hpw; [|exact Hs].
    apply sound_await; [exact Hs|].
    split; [exact Hv|now apply truthyString_true].
  - destruct (view (app pg)) eqn:Hv; try exact Hs.
    apply sound_render; [now apply wellFormed_setIdentity|exact Hb].
  - destruct (view (app pg)) eqn:Hv; try exact Hs.
    apply sound_render; [now apply wellFormed_setMode|exact Hb].
  - destruct (view (app pg)) eqn:Hv; try exact Hs;
      (apply sound_render; [apply wellFormed_logout|exact Hb]).
  - destruct (view (app pg)) eqn:Hv; try exact Hs;
      (apply sound_render;
       [apply wellFormed_backToDashboard; [exact Hw|now rewrite Hv]
       |exact Hb]).
  - destruct (view (app pg)) eqn:Hv; try exact Hs.
    apply sound_render; [now apply wellFormed_selectVideo|exact Hb].
  - destruct (view (app pg)) eqn:Hv; try exact Hs.
    destruct (startsHashing fileRef roomName); [|exact Hs].
    apply sound_await; [exact Hs|exact Hv].
  - destruct (busy pg) as [k|] eqn:Hbusy; [|exact Hs].
    unfold busyFits in Hb. rewrite Hbusy in Hb.
    apply sound_render; [|exact I].
    destruct k as [pw|[msg|file rid]]; cbn [settle].
    + destruct Hb as [Hv Hne]. now apply wellFormed_setPassword.
    + exact Hw.
    + now apply wellFormed_setLocalFile.
Qed.

Lemma sound_run clicks : forall pg,
  forallb timely clicks = true -> sound pg -> sound (run clicks pg).
Proof.
  induction clicks as [|c clicks IH]; intros pg Ht Hs; [exact Hs|].
  cbn [forallb] in Ht. apply andb_true_iff in Ht as [Hc Ht].
  unfold run in *. cbn [fold_left]. apply IH; [exact Ht|].
  now apply sound_click.
Qed.

(** What is kept whenever the waits end. *)
Lemma stored_mount st : stored (mount st).
Proof.
  unfold mount, stored.
  destruct (mnm_password st) as [pw|] eqn:Hpw;
    [|simpl; split; [intros [H|H]; [discriminate|now elim H]|discriminate]].
  destruct (truthyString pw) eqn:Ht;
    [|simpl; split; [intros [H|H]; [discriminate|now elim H]|discriminate]].
  apply truthyString_true in Ht.
  destruct (mnm_identity st) as [id|] eqn:Hi; simpl.
  - destruct (truthyString id) eqn:Hid; simpl.
    + split; [eauto|]. intros id' [= <-].
      split; [now apply truthyString_true|exact Hi].
    + split; [eauto|discriminate].
  - split; [eauto|discriminate].
Qed.

Lemma stored_setPassword pw s :
  pw <> "" -> stored s -> stored (setPassword pw s).
Proof.
  intros Hne [Hp Hi]. unfold stored. simpl. split; [eauto|exact Hi].
Qed.

Lemma stored_setIdentity who s :
  stored s -> view s = v_identity ->
  stored (setIdentity (Some (nameOf who)) s).
Proof.
  intros [Hp Hi] Hv. destruct (Hp (or_introl Hv)) as [Hpw Hex].
  unfold stored. destruct who; simpl;
    (split; [auto|intros id [= <-]; split; [discriminate|reflexivity]]).
Qed.

(** A callback that touches neither the password, the identity nor the
    storage, and does not show the identity selector. *)
Lemma stored_same s s' :
  stored s -> view s' <> v_identity ->
  password s' = password s -> storage s' = storage s ->
  WatchRoom.identity (context s') = WatchRoom.identity (context s) ->
  stored s'.
Proof.
  intros [Hp Hi] Hv Epw Est Eid. unfold stored.
  rewrite Epw, Est, Eid. split; [|exact Hi].
  intros [H|H]; [contradiction|]. apply Hp. now right.
Qed.

Lemma stored_logout s : stored (logout s).
Proof.
  unfold stored. simpl. split; [|discriminate].
  intros [H|H]; [discriminate|now elim H].
Qed.

Lemma stored_settle k s :
  (forall pw, k = p_setPassword pw -> pw <> "") ->
  stored s -> stored (settle k s).
Proof.
  intros Hk Hs. destruct k as [pw|[msg|file rid]]; cbn [settle].
  - apply stored_setPassword; [now apply Hk|exact Hs].
  - exact Hs.
  - apply (stored_same s); try reflexivity; [exact Hs|discriminate].
Qed.

Lemma In_without {A : Type} (x : A) n : forall l,
  In x (without n l) -> In x l.
Proof.
  induction n as [|n IH]; intros [|y l]; simpl; auto.
  intros [H|H]; [now left|right; now apply IH].
Qed.

Lemma pendingOk_render s' pg : pendingOk pg -> pendingOk (render s' pg).
Proof.
  intros Hp pw. unfold render, waiting.
  destruct (sameView _ _); simpl; [apply Hp|].
  intros Hin. apply Hp. apply in_app_iff in Hin. apply in_app_iff.
  destruct Hin as [Hin|Hin]; [now right|now left].
Qed.

Lemma consistent_render s' pg :
  stored s' -> pendingOk pg -> consistent (render s' pg).
Proof.
  intros Hs Hp. split; [now apply pendingOk_render|].
  unfold render. now destruct (sameView _ _).
Qed.

Lemma consistent_await k pg :
  (forall pw, k = p_setPassword pw -> pw <> "") ->
  consistent pg -> consistent (await k pg).
Proof.
  intros Hk [Hp Hs]. unfold await.
  destruct (busy pg) eqn:Hbusy; [now split|].
  split; [|exact Hs]. intros pw. unfold waiting. simpl.
  intros [E|Hin]; [now apply Hk|].
  apply Hp. unfold waiting. now rewrite Hbusy.
Qed.

Lemma consistent_load st : consistent (load st).
Proof. split; [intros pw []|apply stored_mount]. Qed.

Lemma consistent_click c pg : consistent pg -> consistent (click c pg).
Proof.
  intros Hc. pose proof Hc as [Hp Hs].
  destruct c as [pw|who|m| | |video|fileRef roomName| |n| ];
    cbn [click]; try apply consistent_load.
  - destruct (view (app pg)) eqn:Hv; try exact Hc.
    destruct (truthyString pw) eqn:Hpw; [|exact Hc].
    apply consistent_await; [|exact Hc].
    intros pw' [= <-]. now apply truthyString_true.
  - destruct (view (app pg)) eqn:Hv; try exact Hc.
    apply consistent_render; [now apply stored_setIdentity|exact Hp].
  - destruct (view (app pg)) eqn:Hv; try exact Hc.
    apply consistent_render; [|exact Hp].
    apply (stored_same (app pg)); try reflexivity; [exact Hs|].
    destruct m; discriminate.
  - destruct (view (app pg)) eqn:Hv; try exact Hc;
      (apply consistent_render; [apply stored_logout|exact Hp]).
  - destruct (view (app pg)) eqn:Hv; try exact Hc;
      (apply consistent_render; [|exact Hp];
       apply (stored_same (app pg)); try reflexivity;
       [exact Hs|discriminate]).
  - destruct (view (app pg)) eqn:Hv; try exact Hc.
    apply consistent_render; [|exact Hp].
    apply (stored_same (app pg)); try reflexivity; [exact Hs|discriminate].
  - destruct (view (app pg)) eqn:Hv; try exact Hc.
    destruct (startsHashing fileRef roomName); [|exact Hc].
    apply consistent_await; [discriminate|exact Hc].
  - destruct (busy pg) as [k|] eqn:Hbusy; [|exact Hc].
    apply consistent_render.
    + apply stored_settle; [|exact Hs].
      intros pw ->. apply Hp. unfold waiting. rewrite Hbusy. now left.
    + intros pw Hin. apply Hp. unfold waiting in *. rewrite Hbusy.
      simpl in *. now right.
  - destruct (nth_error (detached pg) n) as [k|] eqn:Hn; [|exact Hc].
    apply consistent_render.
    + apply stored_settle; [|exact Hs].
      intros pw ->. apply Hp. apply in_app_iff. right.
      now apply nth_error_In with n.
    + intros pw Hin. apply Hp. unfold waiting in *. simpl in *.
      apply in_app_iff in Hin. apply in_app_iff.
      destruct Hin as [Hin|Hin]; [now left|right].
      now apply In_without with n.
Qed.

Lemma consistent_run clicks : forall pg,
  consistent pg -> consistent (run clicks pg).
Proof.
  induction clicks as [|c clicks IH]; intros pg Hc; [exact Hc|].
  unfold run in *. cbn [fold_left]. apply IH. now apply consistent_click.
Qed.

End ProviderFacts.

(** X16.  From whatever the browser's storage held at page load, and as
    long as no wait ends late (the hash of a started local room arrives
    while the selector that started it is still shown, and the server's
    answer while the password gate is): when the watch room is shown, the
    provider holds a non-empty identity, so the engine's subscription
    effect passes its guard and subscribes the channel named after the room
    key with that identity as presence key; and the room has either a
    selected cloud video whose id is the room id and no local file, or a
    local file with a room id and no cloud video.  A wait that ends late
    breaks this: [setLocalFile] shows the watch room from any view, and
    after Back and Log Out it shows it with no identity, where the
    subscription effect returns at its guard. *)
Theorem watch_room_is_shown_with_identity_and_room :
  (forall (st : AppProvider.Storage) (clicks : list AppProvider.Click)
          (p : option VideoPlayer.Player),
     let s := AppProvider.app (AppProvider.run clicks (AppProvider.load st)) in
     let c := AppProvider.context s in
     forallb AppProvider.timely clicks = true ->
     AppProvider.view s = AppProvider.v_watchroom ->
     exists id,
       WatchRoom.identity c = Some id /\ id <> "" /\
       WatchRoom.engine
         (WatchRoom.step WatchRoom.Subscribe (Scenario.fresh c p))
       = {| SyncEngine.channelRef :=
              Some {| SyncEngine.channelName :=
                        SyncEngine.channelNameFor
                          (WatchRoom.effectiveRoomId c);
                      SyncEngine.presenceKey := id |};
            SyncEngine.connected := false;
            SyncEngine.wire :=
              [SyncEngine.t_channel
                 (SyncEngine.channelNameFor (WatchRoom.effectiveRoomId c))
                 id;
               SyncEngine.t_subscribe
                 (SyncEngine.channelNameFor
                    (WatchRoom.effectiveRoomId c))] |}
       /\
       ((WatchRoom.mode c = Some WatchRoom.cloud /\
         WatchRoom.localFile c = None /\
         exists video, WatchRoom.selectedVideo c = Some video /\
                       WatchRoom.roomId c = Some (WatchRoom.vf_id video)) \/
        (WatchRoom.mode c = Some WatchRoom.local /\
         WatchRoom.selectedVideo c = None /\
         exists file rid, WatchRoom.localFile c = Some file /\
                          WatchRoom.roomId c = Some rid))) /\
  (let s :=
     AppProvider.app
       (AppProvider.run AppProvider.lateStart
          (AppProvider.load AppProvider.emptyStorage)) in
   AppProvider.view s = AppProvider.v_watchroom /\
   WatchRoom.identity (AppProvider.context s) = None /\
   WatchRoom.mode (AppProvider.context s) = None /\
   WatchRoom.engine
     (WatchRoom.step WatchRoom.Subscribe
        (Scenario.fresh (AppProvider.context s) None))
   = SyncEngine.initial).
Proof.
  split; [|repeat split; reflexivity].
  intros st clicks p s c Ht Hv.
  destruct (sound_run clicks _ Ht (sound_load st)) as [(_ & Hid & Hview) _].
  fold s in Hid, Hview. rewrite Hv in Hid, Hview.
  destruct (Hid eq_refl) as [Hi _]. fold c in Hi, Hview.
  destruct (WatchRoom.identity c) as [id|] eqn:Hc; [|discriminate].
  simpl in Hi. apply truthyString_true in Hi.
  exists id. split; [reflexivity|]. split; [exact Hi|]. split.
  - now apply subscribe_fresh.
  - exact Hview.
Qed.

(** A session from an empty storage to a cloud video: the room subscribes as
    Manika. *)
Lemma watch_room_is_shown_with_identity_and_room_witness :
  exists id,
    WatchRoom.identity
      (AppProvider.context
         (AppProvider.app
            (AppProvider.run AppProvider.cloudSession
               (AppProvider.load AppProvider.emptyStorage))))
    = Some id /\ id <> "".
Proof.
  destruct (proj1 watch_room_is_shown_with_identity_and_room
              AppProvider.emptyStorage AppProvider.cloudSession None
              eq_refl eq_refl)
    as (id & Hid & Hne & _).
  exists id. split; assumption.
Defined.

(** X17.  A page load while the provider holds an identity lands on the
    mode selector with the same password and identity; the mode, the
    selected video, the local file and the room id are gone, and so is
    every wait.  As long as no wait has ended late, every view behind the
    identity selector is shown with an identity held.  A page load after a
    log-out shows the password gate with nothing restored; and so does a
    page load in the watch room that a late [setLocalFile] opened after a
    log-out. *)
Theorem reload_keeps_the_user_and_drops_the_room :
  forall (st : AppProvider.Storage) (clicks : list AppProvider.Click),
    let pg := AppProvider.run clicks (AppProvider.load st) in
    let s := AppProvider.app pg in
    (WatchRoom.identity (AppProvider.context s) <> None ->
     AppProvider.click AppProvider.Reload pg
     = {| AppProvider.app := AppProvider.afterReload s;
          AppProvider.busy := None; AppProvider.detached := [] |}) /\
    (forallb AppProvider.timely clicks = true ->
     AppProvider.signedIn (AppProvider.view s) = true ->
     WatchRoom.identity (AppProvider.context s) <> None) /\
    AppProvider.click AppProvider.Reload
      {| AppProvider.app := AppProvider.logout s;
         AppProvider.busy := AppProvider.busy pg;
         AppProvider.detached := AppProvider.detached pg |}
    = AppProvider.load AppProvider.emptyStorage /\
    (let late :=
       AppProvider.run AppProvider.lateStart
         (AppProvider.load AppProvider.emptyStorage) in
     AppProvider.view (AppProvider.app late) = AppProvider.v_watchroom /\
     AppProvider.click AppProvider.Reload late
     = AppProvider.load AppProvider.emptyStorage).
Proof.
  intros st clicks pg s.
  split; [|split; [|split; [reflexivity|split; reflexivity]]].
  - intros Hid.
    destruct (consistent_run clicks _ (consistent_load st)) as [_ [Hp Hi]].
    fold pg in Hp, Hi. fold s in Hp, Hi.
    destruct (WatchRoom.identity (AppProvider.context s)) as [id|] eqn:Hc;
      [|now elim Hid].
    destruct (Hp (or_intror Hid)) as (Hpw & pw & Hsome & Hne).
    destruct (Hi id eq_refl) as [Hidne Hst].
    cbn [AppProvider.click]. change (AppProvider.app pg) with s.
    unfold AppProvider.load, AppProvider.mount, AppProvider.afterReload.
    rewrite <- Hpw, Hsome, Hst, Hc.
    apply truthyString_true in Hne. apply truthyString_true in Hidne.
    cbn [truthyIdentity]. now rewrite Hne, Hidne.
  - intros Ht Hin.
    destruct (sound_run clicks _ Ht (sound_load st)) as [(_ & Hid & _) _].
    fold pg in Hid. fold s in Hid. destruct (Hid Hin) as [Hi _].
    destruct (WatchRoom.identity (AppProvider.context s)); discriminate.
Qed.

(** Manika reloads while watching a cloud video. *)
Lemma reload_keeps_the_user_and_drops_the_room_witness :
  AppProvider.app
    (AppProvider.click AppProvider.Reload
       (AppProvider.run AppProvider.cloudSession
          (AppProvider.load AppProvider.emptyStorage)))
  = {| AppProvider.view := AppProvider.v_modeselect;
       AppProvider.password := Some "sesame";
       AppProvider.context :=
         AppProvider.withIdentity (Some "Manika") AppProvider.noContext;
       AppProvider.storage :=
         {| AppProvider.mnm_password := Some "sesame";
            AppProvider.mnm_identity := Some "Manika" |};
       AppProvider.revoked := [] |}.
Proof.
  refine (f_equal AppProvider.app
            (proj1 (reload_keeps_the_user_and_drops_the_room
                      AppProvider.emptyStorage AppProvider.cloudSession) _)).
  discriminate.
Defined.

(** ** Picking the local file *)

Section FormFacts.
Import LocalFileSelector LocalFileForm.
Local Open Scope N_scope.

Lemma sameLetter_below a b k :
  sameLetter a b = true -> k < 65 -> (a =? k) = (b =? k).
Proof.
  unfold sameLetter. intros H Hk.
  apply orb_true_iff in H as [H|H]; [apply orb_true_iff in H as [H|H]|].
  - apply N.eqb_eq in H. now subst.
  - apply andb_true_iff in H as [Hu He]. apply N.eqb_eq in He. subst b.
    apply isUpperLatin1_range in Hu.
    destruct (N.eqb_spec a k); destruct (N.eqb_spec (a + 32) k);
      try reflexivity; exfalso; lia.
  - apply andb_true_iff in H as [Hu He]. apply N.eqb_eq in He. subst a.
    apply isUpperLatin1_range in Hu.
    destruct (N.eqb_spec b k); destruct (N.eqb_spec (b + 32) k);
      try reflexivity; exfalso; lia.
Qed.

Lemma lastSegment_from_alike s1 s2 :
  Forall2 (fun a b => sameLetter a b = true) s1 s2 ->
  forall acc1 acc2,
    Forall2 (fun a b => sameLetter a b = true) acc1 acc2 ->
    Forall2 (fun a b => sameLetter a b = true)
      (fold_left (fun acc c => if c =? 46 then [] else acc ++ [c]) s1 acc1)
      (fold_left (fun acc c => if c =? 46 then [] else acc ++ [c]) s2 acc2).
Proof.
  induction 1 as [|a b s1 s2 Hab Hs IH]; intros acc1 acc2 Hacc;
    [exact Hacc|].
  cbn [fold_left]. rewrite (sameLetter_below a b 46 Hab) by lia.
  apply IH. destruct (b =? 46); [constructor|].
  apply Forall2_app; [exact Hacc|]. now repeat constructor.
Qed.

Lemma accepted_alike s1 s2 :
  Forall2 (fun a b => sameLetter a b = true) s1 s2 ->
  accepted s1 = accepted s2.
Proof.
  intros H. unfold accepted, extensionOf, lastSegment.
  now rewrite (toLowerCase_alike _ _
                 (lastSegment_from_alike s1 s2 H [] [] (Forall2_nil _))).
Qed.

Lemma plainTail_alike s1 s2 :
  Forall2 (fun a b => sameLetter a b = true) s1 s2 ->
  negb (isEmpty s1) && forallb (fun d => negb ((d =? 47) || (d =? 46))) s1
  = negb (isEmpty s2) && forallb (fun d => negb ((d =? 47) || (d =? 46))) s2.
Proof.
  intros H. f_equal; [now destruct H|].
  induction H as [|a b s1 s2 Hab Hs IH]; [reflexivity|].
  cbn [forallb]. rewrite IH.
  rewrite (sameLetter_below a b 46 Hab), (sameLetter_below a b 47 Hab) by lia.
  reflexivity.
Qed.

Lemma stripExtension_alike s1 s2 :
  Forall2 (fun a b => sameLetter a b = true) s1 s2 ->
  Forall2 (fun a b => sameLetter a b = true)
    (stripExtension s1) (stripExtension s2).
Proof.
  induction 1 as [|a b s1 s2 Hab Hs IH]; [constructor|].
  cbn [stripExtension]. rewrite <- !andb_assoc.
  rewrite (plainTail_alike s1 s2 Hs), (sameLetter_below a b 46 Hab) by lia.
  destruct (_ && _); [constructor|]. now constructor.
Qed.

Lemma roomId_alike s1 s2 :
  Forall2 (fun a b => sameLetter a b = true) s1 s2 ->
  roomId s1 = roomId s2.
Proof.
  intros H. apply roomId_normalizes.
  exists [], s1, [], [], s2, []. rewrite !app_nil_r.
  repeat split; try constructor. exact H.
Qed.

Lemma lastSegment_plain seg : forall acc,
  Forall (fun c => c <> 46) seg ->
  fold_left (fun acc c => if c =? 46 then [] else acc ++ [c]) seg acc
  = acc ++ seg.
Proof.
  induction seg as [|c seg IH]; intros acc Hseg; [now rewrite app_nil_r|].
  inversion Hseg as [|? ? Hc Hrest]; subst. cbn [fold_left].
  destruct (N.eqb_spec c 46); [contradiction|].
  rewrite IH by assumption. now rewrite <- app_assoc.
Qed.

Lemma lastSegment_dotted base seg :
  Forall (fun c => c <> 46) seg -> lastSegment (base ++ 46 :: seg) = seg.
Proof.
  intros Hseg. unfold lastSegment. rewrite fold_left_app. cbn [fold_left].
  rewrite N.eqb_refl. now rewrite lastSegment_plain.
Qed.

Lemma stripExtension_dotted base seg :
  seg <> [] -> Forall plain seg -> stripExtension (base ++ 46 :: seg) = base.
Proof.
  intros Hne Hseg.
  assert (Htail : forallb (fun d => negb ((d =? 47) || (d =? 46))) seg = true).
  { apply forallb_forall. intros d Hd. rewrite Forall_forall in Hseg.
    destruct (Hseg d Hd) as [H46 H47].
    destruct (N.eqb_spec d 47); [contradiction|].
    destruct (N.eqb_spec d 46); [contradiction|]. reflexivity. }
  induction base as [|c base IH].
  - cbn [app stripExtension]. rewrite N.eqb_refl, Htail.
    destruct seg; [contradiction|reflexivity].
  - cbn [app stripExtension]. rewrite IH.
    replace (forallb _ (base ++ 46 :: seg)) with false;
      [now rewrite !andb_false_r|].
    symmetry. rewrite forallb_app. cbn [forallb]. rewrite N.eqb_refl.
    cbn. now rewrite andb_false_r.
Qed.

End FormFacts.

(** X18.  Two files whose names differ only in the case of Latin-1 letters
    pass or fail the extension check together, and when the room-name field
    was left empty the two auto-filled room names give the same room id. *)
Theorem file_names_differing_in_case_open_the_same_room :
  forall (file1 file2 : LocalFileForm.File) (form1 form2 : LocalFileForm.Form),
    Forall2 (fun a b => LocalFileSelector.sameLetter a b = true)
      (LocalFileForm.name file1) (LocalFileForm.name file2) ->
    LocalFileForm.roomName form1 = [] ->
    LocalFileForm.roomName form2 = [] ->
    LocalFileForm.accepted (LocalFileForm.name file1)
    = LocalFileForm.accepted (LocalFileForm.name file2) /\
    LocalFileSelector.roomId
      (LocalFileForm.roomName
         (LocalFileForm.handleFileChange (Some file1) form1))
    = LocalFileSelector.roomId
        (LocalFileForm.roomName
           (LocalFileForm.handleFileChange (Some file2) form2)).
Proof.
  intros file1 file2 form1 form2 Halike H1 H2.
  pose proof (accepted_alike _ _ Halike) as Hacc.
  split; [exact Hacc|].
  unfold LocalFileForm.handleFileChange. rewrite <- Hacc.
  destruct (LocalFileForm.accepted (LocalFileForm.name file1)); cbn [negb].
  - cbn [LocalFileForm.roomName]. rewrite H1, H2.
    cbn [LocalFileForm.isEmpty].
    apply roomId_alike. now apply stripExtension_alike.
  - cbn [LocalFileForm.withError LocalFileForm.roomName].
    now rewrite H1, H2.
Qed.

(** Movie.MP4 and movie.mp4, each picked on an untouched form. *)
Lemma file_names_differing_in_case_open_the_same_room_witness :
  LocalFileSelector.roomId
    (LocalFileForm.roomName
       (LocalFileForm.handleFileChange
          (Some {| LocalFileForm.name := LocalFileSelector.units "Movie.MP4";
                   LocalFileForm.size := 1024 |})
          LocalFileForm.initialForm))
  = LocalFileSelector.roomId
      (LocalFileForm.roomName
         (LocalFileForm.handleFileChange
            (Some {| LocalFileForm.name :=
                       LocalFileSelector.units "movie.mp4";
                     LocalFileForm.size := 2048 |})
            LocalFileForm.initialForm)).
Proof.
  refine (proj2 (file_names_differing_in_case_open_the_same_room
                   {| LocalFileForm.name :=
                        LocalFileSelector.units "Movie.MP4";
                      LocalFileForm.size := 1024 |}
                   {| LocalFileForm.name :=
                        LocalFileSelector.units "movie.mp4";
                      LocalFileForm.size := 2048 |}
                   LocalFileForm.initialForm LocalFileForm.initialForm
                   _ _ _)); try reflexivity.
  repeat constructor.
Defined.

(** X19.  A picked file named [base.seg], where [seg] is not empty and has
    no full stop or slash, is judged by [seg] alone: it is accepted exactly
    when ['.' + seg.toLowerCase()] is one of the five valid extensions, and
    a file whose whole name is [seg], with no full stop, is judged the same
    way.  When accepted, the file becomes the form's file, the error is
    cleared, and an empty room name is filled with [base] while a room name
    already typed is kept; when rejected, only the error changes. *)
Theorem picked_file_is_judged_by_its_last_extension :
  forall (base seg : LocalFileSelector.JSString) (sz : Z)
         (form : LocalFileForm.Form),
    seg <> [] ->
    Forall LocalFileForm.plain seg ->
    let file := {| LocalFileForm.name := base ++ 46%N :: seg;
                   LocalFileForm.size := sz |} in
    let form' := LocalFileForm.handleFileChange (Some file) form in
    let ok :=
      LocalFileForm.includes LocalFileForm.validExtensions
        (46%N :: LocalFileSelector.toLowerCase seg) in
    LocalFileForm.accepted (LocalFileForm.name file) = ok /\
    LocalFileForm.accepted seg = ok /\
    form'
    = (if ok then
         {| LocalFileForm.fileRef := Some file;
            LocalFileForm.selectedFileName := LocalFileForm.name file;
            LocalFileForm.fileSize := sz;
            LocalFileForm.roomName :=
              if LocalFileForm.isEmpty (LocalFileForm.roomName form)
              then base else LocalFileForm.roomName form;
            LocalFileForm.error := "" |}
       else
         LocalFileForm.withError
           "Please select a video file (MP4, MKV, WebM, AVI, MOV)" form).
Proof.
  intros base seg sz form Hne Hseg file form' ok.
  assert (Hdots : Forall (fun c => c <> 46%N) seg).
  { eapply Forall_impl; [|exact Hseg]. now intros c [H _]. }
  assert (Hacc : LocalFileForm.accepted (LocalFileForm.name file) = ok).
  { unfold LocalFileForm.accepted, LocalFileForm.extensionOf.
    cbn [LocalFileForm.name file]. now rewrite lastSegment_dotted. }
  split; [exact Hacc|]. split.
  - unfold LocalFileForm.accepted, LocalFileForm.extensionOf,
      LocalFileForm.lastSegment.
    now rewrite lastSegment_plain.
  - subst form'. unfold LocalFileForm.handleFileChange. rewrite Hacc.
    destruct ok; cbn [negb]; [|reflexivity].
    cbn [LocalFileForm.name LocalFileForm.size file].
    now rewrite (stripExtension_dotted base seg Hne Hseg).
Qed.

(** Movie.MP4 on an untouched form: accepted, and the room name becomes
    Movie. *)
Lemma picked_file_is_judged_by_its_last_extension_witness :
  LocalFileForm.handleFileChange
    (Some {| LocalFileForm.name := LocalFileSelector.units "Movie.MP4";
             LocalFileForm.size := 1024 |})
    LocalFileForm.initialForm
  = {| LocalFileForm.fileRef :=
         Some {| LocalFileForm.name := LocalFileSelector.units "Movie.MP4";
                 LocalFileForm.size := 1024 |};
       LocalFileForm.selectedFileName := LocalFileSelector.units "Movie.MP4";
       LocalFileForm.fileSize := 1024;
       LocalFileForm.roomName := LocalFileSelector.units "Movie";
       LocalFileForm.error := "" |}.
Proof.
  refine (proj2 (proj2 (picked_file_is_judged_by_its_last_extension
                          (LocalFileSelector.units "Movie")
                          (LocalFileSelector.units "MP4") 1024
                          LocalFileForm.initialForm _ _))).
  - discriminate.
  - repeat constructor; discriminate.
Defined.

(** ** The file fingerprint *)

Section HashFacts.
Import FileHash.
Local Open Scope N_scope.

Lemma slice_slice file : slice (slice file) = slice file.
Proof. unfold slice. now rewrite firstn_firstn, Nat.min_id. Qed.

Lemma concat_cons (x : string) (xs : list string) :
  String.concat "" (x :: xs) = (x ++ String.concat "" xs)%string.
Proof.
  destruct xs as [|y ys]; cbn [String.concat].
  - clear. induction x as [|c x IH]; [reflexivity|]. cbn. now rewrite <- IH.
  - reflexivity.
Qed.

Lemma length_append (a b : string) :
  String.length (a ++ b) = (String.length a + String.length b)%nat.
Proof. induction a as [|c a IH]; cbn; [reflexivity|now rewrite IH]. Qed.

Lemma hexByte_digits b :
  b < 256 ->
  hexByte b
  = String (hexDigit (b / 16)) (String (hexDigit (b mod 16)) EmptyString).
Proof.
  intros Hb. unfold hexByte, toString16.
  destruct (N.ltb_spec b 16) as [Hlt|Hge]; cbn [padStart2].
  - now rewrite N.div_small, N.mod_small by exact Hlt.
  - reflexivity.
Qed.

Lemma length_hexByte b : String.length (hexByte b) = 2%nat.
Proof.
  unfold hexByte, toString16. destruct (b <? 16); reflexivity.
Qed.

Lemma length_hex l :
  String.length (String.concat "" (map hexByte l)) = (2 * length l)%nat.
Proof.
  induction l as [|b l IH]; [reflexivity|].
  cbn [map]. rewrite concat_cons, length_append, length_hexByte, IH.
  cbn [length]. lia.
Qed.

Lemma hexDigit_inj n m : n < 16 -> m < 16 -> hexDigit n = hexDigit m -> n = m.
Proof.
  intros Hn Hm H. apply (f_equal N_of_ascii) in H. unfold hexDigit in H.
  destruct (N.ltb_spec n 10); destruct (N.ltb_spec m 10);
    rewrite !N_ascii_embedding in H by lia; lia.
Qed.

Lemma hex_inj l1 : forall l2,
  Forall (fun b => b < 256) l1 -> Forall (fun b => b < 256) l2 ->
  String.concat "" (map hexByte l1) = String.concat "" (map hexByte l2) ->
  l1 = l2.
Proof.
  induction l1 as [|a l1 IH]; intros l2 H1 H2 Heq.
  - destruct l2 as [|b l2]; [reflexivity|].
    apply (f_equal String.length) in Heq. rewrite !length_hex in Heq.
    cbn [length] in Heq. lia.
  - destruct l2 as [|b l2].
    + apply (f_equal String.length) in Heq. rewrite !length_hex in Heq.
      cbn [length] in Heq. lia.
    + inversion H1 as [|? ? Ha H1']; subst.
      inversion H2 as [|? ? Hb H2']; subst.
      cbn [map] in Heq. rewrite !concat_cons in Heq.
      rewrite (hexByte_digits a Ha), (hexByte_digits b Hb) in Heq.
      cbn [append] in Heq. injection Heq as Hhi Hlo Hrest.
      assert (Hq : a / 16 = b / 16).
      { apply hexDigit_inj; try assumption;
          apply N.Div0.div_lt_upper_bound; lia. }
      assert (Hr : a mod 16 = b mod 16).
      { apply hexDigit_inj; try assumption; apply N.mod_lt; lia. }
      f_equal.
      * rewrite (N.div_mod a 16), (N.div_mod b 16) by lia. now rewrite Hq, Hr.
      * now apply IH.
Qed.

End HashFacts.

(** X20.  Whatever the digest function is, the fingerprint of a file is the
    fingerprint of its first [2 * 1024 * 1024] bytes, so two files that
    agree on those bytes have the same fingerprint; the fingerprint has two
    characters per digest byte; and when the digests are made of bytes, two
    fingerprints are equal only when the digests are. *)
Theorem fingerprint_reads_only_the_first_chunk :
  forall (sha256 : list N -> list N) (file : list N),
    FileHash.computeFileHash sha256 file
    = FileHash.computeFileHash sha256 (FileHash.slice file) /\
    (forall other,
        FileHash.slice other = FileHash.slice file ->
        FileHash.computeFileHash sha256 other
        = FileHash.computeFileHash sha256 file) /\
    String.length (FileHash.computeFileHash sha256 file)
    = (2 * length (sha256 (FileHash.slice file)))%nat /\
    (forall other,
        Forall (fun b => (b < 256)%N) (sha256 (FileHash.slice file)) ->
        Forall (fun b => (b < 256)%N) (sha256 (FileHash.slice other)) ->
        FileHash.computeFileHash sha256 other
        = FileHash.computeFileHash sha256 file ->
        sha256 (FileHash.slice other) = sha256 (FileHash.slice file)).
Proof.
  intros sha256 file. unfold FileHash.computeFileHash.
  split; [now rewrite slice_slice|]. split; [now intros other ->|].
  split; [apply length_hex|].
  intros other Hf Ho Heq. now apply hex_inj.
Qed.

(** ** The room id of local mode, beyond case and padding *)

Section RoomIdFacts.
Import LocalFileSelector.
Local Open Scope N_scope.

Lemma stripNonAlnum_alnum s :
  Forall (fun c => isAlnum c = true) (list_ascii_of_string (stripNonAlnum s)).
Proof.
  induction s as [|c s IH]; cbn [stripNonAlnum]; [constructor|].
  destruct (isAlnum c) eqn:Hc; [|exact IH].
  cbn [list_ascii_of_string]. now constructor.
Qed.

Lemma trimStart_last s x :
  isWhiteSpace x = false -> trimStart (s ++ [x]) = trimStart s ++ [x].
Proof.
  intros Hx. induction s as [|c s IH]; cbn [app trimStart].
  - now rewrite Hx.
  - destruct (isWhiteSpace c); [exact IH|reflexivity].
Qed.

Lemma trimEnd_last t x :
  isWhiteSpace x = false -> trimEnd (t ++ [x]) = t ++ [x].
Proof.
  intros Hx. induction t as [|c t IH]; cbn [app trimEnd].
  - now rewrite Hx.
  - rewrite IH. destruct (t ++ [x]) eqn:Ht; [|reflexivity].
    now destruct t.
Qed.

Lemma trim_last s x :
  isWhiteSpace x = false -> trim (s ++ [x]) = trimStart s ++ [x].
Proof.
  intros Hx. unfold trim. rewrite trimStart_last by exact Hx.
  now apply trimEnd_last.
Qed.

(** With two bytes before it, a last byte 62 and a last byte 63 differ only
    in the fourth character of the last group, [+] or [/], and neither
    survives the filter. *)
Lemma base64_last_group k : forall l,
  length l = (3 * k + 2)%nat ->
  stripNonAlnum (base64 (l ++ [62])) = stripNonAlnum (base64 (l ++ [63])).
Proof.
  induction k as [|k IH]; intros l Hl.
  - destruct l as [|a [|b [|c l]]]; try discriminate Hl. reflexivity.
  - destruct l as [|a [|b [|c l]]]; try (cbn in Hl; lia).
    cbn [app base64 stripNonAlnum].
    rewrite (IH l) by (cbn [length] in Hl; lia). reflexivity.
Qed.

Lemma roomId_last_char s :
  (length (trimStart s) mod 3 = 2)%nat ->
  roomId (s ++ [62]) = roomId (s ++ [63]).
Proof.
  intros Hlen. unfold roomId. rewrite !trim_last by reflexivity.
  unfold toLowerCase. rewrite !map_app. cbn [map].
  change (lowerUnit 62) with 62. change (lowerUnit 63) with 63.
  unfold btoa. rewrite !forallb_app. cbn [forallb].
  change (62 <=? 255) with true. change (63 <=? 255) with true.
  destruct (forallb _ (map lowerUnit (trimStart s))); cbn [andb option_map];
    [|reflexivity].
  f_equal.
  apply base64_last_group with (k := (length (trimStart s) / 3)%nat).
  rewrite length_map.
  pose proof (Nat.div_mod_eq (length (trimStart s)) 3) as Hdm. lia.
Qed.

Lemma btoa_rejects l c :
  In c l -> 255 < c -> btoa l = None.
Proof.
  intros Hin Hc. unfold btoa.
  replace (forallb (fun c => c <=? 255) l) with false; [reflexivity|].
  symmetry. apply not_true_is_false. intros Hall.
  rewrite forallb_forall in Hall. specialize (Hall c Hin).
  apply N.leb_le in Hall. lia.
Qed.

End RoomIdFacts.

(** X21.  When the start button goes through, the room id it hands to the
    provider has only letters and digits, and the watch room of that context
    subscribes to [watchroom-] followed by that id, or by [default] when the
    id came out empty. *)
Theorem room_id_is_alphanumeric :
  forall (file : LocalFileSelector.PickedFile)
         (roomName : LocalFileSelector.JSString)
         (lf : WatchRoom.LocalFile) (rid : string) (id : Identity),
    LocalFileSelector.handleStartWatching (Some file) roomName
    = LocalFileSelector.setLocalFile lf rid ->
    Forall (fun c => LocalFileSelector.isAlnum c = true)
      (list_ascii_of_string rid) /\
    LocalFileSelector.channelOf (LocalFileSelector.roomContext id lf rid)
    = SyncEngine.channelNameFor
        (if truthyString rid then rid else "default").
Proof.
  intros file roomName lf rid id H.
  apply handleStartWatching_roomId in H. unfold LocalFileSelector.roomId in H.
  destruct (LocalFileSelector.btoa _) as [b|]; [|discriminate].
  cbn [option_map] in H. injection H as <-. split.
  - apply stripNonAlnum_alnum.
  - unfold LocalFileSelector.channelOf, WatchRoom.effectiveRoomId,
      WatchRoom.orElse.
    cbn [LocalFileSelector.roomContext WatchRoom.roomId
         WatchRoom.selectedVideo option_map].
    reflexivity.
Qed.

(** The room name movie gives the id bW92aWU. *)
Lemma room_id_is_alphanumeric_witness :
  LocalFileSelector.channelOf
    (LocalFileSelector.roomContext (Some "Manika")
       {| WatchRoom.lf_name := "movie.mp4"; WatchRoom.lf_size := 1024;
          WatchRoom.lf_objectUrl := "blob:1";
          WatchRoom.lf_hash := "def456" |}
       "bW92aWU")
  = "watchroom-bW92aWU".
Proof.
  refine (proj2 (room_id_is_alphanumeric
                   {| LocalFileSelector.pf_name := "movie.mp4";
                      LocalFileSelector.pf_size := 1024;
                      LocalFileSelector.pf_objectUrl := "blob:1";
                      LocalFileSelector.pf_digest := Some "def456" |}
                   (LocalFileSelector.units "movie")
                   {| WatchRoom.lf_name := "movie.mp4";
                      WatchRoom.lf_size := 1024;
                      WatchRoom.lf_objectUrl := "blob:1";
                      WatchRoom.lf_hash := "def456" |}
                   "bW92aWU" (Some "Manika") _)).
  reflexivity.
Defined.

(** X22.  A room name that, once trimmed, holds a character whose lower-case
    form lies outside Latin-1 cannot be used: [btoa] throws, and the start
    button only reports that the file could not be processed, whatever the
    file is. *)
Theorem room_name_outside_latin1_is_refused :
  forall (file : LocalFileSelector.PickedFile)
         (roomName : LocalFileSelector.JSString) (c : N),
    In c (LocalFileSelector.trim roomName) ->
    (255 < LocalFileSelector.lowerUnit c)%N ->
    LocalFileSelector.roomId roomName = None /\
    LocalFileSelector.handleStartWatching (Some file) roomName
    = LocalFileSelector.setError "Failed to process the file.".
Proof.
  intros file roomName c Hin Hc.
  assert (Hrid : LocalFileSelector.roomId roomName = None).
  { unfold LocalFileSelector.roomId.
    rewrite (btoa_rejects _ (LocalFileSelector.lowerUnit c));
      [reflexivity| |exact Hc].
    unfold LocalFileSelector.toLowerCase. now apply in_map. }
  split; [exact Hrid|].
  unfold LocalFileSelector.handleStartWatching. rewrite Hrid.
  destruct (LocalFileSelector.trim roomName); [contradiction|].
  destruct (LocalFileSelector.pf_digest file); reflexivity.
Qed.

(** A room name with an en dash, U+2013. *)
Lemma room_name_outside_latin1_is_refused_witness :
  LocalFileSelector.handleStartWatching
    (Some {| LocalFileSelector.pf_name := "movie.mp4";
             LocalFileSelector.pf_size := 1024;
             LocalFileSelector.pf_objectUrl := "blob:1";
             LocalFileSelector.pf_digest := Some "def456" |})
    (LocalFileSelector.units "naruto" ++ [8211%N]
     ++ LocalFileSelector.units "ep1")
  = LocalFileSelector.setError "Failed to process the file.".
Proof.
  refine (proj2 (room_name_outside_latin1_is_refused _ _ 8211%N _ _)).
  - vm_compute. tauto.
  - reflexivity.
Defined.

(** X23.  The room id is not injective beyond case and padding: when the
    trimmed name has two code units more than a multiple of three, ending it
    with [>] or with [?] gives the same room id, so the start button hands
    the provider the same room for the two names. *)
Theorem room_names_ending_in_gt_or_question_mark_collide :
  forall (s : LocalFileSelector.JSString),
    (length (LocalFileSelector.trimStart s) mod 3 = 2)%nat ->
    LocalFileSelector.roomId (s ++ [62%N])
    = LocalFileSelector.roomId (s ++ [63%N]) /\
    (forall file,
        LocalFileSelector.handleStartWatching (Some file) (s ++ [62%N])
        = LocalFileSelector.handleStartWatching (Some file) (s ++ [63%N])).
Proof.
  intros s Hlen. pose proof (roomId_last_char s Hlen) as Hrid.
  split; [exact Hrid|]. intros file.
  unfold LocalFileSelector.handleStartWatching.
  rewrite Hrid, !trim_last by reflexivity.
  destruct (LocalFileSelector.trimStart s); reflexivity.
Qed.

(** The room names ok> and ok? both give b2s. *)
Lemma room_names_ending_in_gt_or_question_mark_collide_witness :
  LocalFileSelector.roomId (LocalFileSelector.units "ok>")
  = LocalFileSelector.roomId (LocalFileSelector.units "ok?").
Proof.
  refine (proj1 (room_names_ending_in_gt_or_question_mark_collide
                   (LocalFileSelector.units "ok") _)).
  reflexivity.
Defined.

(** ** The chat form, the source kind and the rate button *)

Section ControlFacts.
Import LocalFileSelector PlayerControls.
Local Open Scope N_scope.

Lemma trimStart_blank s :
  forallb isWhiteSpace s = true -> trimStart s = [].
Proof.
  induction s as [|c s IH]; cbn [forallb trimStart]; [reflexivity|].
  intros H. apply andb_true_iff in H as [Hc Hs]. rewrite Hc. now apply IH.
Qed.

Lemma trimStart_head s :
  forallb isWhiteSpace s = false ->
  exists c t, trimStart s = c :: t /\ isWhiteSpace c = false.
Proof.
  induction s as [|c s IH]; cbn [forallb trimStart]; [discriminate|].
  destruct (isWhiteSpace c) eqn:Hc; cbn [andb]; [exact IH|].
  intros _. now exists c, s.
Qed.

(** What [trimEnd] returns is empty or ends with a code unit that is no
    white space. *)
Lemma trimEnd_ends s d :
  trimEnd s = [] \/ isWhiteSpace (last (trimEnd s) d) = false.
Proof.
  induction s as [|c s IH]; cbn [trimEnd]; [now left|].
  destruct (trimEnd s) as [|e t] eqn:Ht.
  - destruct (isWhiteSpace c) eqn:Hc; [now left|right; exact Hc].
  - right. destruct IH as [IH|IH]; [discriminate|].
    change (last (c :: e :: t) d) with (last (e :: t) d). exact IH.
Qed.

Lemma trimEnd_head c t :
  isWhiteSpace c = false -> exists t', trimEnd (c :: t) = c :: t'.
Proof.
  intros Hc. cbn [trimEnd]. destruct (trimEnd t) as [|e t'].
  - rewrite Hc. now exists [].
  - now exists (e :: t').
Qed.

Lemma beforeQuery_path path query :
  Forall (fun c => c <> 63) path ->
  beforeQuery (path ++ 63 :: query) = path.
Proof.
  induction 1 as [|c path Hc Hp IH]; cbn [app beforeQuery].
  - now rewrite N.eqb_refl.
  - destruct (N.eqb_spec c 63); [contradiction|]. now rewrite IH.
Qed.

Lemma beforeQuery_whole path :
  Forall (fun c => c <> 63) path -> beforeQuery path = path.
Proof.
  induction 1 as [|c path Hc Hp IH]; cbn [beforeQuery]; [reflexivity|].
  destruct (N.eqb_spec c 63); [contradiction|]. now rewrite IH.
Qed.

Lemma beforeQuery_alike s1 s2 :
  Forall2 (fun a b => sameLetter a b = true) s1 s2 ->
  Forall2 (fun a b => sameLetter a b = true)
    (beforeQuery s1) (beforeQuery s2).
Proof.
  induction 1 as [|a b s1 s2 Hab Hs IH]; cbn [beforeQuery]; [constructor|].
  rewrite (sameLetter_below a b 63 Hab) by lia.
  destruct (b =? 63); now constructor.
Qed.

Lemma startsWith_app p s : startsWith (p ++ s) p = true.
Proof.
  induction p as [|c p IH]; cbn [app startsWith]; [now destruct s|].
  now rewrite N.eqb_refl, IH.
Qed.

Lemma endsWith_app s suffix : endsWith (s ++ suffix) suffix = true.
Proof. unfold endsWith. rewrite rev_app_distr. apply startsWith_app. Qed.

End ControlFacts.

(** X24.  Submitting the chat form with an input that is empty or all white
    space sends nothing and leaves the input as it is.  Any other input is
    sent once, trimmed, and the input box is emptied; the text sent is not
    empty and neither starts nor ends with white space. *)
Theorem chat_form_sends_trimmed_text_only :
  forall (W : Type) (onSend : LocalFileSelector.JSString -> W -> W)
         (input : LocalFileSelector.JSString) (w : W),
    (forallb LocalFileSelector.isWhiteSpace input = true ->
     ChatPanel.handleSubmit onSend input w = (input, w)) /\
    (forallb LocalFileSelector.isWhiteSpace input = false ->
     exists c t,
       LocalFileSelector.trim input = c :: t /\
       LocalFileSelector.isWhiteSpace c = false /\
       LocalFileSelector.isWhiteSpace (last (c :: t) c) = false /\
       ChatPanel.handleSubmit onSend input w = ([], onSend (c :: t) w)).
Proof.
  intros W onSend input w. unfold ChatPanel.handleSubmit. split.
  - intros Hblank. unfold LocalFileSelector.trim.
    now rewrite (trimStart_blank input Hblank).
  - intros Htext. unfold LocalFileSelector.trim.
    destruct (trimStart_head input Htext) as (c & t & Hs & Hc).
    rewrite Hs. destruct (trimEnd_head c t Hc) as [t' Ht'].
    exists c, t'. split; [exact Ht'|]. split; [exact Hc|]. split.
    + destruct (trimEnd_ends (c :: t) c) as [He|He];
        rewrite Ht' in He; [discriminate|exact He].
    + now rewrite Ht'.
Qed.

(** X25.  Whether a source is taken for an HLS playlist depends only on what
    stands before the first question mark, and not on the case of its
    letters: a query string, such as the signature of a signed URL, changes
    nothing, and a path that ends in [.m3u8] in any mix of cases is a
    playlist. *)
Theorem hls_detection_ignores_query_and_case :
  forall (path query : LocalFileSelector.JSString),
    Forall (fun c => c <> 63%N) path ->
    PlayerControls.isHlsSource (path ++ 63%N :: query)
    = PlayerControls.isHlsSource path /\
    (forall path',
        Forall2 (fun a b => LocalFileSelector.sameLetter a b = true)
          path path' ->
        PlayerControls.isHlsSource path' = PlayerControls.isHlsSource path) /\
    (forall stem ext,
        path = stem ++ ext ->
        Forall2 (fun a b => LocalFileSelector.sameLetter a b = true)
          ext (LocalFileSelector.units ".m3u8") ->
        PlayerControls.isHlsSource path = true).
Proof.
  intros path query Hpath. unfold PlayerControls.isHlsSource.
  split; [now rewrite beforeQuery_path, beforeQuery_whole|]. split.
  - intros path' Halike.
    now rewrite (toLowerCase_alike _ _ (beforeQuery_alike _ _ Halike)).
  - intros stem ext -> Hext. rewrite beforeQuery_whole by exact Hpath.
    unfold LocalFileSelector.toLowerCase. rewrite map_app.
    fold (LocalFileSelector.toLowerCase ext).
    rewrite (toLowerCase_alike _ _ Hext). apply endsWith_app.
Qed.

(** A signed playlist URL. *)
Lemma hls_detection_ignores_query_and_case_witness :
  PlayerControls.isHlsSource
    (LocalFileSelector.units "https://r2/Master.M3U8"
     ++ 63%N :: LocalFileSelector.units "X-Amz-Signature=ab.mp4")
  = PlayerControls.isHlsSource
      (LocalFileSelector.units "https://r2/Master.M3U8").
Proof.
  refine (proj1 (hls_detection_ignores_query_and_case
                   (LocalFileSelector.units "https://r2/Master.M3U8")
                   (LocalFileSelector.units "X-Amz-Signature=ab.mp4") _)).
  repeat constructor; discriminate.
Defined.

(** X26.  The rate button always sets one of the six rates; from a rate
    that is not among them (a NaN included) it sets 0.5; and from any of the
    six rates, six presses come back to it. *)
Theorem rate_button_cycles_through_six_rates :
  forall (playbackRate : float),
    In (PlayerControls.changePlaybackRate playbackRate) PlayerControls.rates /\
    (PlayerControls.indexOf PlayerControls.rates playbackRate = (-1)%Z ->
     PlayerControls.changePlaybackRate playbackRate = 0.5%float) /\
    (In playbackRate PlayerControls.rates ->
     Nat.iter 6 PlayerControls.changePlaybackRate playbackRate = playbackRate).
Proof.
  intros r. split; [|split].
  - unfold PlayerControls.changePlaybackRate, PlayerControls.indexOf,
      PlayerControls.rates.
    cbn [PlayerControls.indexFrom].
    repeat (destruct (PrimFloat.eqb _ r); [cbv; tauto|]). cbv. tauto.
  - unfold PlayerControls.changePlaybackRate. now intros ->.
  - intros Hin. cbv [PlayerControls.rates In] in Hin.
    repeat (destruct Hin as [<-|Hin]; [reflexivity|]). contradiction.
Qed.

(** ** The suppression flag never stays set *)

Section SettleFacts.
Import SyncEngine VideoPlayer WatchRoom EventLoop Session.

Lemma enqueue_inOrder tm q : inOrder q -> inOrder (enqueue tm q).
Proof.
  induction q as [|u q IH]; intros Hq; cbn [enqueue].
  - split; constructor.
  - destruct Hq as [Hu Hq]. destruct (Z.ltb_spec (due tm) (due u)).
    + split; [|split; assumption].
      constructor; [lia|]. eapply Forall_impl; [|exact Hu].
      cbn. intros x Hx. lia.
    + split; [|now apply IH].
      apply Forall_enqueue; [lia|exact Hu].
Qed.

Lemma existsb_enqueue (P : Timer -> bool) tm q :
  existsb P (enqueue tm q) = P tm || existsb P q.
Proof.
  induction q as [|u q IH]; cbn [enqueue existsb]; [reflexivity|].
  destruct (due tm <? due u); cbn [existsb]; [reflexivity|].
  rewrite IH. now rewrite !orb_assoc, (orb_comm (P u)).
Qed.

Lemma settles_later w w' :
  timers w' = timers w -> now w <= now w' -> flagSet w' = flagSet w ->
  settles w -> settles w'.
Proof.
  unfold settles. intros -> Hn -> (Ho & Hb & Hf).
  split; [exact Ho|]. split; [|exact Hf].
  eapply Forall_impl; [|exact Hb]. cbn. intros tm H Hr.
  specialize (H Hr). lia.
Qed.

Lemma settles_same w w' :
  timers w' = timers w -> now w' = now w -> flagSet w' = flagSet w ->
  settles w -> settles w'.
Proof. intros Ht Hn. apply settles_later; [exact Ht|lia]. Qed.

Lemma settles_armed w p' d :
  0 <= d <= 300 -> settles w ->
  settles (withPlayer (Some p')
             (withTimers
                (setTimeout (now w) d resetSuppressEvents (timers w)) w)).
Proof.
  intros Hd (Ho & Hb & _). unfold settles, setTimeout.
  cbn [timers now withPlayer withTimers]. split; [|split].
  - now apply enqueue_inOrder.
  - apply Forall_enqueue; [cbn; lia|exact Hb].
  - intros _. now rewrite existsb_enqueue.
Qed.

Lemma settles_play w : settles w -> settles (onPlayer VideoPlayer.play w).
Proof.
  intros H. unfold onPlayer. destruct (playerRef w) as [p|]; [|exact H].
  cbn [VideoPlayer.play]. apply settles_armed; [lia|exact H].
Qed.

Lemma settles_pause w : settles w -> settles (onPlayer VideoPlayer.pause w).
Proof.
  intros H. unfold onPlayer. destruct (playerRef w) as [p|]; [|exact H].
  cbn [VideoPlayer.pause]. apply settles_armed; [lia|exact H].
Qed.

(** A seek the element accepts queues its reset.  (One that throws does
    not: it sets the flag and leaves the queue as it is.) *)
Lemma settles_seekTo time w :
  PrimFloat.is_finite time = true ->
  settles w -> settles (snd (seekPlayer time w)).
Proof.
  intros Hf H. destruct (playerRef w) as [p|] eqn:Hp;
    [|now rewrite seekPlayer_unmounted].
  destruct (finite_Some time Hf) as (t & Ht & _).
  destruct (videoRef p) as [v|] eqn:Hv.
  - rewrite (seekPlayer_finite time t w p v Hp Hv Ht). cbn [snd].
    apply settles_armed; [lia|exact H].
  - rewrite (seekPlayer_no_element time w p Hp Hv). cbn [snd].
    apply (settles_same w); try reflexivity; [|exact H].
    unfold flagSet. cbn. now rewrite Hp.
Qed.

Lemma settles_matchPeerState e w :
  settles w -> settles (matchPeerState e w).
Proof.
  intros H. unfold matchPeerState. cbn zeta. destruct (ts_state e).
  - destruct (_ && _); [now apply settles_play|exact H].
  - destruct (playerIsPlaying w); [now apply settles_pause|exact H].
Qed.

Lemma settles_showNotification msg w :
  settles w -> settles (showNotification msg w).
Proof.
  intros (Ho & Hb & Hf). unfold settles, showNotification, setTimeout.
  cbn [timers now withTimers inRoom withRoom]. split; [|split].
  - now apply enqueue_inOrder.
  - apply Forall_enqueue; [discriminate|exact Hb].
  - intros Hflag. rewrite existsb_enqueue. now apply Hf.
Qed.

Lemma flagSet_runTask k w :
  flagSet (runTask k w) = true -> k = resetNotification /\ flagSet w = true.
Proof.
  destruct k; cbn [runTask].
  - unfold flagSet. cbn [playerRef withPlayer].
    destruct (playerRef w); discriminate.
  - now intros H.
Qed.

(** What is left of an ordered queue after the timers due by [t] have
    run. *)
Lemma fire_inOrder t q : forall w,
  inOrder q ->
  inOrder (timers (fire t q w)) /\
  Forall (fun tm => t < due tm) (timers (fire t q w)) /\
  (forall P : Timer -> Prop, Forall P q -> Forall P (timers (fire t q w))) /\
  (flagSet (fire t q w) = true ->
   flagSet w = true /\
   existsb isReset (timers (fire t q w)) = existsb isReset q).
Proof.
  induction q as [|tm q IH]; intros w Hq.
  - cbn. repeat split; auto.
  - rewrite fire_cons. destruct Hq as [Htm Hq].
    destruct (Z.leb_spec (due tm) t) as [Hdue|Hlate].
    + destruct (IH (runTask (task tm) w) Hq) as (Ho & Ht & HP & Hf).
      split; [exact Ho|]. split; [exact Ht|]. split.
      * intros P HPq. inversion HPq; subst. now apply HP.
      * intros Hflag. destruct (Hf Hflag) as [Hrun Hex].
        destruct (flagSet_runTask _ _ Hrun) as [Hk Hw].
        split; [exact Hw|]. rewrite Hex. cbn [existsb].
        assert (Hno : isReset tm = false) by (unfold isReset; now rewrite Hk).
        now rewrite Hno.
    + cbn [timers withTimers]. split; [now split|]. split.
      * constructor; [exact Hlate|].
        eapply Forall_impl; [|exact Htm]. cbn. intros u Hu. lia.
      * split; [auto|]. intros Hflag. split; [exact Hflag|reflexivity].
Qed.

Lemma settles_advance dt w : settles w -> settles (advance dt w).
Proof.
  intros (Ho & Hb & Hf). unfold advance. cbn zeta.
  set (t := now w + Z.max 0 dt).
  destruct (fire_inOrder t (timers w) (withNow t w) Ho)
    as (Ho' & _ & HP & Hflag).
  unfold settles. rewrite now_fire. cbn [now withNow].
  split; [exact Ho'|]. split.
  - apply HP. eapply Forall_impl; [|exact Hb]. cbn. intros tm H Hr.
    specialize (H Hr). lia.
  - intros Hset. destruct (Hflag Hset) as [Hw Hex]. rewrite Hex.
    now apply Hf.
Qed.

Lemma settles_dispatch data w :
  finiteTimes (Receive (Some data)) = true ->
  settles w -> settles (dispatch callbacks data w).
Proof.
  intros Hf H.
  destruct data as [e|e|e|e|e|e|e];
    cbn [dispatch callbacks onPlaybackState onBufferState onTimeSync
         onChatMessage onChatUiState onRequestState onFileHash callOpt];
    cbn [finiteTimes] in Hf.
  - unfold handlePlaybackState. destruct (playerRef w); [|exact H].
    destruct (ps_state e).
    + rewrite andThen_seekPlayer, (seekThrows_finite _ w Hf).
      now apply settles_play, settles_seekTo.
    + now apply settles_seekTo, settles_pause.
    + now apply settles_seekTo.
  - unfold handleBufferState. cbn zeta. destruct (bs_isBuffering e).
    + apply settles_pause. now apply (settles_same w).
    + destruct (negb _); [apply settles_play|]; now apply (settles_same w).
  - unfold handleTimeSync. destruct (playerRef w); [|exact H]. cbn zeta.
    destruct (PrimFloat.ltb _ _).
    + rewrite andThen_seekPlayer, (seekThrows_finite _ w Hf).
      now apply settles_matchPeerState, settles_seekTo.
    + cbn [andThen]. now apply settles_matchPeerState.
  - now apply (settles_same w).
  - now apply (settles_same w).
  - unfold handleRequestState. destruct (playerRef w) eqn:Hp; [|exact H].
    cbn zeta. destruct (localHashed _); apply (settles_same w);
      try reflexivity; try exact H; unfold flagSet; cbn; now rewrite Hp.
  - unfold handleFileHash. destruct (localHashed (ctx w)); [|exact H].
    destruct (negb _).
    + now apply (settles_same w).
    + apply settles_showNotification. now apply (settles_same w).
Qed.

Lemma settles_step a w :
  finiteTimes a = true -> settles w -> settles (step a w).
Proof.
  intros Hf H.
  destruct a as [|status|payload|online key|dt|ev|time| |txt elapsed| |];
    cbn [step].
  - now apply (settles_same w).
  - unfold subscribeStatus.
    destruct (lastChannel (wire (engine w))); [|exact H]. cbn zeta.
    destruct (_ && _); [|now apply (settles_same w)].
    unfold connectedEffect. destruct (connected _);
      [|now apply (settles_same w)].
    destruct (localHashed _); [now apply (settles_same w)|].
    destruct (mode _) as [[|]|]; now apply (settles_same w).
  - unfold receive. destruct (channelRef (engine w)); [|exact H].
    destruct (identity (ctx w)); [|exact H].
    unfold onBroadcast. destruct payload as [data|]; [|exact H].
    destruct (String.eqb _ _); [exact H|now apply settles_dispatch].
  - unfold presence. destruct (channelRef (engine w)); [|exact H].
    destruct (identity (ctx w)); [|exact H].
    unfold onPresence. destruct (negb _); [|exact H].
    cbn [callOpt callbacks onPresenceChange]. unfold handlePresenceChange.
    cbn zeta. destruct (pr_online _); apply settles_showNotification;
      now apply (settles_same w).
  - now apply settles_advance.
  - unfold mediaEvent. destruct (playerRef w) as [p|] eqn:Hp; [|exact H].
    destruct (videoRef p); [|exact H].
    unfold listener. destruct ev; try destruct (negb _); try exact H;
      apply (settles_same w); try reflexivity; try exact H;
      unfold flagSet; cbn; now rewrite Hp.
  - unfold videoTime. destruct (playerRef w) as [p|] eqn:Hp; [|exact H].
    apply (settles_same w); try reflexivity; [|exact H].
    unfold flagSet. cbn. now rewrite Hp.
  - unfold heartbeat. destruct (playerRef w) as [p|] eqn:Hp; [|exact H].
    cbn zeta. destruct (playerIsPlaying w); [|exact H].
    now apply (settles_same w).
  - apply (settles_later w); try reflexivity; [|exact H].
    unfold handleSendMessage. cbn. lia.
  - now apply (settles_same w).
  - now apply (settles_same w).
Qed.

Lemma settles_run acts : forall w,
  forallb finiteTimes acts = true -> settles w -> settles (run acts w).
Proof.
  induction acts as [|a acts IH]; intros w Hf H; [exact H|].
  cbn [forallb] in Hf. apply andb_true_iff in Hf as [Ha Hf].
  unfold run in *. cbn [fold_left]. apply IH; [exact Hf|].
  now apply settles_step.
Qed.

Lemma existsb_all_late t q :
  Forall (fun tm => t < due tm) q ->
  Forall (fun tm => isReset tm = true -> due tm <= t) q ->
  existsb isReset q = false.
Proof.
  induction 1 as [|tm q Hlate Hq IH]; intros Hb; [reflexivity|].
  inversion Hb as [|? ? Hr Hb']; subst. cbn [existsb].
  rewrite (IH Hb'). destruct (isReset tm); [|reflexivity].
  specialize (Hr eq_refl). lia.
Qed.

End SettleFacts.

(** X27.  Starting with an empty timer queue and a clear flag, whatever the
    room goes through, as long as the [playback_state] and [time_sync]
    events it receives carry finite times, the suppression flag cannot stay
    set: once 300 ms pass without a further action, the flag is clear and
    no reset is pending, so the user's own play, pause and seek are
    reported again.  An event whose time is not finite breaks this: the
    [seekTo] it leads to sets the flag and throws before the reset is
    queued, and the flag then stays set, with the user's own pause going
    unreported, until a later command queues a reset. *)
Theorem suppression_flag_clears_within_300_ms :
  (forall (w0 : WatchRoom.World) (acts : list WatchRoom.Action) (dt : Z),
     WatchRoom.timers w0 = [] ->
     Session.flagSet w0 = false ->
     forallb Session.finiteTimes acts = true ->
     300 <= dt ->
     let w :=
       WatchRoom.step (WatchRoom.Advance dt) (WatchRoom.run acts w0) in
     Session.flagSet w = false /\
     existsb Session.isReset (WatchRoom.timers w) = false) /\
  (let w :=
     WatchRoom.run
       [WatchRoom.Receive
          (Some (SyncEngine.playback_state Scenario.peerPlayingAtInfinity));
        WatchRoom.Advance 3600000]
       Scenario.cloudRoom in
   Session.flagSet w = true /\
   existsb Session.isReset (WatchRoom.timers w) = false /\
   WatchRoom.emitted w
     (WatchRoom.step (WatchRoom.Media VideoPlayer.ev_pause)
        (Session.togglePlay w)) = []).
Proof.
  split; [|repeat split; reflexivity].
  intros w0 acts dt Hq Hflag Hfin Hdt w.
  assert (H0 : Session.settles w0).
  { unfold Session.settles. rewrite Hq, Hflag. cbn.
    repeat split; [constructor|discriminate]. }
  pose proof (settles_run acts w0 Hfin H0) as (Ho & Hb & Hf).
  set (w1 := WatchRoom.run acts w0) in *.
  subst w. cbn [WatchRoom.step]. unfold WatchRoom.advance. cbn zeta.
  set (t := WatchRoom.now w1 + Z.max 0 dt).
  destruct (fire_inOrder t (WatchRoom.timers w1) (WatchRoom.withNow t w1) Ho)
    as (_ & Hlate & HP & Hset).
  assert (Hnone : existsb Session.isReset
                    (WatchRoom.timers
                       (WatchRoom.fire t (WatchRoom.timers w1)
                          (WatchRoom.withNow t w1))) = false).
  { apply existsb_all_late with t; [exact Hlate|].
    apply HP. eapply Forall_impl; [|exact Hb]. cbn. intros tm H Hr.
    specialize (H Hr). lia. }
  split; [|exact Hnone].
  destruct (Session.flagSet
              (WatchRoom.fire t (WatchRoom.timers w1)
                 (WatchRoom.withNow t w1))) eqn:Hfl; [|reflexivity].
  destruct (Hset eq_refl) as [Hw1 Hex].
  rewrite Hnone in Hex. symmetry in Hex.
  change (Session.flagSet (WatchRoom.withNow t w1))
    with (Session.flagSet w1) in Hw1.
  rewrite (Hf Hw1) in Hex. discriminate.
Qed.

(** Manika's room takes a seek and a pause from the peer 150 ms apart;
    300 ms after the second, the flag is clear. *)
Lemma suppression_flag_clears_within_300_ms_witness :
  Session.flagSet
    (WatchRoom.step (WatchRoom.Advance 300)
       (WatchRoom.run
          [WatchRoom.Subscribe; WatchRoom.SubscribeStatus "SUBSCRIBED";
           WatchRoom.Receive
             (Some (SyncEngine.playback_state Scenario.peerSeekedTo42));
           WatchRoom.Advance 150;
           WatchRoom.Receive
             (Some (SyncEngine.playback_state Scenario.peerPlayingAt10))]
          (Scenario.fresh Scenario.cloudContext (Some Scenario.pausedAt40))))
  = false.
Proof.
  refine (proj1 (proj1 suppression_flag_clears_within_300_ms
                   (Scenario.fresh Scenario.cloudContext
                      (Some Scenario.pausedAt40))
                   _ 300 _ _ _ _)); try reflexivity; discriminate.
Defined.

(** X28.  A click on the player's own play button that falls inside the
    suppression window of a peer's [playback_state] event is carried out on
    the element, whose paused state flips, but the play or pause event that
    follows is not reported: nothing is sent, so the peer is not told. *)
Theorem own_click_inside_the_window_is_not_reported :
  forall (event : SyncEngine.PlaybackStateEvent) (w : WatchRoom.World)
         (ch : SyncEngine.RealtimeChannel) (id : string)
         (p : VideoPlayer.Player) (v : VideoPlayer.HTMLVideoElement)
         (dt : Z) (ev : VideoPlayer.MediaEvent),
    SyncEngine.channelRef (WatchRoom.engine w) = Some ch ->
    WatchRoom.identity (WatchRoom.ctx w) = Some id ->
    SyncEngine.ps_sender event <> id ->
    WatchRoom.playerRef w = Some p ->
    VideoPlayer.videoRef p = Some v ->
    Protocol.noResetBefore
      (WatchRoom.now w + Session.echoWindow (SyncEngine.ps_state event))
      (WatchRoom.timers w) ->
    0 <= dt < Session.echoWindow (SyncEngine.ps_state event) ->
    Protocol.isEcho ev = true ->
    let w1 := WatchRoom.receive (Some (SyncEngine.playback_state event)) w in
    let w2 := Session.togglePlay (WatchRoom.step (WatchRoom.Advance dt) w1) in
    let w3 := WatchRoom.step (WatchRoom.Media ev) w2 in
    WatchRoom.emitted w w3 = [] /\
    option_map VideoPlayer.paused (WatchRoom.videoState w3)
    = option_map (fun v1 => negb (VideoPlayer.paused v1))
        (WatchRoom.videoState w1).
Proof.
  intros event w ch id p v dt ev Hch Hid Hne Hp Hv Hq Hdt Hev w1 w2 w3.
  assert (Hw1 : w1 = WatchRoom.handlePlaybackState event w).
  { subst w1.
    now rewrite (receive_peer w ch id (SyncEngine.playback_state event)
                   Hch Hid Hne). }
  destruct (handlePlaybackState_keeps event w p v Hp Hv Hq)
    as (p1 & v1 & Hp1 & Hv1 & Hs1 & Hq1 & Hn1 & He1).
  rewrite <- Hw1 in Hp1, Hq1, Hn1, He1.
  assert (Hno : Protocol.noResetBefore (WatchRoom.now w1 + Z.max 0 dt + 1)
                  (WatchRoom.timers w1)).
  { eapply Forall_impl; [|exact Hq1]. simpl. intros tm H Hk.
    specialize (H Hk). lia. }
  destruct (fire_keeps_suppress (WatchRoom.now w1 + Z.max 0 dt) _
              (WatchRoom.withNow (WatchRoom.now w1 + Z.max 0 dt) w1)
              p1 Hp1 Hs1 Hno)
    as (p2 & Hp2 & Hs2 & Hv2 & He2).
  set (wa := WatchRoom.step (WatchRoom.Advance dt) w1) in *.
  assert (Hpa : WatchRoom.playerRef wa = Some p2) by exact Hp2.
  assert (Hea : WatchRoom.engine wa = WatchRoom.engine w1) by exact He2.
  set (p3 := {| VideoPlayer.videoRef :=
                  option_map
                    (fun video =>
                       if VideoPlayer.paused video
                       then VideoPlayer.video_play video
                       else VideoPlayer.video_pause video)
                    (VideoPlayer.videoRef p2);
                VideoPlayer.suppressEventsRef :=
                  VideoPlayer.suppressEventsRef p2;
                VideoPlayer.calls := VideoPlayer.calls p2 |}).
  assert (Hw2 : w2 = WatchRoom.withPlayer (Some p3) wa).
  { subst w2. unfold Session.togglePlay, Session.onVideo. now rewrite Hpa. }
  assert (Hw3 : w3 = w2).
  { subst w3. cbn [WatchRoom.step].
    apply (mediaEvent_suppressed ev w2 p3); [now rewrite Hw2|exact Hs2|
                                             exact Hev]. }
  rewrite Hw3, Hw2. split.
  - unfold WatchRoom.emitted. cbn [WatchRoom.engine WatchRoom.withPlayer].
    rewrite Hea, He1. now rewrite skipn_length_self.
  - unfold WatchRoom.videoState.
    cbn [WatchRoom.playerRef WatchRoom.withPlayer VideoPlayer.videoRef p3].
    rewrite Hp1, Hv2, Hv1. cbn [option_map].
    destruct (VideoPlayer.paused v1) eqn:Hpaused; cbn; now rewrite ?Hpaused.
Qed.

(** Manika's room follows Aditya's play; 150 ms later she clicks pause. *)
Lemma own_click_inside_the_window_is_not_reported_witness :
  WatchRoom.emitted Scenario.cloudRoom
    (WatchRoom.step (WatchRoom.Media VideoPlayer.ev_pause)
       (Session.togglePlay
          (WatchRoom.step (WatchRoom.Advance 150)
             (WatchRoom.receive
                (Some (SyncEngine.playback_state Scenario.peerPlayingAt10))
                Scenario.cloudRoom))))
  = [].
Proof.
  refine (proj1 (own_click_inside_the_window_is_not_reported
                   Scenario.peerPlayingAt10 Scenario.cloudRoom
                   Pair.manikaChannel "Manika" Scenario.pausedAt40
                   {| VideoPlayer.currentTime := Scenario.t40;
                      VideoPlayer.paused := true |}
                   150 VideoPlayer.ev_pause _ _ _ _ _ _ _ _));
    try reflexivity; try discriminate.
  - constructor.
  - simpl. lia.
Defined.
